(** * rlberry: bandit environments and the AgentStats harness

    A shallow embedding of
      - [rlberry/envs/bandits/bandit_base.py] (classes [Bandit] and
        [AdversarialBandit]), and
      - [rlberry/stats/agent_stats.py] (class [AgentStats] and [_fit_worker]),
    together with the properties the specification states about them; and
    of the code around them:
      - [rlberry/agents/torch/reinforce/reinforce.py] (the episode loop and
        the discounted returns of [REINFORCEAgent]),
      - [examples/demo_from_stable_baselines.py] ([A2CAgent.fit]), and
      - [rlberry/envs/tests/test_bandits.py] ([test_adversarial]),
    with further properties read off the code.

    Python objects that are shared and mutated (environments, keyword
    dictionaries) live in a store indexed by locations; exceptions are
    values of type [exn]; the external libraries (scipy laws, numpy
    generators, rlberry.seeding, joblib, optuna, pickle) are parameters of
    the sections that use them. *)

From Stdlib Require Import Ascii.
From stdpp Require Import base option list gmap sets strings pretty.

Open Scope Z_scope.

(** ** Python values shared by both files *)

Module Py.

(** The exceptions the modelled code can raise. *)
Inductive exn :=
| AssertionError
| IndexError
| KeyError (key : string)
| AttributeError (attr : string)
| TypeError
| ReferenceError
| ValueError (msg : string)
| NotImplementedError (msg : string)
| FileNotFoundError (path : string)
| UnpicklingError
| KeyboardInterrupt
| AgentError (msg : string).

Inductive result (A : Type) :=
| Ok (a : A)
| Raise (e : exn).
Arguments Ok {A} a.
Arguments Raise {A} e.

Definition is_ok {A} (r : result A) : bool :=
  match r with Ok _ => true | Raise _ => false end.

(** [l[i]] on a Python sequence: a negative index counts from the end,
    an index outside [-len, len) raises IndexError. *)
Definition getitem {A} (l : list A) (i : Z) : result A :=
  let n := Z.of_nat (length l) in
  let j := if i <? 0 then i + n else i in
  if (0 <=? j) && (j <? n)
  then match l !! Z.to_nat j with
       | Some x => Ok x
       | None => Raise IndexError
       end
  else Raise IndexError.

(** The empty [info] dictionary [{}] returned by [step] and [reset]. *)
Definition info := gmap string Z.

End Py.

Import Py.

(** ** rlberry/envs/bandits/bandit_base.py *)

Module BanditBase.

(** What a caller can do with an environment, and what it gets back. *)
Inductive cmd :=
| Step (action : Z)
| Reset.

Definition actions_of (cmds : list cmd) : list Z :=
  omap (fun c => match c with Step a => Some a | Reset => None end) cmds.

Section Outputs.
Context {R : Type}.

Definition step_result : Type := result (Z * R * bool * bool * info).

Inductive output :=
| StepOut (r : step_result)
| ResetOut (o : Z * info).

Definition step_outputs (outs : list output) : list step_result :=
  omap (fun o => match o with StepOut r => Some r | ResetOut _ => None end)
       outs.

Definition reward_of (r : step_result) : result R :=
  match r with
  | Ok (_, reward, _, _, _) => Ok reward
  | Raise e => Raise e
  end.
End Outputs.

(** *** class Bandit *)
Module Bandit.
Section Defs.
Context {R Rng Law : Type}.

(** [law.rvs(size=n, random_state=g)]: the samples drawn and the
    generator afterwards. *)
Variable rvs : Law -> nat -> Rng -> list R * Rng.

Record t := mk {
  laws : list Law;
  n_arms : Z;
  rewards : list (list R);
  n_rewards : list Z;
  rng : Rng
}.

(** The pre-sampling comprehension of [__init__]: ten samples per arm,
    arm after arm, all from the same generator. *)
Fixpoint presample (ls : list Law) (g : Rng) : list (list R) * Rng :=
  match ls with
  | [] => ([], g)
  | law :: ls' =>
      let '(xs, g1) := rvs law 10 g in
      let '(rest, g2) := presample ls' g1 in
      (xs :: rest, g2)
  end.

(** [Bandit.__init__(laws)]; [g] is the generator [Model.__init__]
    leaves in [self.rng].  The attribute
    [action_space = spaces.Discrete(n_arms)] plays no part in [step] and
    [reset] and is left out; rlberry.spaces refuses [Discrete(0)], so the
    constructor itself only returns for a list of laws that is not empty. *)
Definition init (ls : list Law) (g : Rng) : t :=
  let '(rw, g') := presample ls g in
  {| laws := ls;
     n_arms := Z.of_nat (length ls);
     rewards := rw;
     n_rewards := replicate (length ls) 10;
     rng := g' |}.

Definition set_rng (b : t) (g : Rng) : t :=
  {| laws := laws b; n_arms := n_arms b; rewards := rewards b;
     n_rewards := n_rewards b; rng := g |}.

(** The arms of a bandit never change, and [n_arms] counts them. *)
Definition arms_ok (b : t) : Prop :=
  n_arms b = Z.of_nat (length (laws b)).

(** Two bandits sample alike when they have the same arms and hold the same
    generator. *)
Definition same_sampling (b1 b2 : t) : Prop :=
  laws b1 = laws b2 /\ n_arms b1 = n_arms b2 /\ rng b1 = rng b2.

Definition step (b : t) (action : Z) : @step_result R * t :=
  if negb (action <? n_arms b) then (Raise AssertionError, b)
  else
    match getitem (laws b) action with
    | Raise e => (Raise e, b)
    | Ok law =>
        let '(xs, g') := rvs law 1 (rng b) in
        match getitem xs 0 with
        | Raise e => (Raise e, set_rng b g')
        | Ok reward => (Ok (0, reward, true, false, ∅), set_rng b g')
        end
    end.

Definition reset (b : t) : (Z * info) * t := ((0, ∅), b).

Definition exec (c : cmd) (b : t) : @output R * t :=
  match c with
  | Step a => let '(r, b') := step b a in (StepOut r, b')
  | Reset => let '(o, b') := reset b in (ResetOut o, b')
  end.

Fixpoint run (cmds : list cmd) (b : t) : list (@output R) * t :=
  match cmds with
  | [] => ([], b)
  | c :: cs =>
      let '(o, b1) := exec c b in
      let '(os, b2) := run cs b1 in
      (o :: os, b2)
  end.

(** [safe_reseed(env, Seeder(seed))]: the environment's generator is
    replaced by the one of the fresh seeder. *)
Section Reseed.
Variable seeder_rng : Z -> Rng.
Definition safe_reseed (b : t) (seed : Z) : t :=
  set_rng b (seeder_rng seed).
End Reseed.
End Defs.
Arguments t : clear implicits.
End Bandit.

(** *** class AdversarialBandit *)
Module AdversarialBandit.
Section Defs.
Context {R : Type}.

(** A two-dimensional numpy array: its shape and its rows. *)
Record ndarray := mk_array {
  shape : nat * nat;
  rows : list (list R)
}.

Definition wf_array (a : ndarray) : Prop :=
  length (rows a) = (shape a).1 /\
  Forall (fun row => length row = (shape a).2) (rows a).

Record t := mk {
  n_arms : Z;
  rewards : list (list R)   (* the deque, leftmost row first *)
}.

Definition init (a : ndarray) : t :=
  {| n_arms := Z.of_nat (shape a).2; rewards := rows a |}.

(** Every row left in the queue has one reward per arm. *)
Definition rows_ok (e : t) : Prop :=
  Forall (fun row => Z.of_nat (length row) = n_arms e) (rewards e).

Definition step (e : t) (action : Z) : @step_result R * t :=
  if negb (action <? n_arms e) then (Raise AssertionError, e)
  else
    match rewards e with
    | [] => (Raise IndexError, e)          (* popleft on an empty deque *)
    | row :: rest =>
        let e' := {| n_arms := n_arms e; rewards := rest |} in
        match getitem row action with
        | Raise ex => (Raise ex, e')
        | Ok reward => (Ok (0, reward, true, false, ∅), e')
        end
    end.

Definition reset (e : t) : (Z * info) * t := ((0, ∅), e).

Definition exec (c : cmd) (e : t) : @output R * t :=
  match c with
  | Step a => let '(r, e') := step e a in (StepOut r, e')
  | Reset => let '(o, e') := reset e in (ResetOut o, e')
  end.

Fixpoint run (cmds : list cmd) (e : t) : list (@output R) * t :=
  match cmds with
  | [] => ([], e)
  | c :: cs =>
      let '(o, e1) := exec c e in
      let '(os, e2) := run cs e1 in
      (o :: os, e2)
  end.
End Defs.
Arguments t : clear implicits.
Arguments ndarray : clear implicits.
End AdversarialBandit.

End BanditBase.

(** ** rlberry/stats/agent_stats.py *)

(** *** The libraries the module imports

    Their types and functions are fields of one interface: the types of
    environments, agents, generators, studies and so on, and the functions
    of rlberry.seeding, joblib, optuna, rlberry.stats.evaluation, os and
    datetime that the module calls. *)
Module Ext.

Definition loc := positive.

(** Where joblib runs the tasks: in the calling process (its sequential
    backend) or in worker processes that receive pickled arguments. *)
Inductive backend :=
| InProcess
| Subprocesses.

(** [optuna.samplers.RandomSampler(seed=...)]. *)
Inductive sampler :=
| RandomSampler (seed : Z).

(** [optuna.pruners.SuccessiveHalvingPruner(...)]. *)
Inductive pruner :=
| SuccessiveHalvingPruner
    (min_resource reduction_factor min_early_stopping_rate : Z).

Class Libs := {
  Env : Type;          (* an environment object and all it owns *)
  Value : Type;        (* the values held by keyword dictionaries *)
  Rng : Type;          (* numpy.random.Generator *)
  SeedSeq : Type;      (* the global state of rlberry.seeding *)
  Agent : Type;
  Stat : Type;         (* one entry of the dictionary agent.fit() returns *)
  Reward : Type;
  Study : Type;
  Trial : Type;
  FrozenTrial : Type;
  DataFrame : Type;
  Column : Type;
  Bytes : Type;
  FileSystem : Type;
  (* rlberry.seeding.get_rng() *)
  get_rng : SeedSeq -> Rng * SeedSeq;
  (* env.reseed(), which draws from rlberry.seeding *)
  env_reseed : Env -> SeedSeq -> Env * SeedSeq;
  (* rng.integers(high) *)
  rng_integers : Rng -> Z -> Z * Rng;
  (* the backend joblib selects for a value of n_jobs, if it accepts it *)
  joblib_backend : Z -> result backend;
  (* optuna.create_study(sampler, pruner, direction) *)
  create_study : option sampler -> option pruner -> string -> Study;
  (* one round of study.optimize: a new trial, and its outcome recorded *)
  study_ask : Study -> Trial * Study;
  study_tell : Study -> Trial -> result Reward -> Study;
  (* whether the timeout of study.optimize lets another trial start *)
  study_in_time : option Z -> Study -> bool;
  (* study.best_trial, best_trial.params, study.trials_dataframe() *)
  best_trial : Study -> result FrozenTrial;
  params : FrozenTrial -> gmap string Value;
  trials_dataframe : Study -> DataFrame;
  (* compare_policies(agent_stats_list, eval_env, eval_horizon,
     stationary_policy, n_sim, plot); of each AgentStats it is handed the
     name, the fitted agents and the policy keyword arguments *)
  compare_policies :
    list (string * option (list Agent) * gmap string Value) ->
    Env -> option Z -> bool -> Z -> bool -> SeedSeq ->
    result (gmap string Column) * Env * SeedSeq;
  (* column.values.mean() *)
  column_mean : Column -> Reward;
  (* open(path, 'wb').write, open(path, 'rb').read, os.path.exists,
     os.makedirs *)
  fs_write : string -> Bytes -> FileSystem -> result FileSystem;
  fs_read : string -> FileSystem -> result Bytes;
  fs_exists : string -> FileSystem -> bool;
  fs_makedirs : string -> FileSystem -> result FileSystem
}.

End Ext.

Import Ext.

(** *** The agent class handed to AgentStats *)
Module AgentClass.

(** A class of agents: its [name] and [fit_info] attributes, its
    constructor, the [fit] method of its instances and the class method
    [sample_parameters].  A call may mutate the objects it is handed and
    draw from rlberry.seeding, so each returns the new contents next to its
    result.  [fit] is a method that returns a dictionary of statistics, as
    [fit_info] asks; a [fit] that returns something else (None, say) is not
    an instance of this record. *)
Record t `{Libs} := mk {
  name : string;
  fit_info : list string;
  new : Env -> gmap string Value -> SeedSeq ->
        result Agent * Env * gmap string Value * SeedSeq;
  fit : Agent -> Env -> gmap string Value -> SeedSeq ->
        result (gmap string Stat) * Agent * Env * gmap string Value * SeedSeq;
  sample_parameters : Trial -> result (gmap string Value)
}.

End AgentClass.

(** *** The store, the world around it, and class AgentStats *)
Module AgentStats.
Section Defs.
Context `{Libs}.

(** The objects the module shares with its caller.  An object stands for
    itself and all it owns: copying it deeply duplicates all of it, and who
    is handed it may mutate any of it. *)
Inductive object :=
| EnvObj (e : Env)
| DictObj (d : gmap string Value).

(** The tuples built by [fit] for [_fit_worker]. *)
Definition worker_args : Type := AgentClass.t * loc * loc * loc.

(** What the module does to the outside: console output, log records, and
    the calls it hands to joblib. *)
Inductive event :=
| Print (text : string)
| PrintStudySummary (study : Study) (best : FrozenTrial)
| LogError (text : string)
| LogWarning (text : string)
| JoblibParallel (n_jobs verbose : Z) (tasks : list worker_args).

Record world := mk_world {
  heap : gmap loc object;
  seeder : SeedSeq;               (* rlberry.seeding *)
  now : Z;                        (* int(datetime.timestamp(datetime.now())) *)
  trace : list event;             (* oldest first *)
  _OPTUNA_INSTALLED : bool;       (* the module global set at import *)
  fs : FileSystem
}.

Definition set_heap (h : gmap loc object) (w : world) : world :=
  {| heap := h; seeder := seeder w; now := now w; trace := trace w;
     _OPTUNA_INSTALLED := _OPTUNA_INSTALLED w; fs := fs w |}.

Definition set_seeder (s : SeedSeq) (w : world) : world :=
  {| heap := heap w; seeder := s; now := now w; trace := trace w;
     _OPTUNA_INSTALLED := _OPTUNA_INSTALLED w; fs := fs w |}.

Definition add_trace (ev : event) (w : world) : world :=
  {| heap := heap w; seeder := seeder w; now := now w;
     trace := trace w ++ [ev];
     _OPTUNA_INSTALLED := _OPTUNA_INSTALLED w; fs := fs w |}.

Definition set_fs (f : FileSystem) (w : world) : world :=
  {| heap := heap w; seeder := seeder w; now := now w; trace := trace w;
     _OPTUNA_INSTALLED := _OPTUNA_INSTALLED w; fs := f |}.

Definition set_optuna_installed (b : bool) (w : world) : world :=
  {| heap := heap w; seeder := seeder w; now := now w; trace := trace w;
     _OPTUNA_INSTALLED := b; fs := fs w |}.

(** Computations that read and write the world and may raise.  What was
    written before an exception stays written. *)
Definition M (A : Type) : Type := world -> result A * world.

Definition ret {A} (a : A) : M A := fun w => (Ok a, w).

Definition raise {A} (e : exn) : M A := fun w => (Raise e, w).

Definition bind {A B} (m : M A) (k : A -> M B) : M B :=
  fun w =>
    match m w with
    | (Ok a, w1) => k a w1
    | (Raise e, w1) => (Raise e, w1)
    end.

Notation "'let*' x ':=' m 'in' k" := (bind m (fun x => k))
  (at level 10, x binder, k at level 200).

Definition lift {A} (r : result A) : M A := fun w => (r, w).

Definition emit (ev : event) : M unit := fun w => (Ok tt, add_trace ev w).

(** A new object at a location the store does not use yet. *)
Definition alloc (o : object) : M loc :=
  fun w =>
    let l := fresh (dom (heap w)) in
    (Ok l, set_heap (<[l := o]> (heap w)) w).

(** [copy.deepcopy(x)] *)
Definition deepcopy (l : loc) : M loc :=
  fun w =>
    match heap w !! l with
    | Some o => alloc o w
    | None => (Raise ReferenceError, w)
    end.

(** [copy.deepcopy(x)] where [x] may be None: [deepcopy(None)] is None. *)
Definition deepcopy_opt (x : option loc) : M (option loc) :=
  match x with
  | None => ret None
  | Some l => let* c := deepcopy l in ret (Some c)
  end.

(** [x.reseed()] *)
Definition reseed (x : option loc) : M unit :=
  fun w =>
    match x with
    | None => (Raise (AttributeError "reseed"), w)
    | Some l =>
        match heap w !! l with
        | Some (EnvObj e) =>
            let '(e', s) := env_reseed e (seeder w) in
            (Ok tt, set_seeder s (set_heap (<[l := EnvObj e']> (heap w)) w))
        | Some (DictObj _) => (Raise (AttributeError "reseed"), w)
        | None => (Raise ReferenceError, w)
        end
    end.

(** The contents of a dictionary object. *)
Definition read_dict (l : loc) : M (gmap string Value) :=
  fun w =>
    match heap w !! l with
    | Some (DictObj d) => (Ok d, w)
    | Some (EnvObj _) => (Raise TypeError, w)
    | None => (Raise ReferenceError, w)
    end.

Definition read_env (l : loc) : M Env :=
  fun w =>
    match heap w !! l with
    | Some (EnvObj e) => (Ok e, w)
    | Some (DictObj _) => (Raise (AttributeError "env"), w)
    | None => (Raise ReferenceError, w)
    end.

Definition write (l : loc) (o : object) : M unit :=
  fun w => (Ok tt, set_heap (<[l := o]> (heap w)) w).

(** [d.update(other)]: the entries of [other] win. *)
Definition dict_update (l : loc) (other : gmap string Value) : M unit :=
  let* d := read_dict l in write l (DictObj (other ∪ d)).

(** [seeding.get_rng()] *)
Definition seeding_get_rng : M Rng :=
  fun w => let '(g, s) := get_rng (seeder w) in (Ok g, set_seeder s w).

(** [datetime.timestamp(datetime.now())], truncated by [int]. *)
Definition timestamp_now : M Z := fun w => (Ok (now w), w).

Definition NL : string := String "010"%char "".

(** [os.path.join(a, b)] *)
Definition starts_with_slash (s : string) : bool :=
  match s with
  | String c _ => bool_decide (c = "/"%char)
  | EmptyString => false
  end.

Fixpoint ends_with_slash (s : string) : bool :=
  match s with
  | EmptyString => false
  | String c EmptyString => bool_decide (c = "/"%char)
  | String _ s' => ends_with_slash s'
  end.

Definition path_join (a b : string) : string :=
  if starts_with_slash b then b
  else if bool_decide (a = "") || ends_with_slash a then a +:+ b
  else a +:+ "/" +:+ b.

(** The attributes of an AgentStats object.  [ref] is what stands at the
    attributes that refer to shared objects: a location in a live object,
    the object itself in a pickled one. *)
Record t {ref : Type} := mk {
  agent_name : string;
  identifier : string;
  fit_info : list string;
  agent_class : AgentClass.t;
  train_env : option ref;
  eval_env : ref;
  eval_horizon : option Z;
  init_kwargs : ref;
  fit_kwargs : ref;
  policy_kwargs : ref;
  n_fit : Z;
  n_jobs : Z;
  output_dir : string;
  verbose : Z;
  train_env_set : list ref;
  fitted_agents : option (list (Agent));
  fit_statistics : gmap string (list Stat);
  rng : Rng;
  study : option Study;
  default_filename : string
}.
Arguments t : clear implicits.

Definition set_fitted_agents {ref} (x : option (list Agent)) (s : t ref) : t ref :=
  {| agent_name := agent_name s; identifier := identifier s;
     fit_info := fit_info s; agent_class := agent_class s;
     train_env := train_env s; eval_env := eval_env s;
     eval_horizon := eval_horizon s; init_kwargs := init_kwargs s;
     fit_kwargs := fit_kwargs s; policy_kwargs := policy_kwargs s;
     n_fit := n_fit s; n_jobs := n_jobs s; output_dir := output_dir s;
     verbose := verbose s; train_env_set := train_env_set s;
     fitted_agents := x; fit_statistics := fit_statistics s;
     rng := rng s; study := study s;
     default_filename := default_filename s |}.

Definition set_fit_statistics {ref} (x : gmap string (list Stat)) (s : t ref) : t ref :=
  {| agent_name := agent_name s; identifier := identifier s;
     fit_info := fit_info s; agent_class := agent_class s;
     train_env := train_env s; eval_env := eval_env s;
     eval_horizon := eval_horizon s; init_kwargs := init_kwargs s;
     fit_kwargs := fit_kwargs s; policy_kwargs := policy_kwargs s;
     n_fit := n_fit s; n_jobs := n_jobs s; output_dir := output_dir s;
     verbose := verbose s; train_env_set := train_env_set s;
     fitted_agents := fitted_agents s; fit_statistics := x;
     rng := rng s; study := study s;
     default_filename := default_filename s |}.

Definition set_rng {ref} (x : Rng) (s : t ref) : t ref :=
  {| agent_name := agent_name s; identifier := identifier s;
     fit_info := fit_info s; agent_class := agent_class s;
     train_env := train_env s; eval_env := eval_env s;
     eval_horizon := eval_horizon s; init_kwargs := init_kwargs s;
     fit_kwargs := fit_kwargs s; policy_kwargs := policy_kwargs s;
     n_fit := n_fit s; n_jobs := n_jobs s; output_dir := output_dir s;
     verbose := verbose s; train_env_set := train_env_set s;
     fitted_agents := fitted_agents s; fit_statistics := fit_statistics s;
     rng := x; study := study s;
     default_filename := default_filename s |}.

Definition set_study {ref} (x : option Study) (s : t ref) : t ref :=
  {| agent_name := agent_name s; identifier := identifier s;
     fit_info := fit_info s; agent_class := agent_class s;
     train_env := train_env s; eval_env := eval_env s;
     eval_horizon := eval_horizon s; init_kwargs := init_kwargs s;
     fit_kwargs := fit_kwargs s; policy_kwargs := policy_kwargs s;
     n_fit := n_fit s; n_jobs := n_jobs s; output_dir := output_dir s;
     verbose := verbose s; train_env_set := train_env_set s;
     fitted_agents := fitted_agents s; fit_statistics := fit_statistics s;
     rng := rng s; study := x;
     default_filename := default_filename s |}.

(** **** AgentStats.__init__ *)

(** [x = deepcopy(src); x.reseed()] *)
Definition reseeded_copy (src : option loc) : M loc :=
  let* c := deepcopy_opt src in
  let* _ := reseed c in
  match c with
  | Some l => ret l
  | None => raise (AttributeError "reseed")
  end.

(** The loop that fills [train_env_set]. *)
Fixpoint make_train_env_set (n : nat) (train_env : option loc) : M (list loc) :=
  match n with
  | O => ret []
  | S n' =>
      let* _env := reseeded_copy train_env in
      let* rest := make_train_env_set n' train_env in
      ret (_env :: rest)
  end.

(** [x if x is not None else {}], where [{}] is a new dictionary. *)
Definition or_new_dict (x : option loc) : M loc :=
  match x with
  | Some l => ret l
  | None => alloc (DictObj ∅)
  end.

(** The constructor.  With [agent_class = None] (the call made by [load]) it
    sets no attribute, which is the result [None] here. *)
Definition __init__
    (agent_class : option AgentClass.t) (train_env : option loc)
    (eval_env : option loc) (eval_horizon : option Z)
    (init_kwargs fit_kwargs policy_kwargs : option loc)
    (agent_name : option string) (n_fit n_jobs : Z)
    (output_dir : string) (verbose : Z) : M (option (t loc)) :=
  match agent_class with
  | None => ret None
  | Some cls =>
      let name := default (AgentClass.name cls) agent_name in
      let* timestamp := timestamp_now in
      let ident := "stats_" +:+ name +:+ "_" +:+ pretty timestamp in
      let* ev := reseeded_copy
              (match eval_env with None => train_env | Some e => Some e end) in
      let* pk := deepcopy_opt policy_kwargs in
      let* ik' := or_new_dict init_kwargs in
      let* fk' := or_new_dict fit_kwargs in
      let* pk' := or_new_dict pk in
      let* envs := make_train_env_set (Z.to_nat n_fit) train_env in
      let* g := seeding_get_rng in
      ret (Some {|
        agent_name := name;
        identifier := ident;
        fit_info := AgentClass.fit_info cls;
        agent_class := cls;
        train_env := train_env;
        eval_env := ev;
        eval_horizon := eval_horizon;
        init_kwargs := ik';
        fit_kwargs := fk';
        policy_kwargs := pk';
        n_fit := n_fit;
        n_jobs := n_jobs;
        output_dir := output_dir;
        verbose := verbose;
        train_env_set := envs;
        fitted_agents := None;
        fit_statistics := ∅;
        rng := g;
        study := None;
        default_filename := path_join output_dir ident
      |})
  end.

(** **** _fit_worker and the joblib call *)

(** [agent_class(train_env, copy_env=False, reseed_env=False, **init_kwargs)]:
    the constructor works on the very objects it is handed. *)
Definition call_new (agent_class : AgentClass.t) (train_env init_kwargs : loc) : M Agent :=
  let* e := read_env train_env in
  let* ik := read_dict init_kwargs in
  fun w =>
    let '(r, e1, ik1, s1) := AgentClass.new agent_class e ik (seeder w) in
    (r, set_seeder s1
          (set_heap (<[init_kwargs := DictObj ik1]>
                       (<[train_env := EnvObj e1]> (heap w))) w)).

(** [agent.fit] with [fit_kwargs] unpacked; the agent trains on the environment it was
    built on. *)
Definition call_fit (agent_class : AgentClass.t) (agent : Agent)
    (train_env fit_kwargs : loc) : M (Agent * gmap string Stat) :=
  let* e := read_env train_env in
  let* fk := read_dict fit_kwargs in
  fun w =>
    let '(r, agent', e1, fk1, s1) :=
      AgentClass.fit agent_class agent e fk (seeder w) in
    (match r with
     | Ok info => Ok (agent', info)
     | Raise ex => Raise ex
     end,
     set_seeder s1
       (set_heap (<[fit_kwargs := DictObj fk1]>
                    (<[train_env := EnvObj e1]> (heap w))) w)).

Definition _fit_worker (args : worker_args) : M (Agent * gmap string Stat) :=
  let '(agent_class, train_env, init_kwargs, fit_kwargs) := args in
  let* agent := call_new agent_class train_env init_kwargs in
  call_fit agent_class agent train_env fit_kwargs.

(** Tasks run one after the other in the calling process. *)
Fixpoint run_in_process (tasks : list worker_args) : M (list (Agent * gmap string Stat)) :=
  match tasks with
  | [] => ret []
  | a :: rest =>
      let* o := _fit_worker a in
      let* os := run_in_process rest in
      ret (o :: os)
  end.

(** Tasks run in worker processes: each works on its own copy of the
    caller's world, and only its return value comes back.  The state of
    rlberry.seeding a worker process starts from is joblib's business; it is
    taken to be the caller's here, and the properties stated of the workers
    leave it open ([trained_on] and [fitted_on] are for some state). *)
Fixpoint run_in_subprocesses (tasks : list worker_args) (w : world) : result (list (Agent * gmap string Stat)) :=
  match tasks with
  | [] => Ok []
  | a :: rest =>
      match (_fit_worker a w).1 with
      | Raise e => Raise e
      | Ok o =>
          match run_in_subprocesses rest w with
          | Raise e => Raise e
          | Ok os => Ok (o :: os)
          end
      end
  end.

(** [Parallel(n_jobs=n_jobs, verbose=verbose)(delayed(_fit_worker)(arg)
    for arg in tasks)]: joblib returns the results in the order of the
    tasks. *)
Definition Parallel (n_jobs verbose : Z) (tasks : list worker_args) : M (list (Agent * gmap string Stat)) :=
  let* _ := emit (JoblibParallel n_jobs verbose tasks) in
  let* b := lift (joblib_backend n_jobs) in
  match b with
  | InProcess => run_in_process tasks
  | Subprocesses => fun w => (run_in_subprocesses tasks w, w)
  end.

(** **** AgentStats.fit *)

(** The list comprehension that builds [args]. *)
Fixpoint build_args (self : t loc) (envs : list loc) : M (list worker_args) :=
  match envs with
  | [] => ret []
  | train_env :: rest =>
      let* ik := deepcopy (init_kwargs self) in
      let* fk := deepcopy (fit_kwargs self) in
      let* args := build_args self rest in
      ret ((agent_class self, train_env, ik, fk) :: args)
  end.

(** The inner loop of the gathering: [stat[entry]] of every worker, appended
    in order; a missing entry raises KeyError and leaves what was appended. *)
Fixpoint collect (entry : string) (stats : list (gmap string Stat)) (acc : list Stat) : result unit * list Stat :=
  match stats with
  | [] => (Ok tt, acc)
  | stat :: rest =>
      match stat !! entry with
      | Some x => collect entry rest (acc ++ [x])
      | None => (Raise (KeyError entry), acc)
      end
  end.

(** The outer loop, over [fit_info]. *)
Fixpoint gather (entries : list string) (stats : list (gmap string Stat)) (fit_statistics : gmap string (list Stat)) : result unit * gmap string (list Stat) :=
  match entries with
  | [] => (Ok tt, fit_statistics)
  | entry :: rest =>
      let '(r, l) := collect entry stats [] in
      let fit_statistics' := <[entry := l]> fit_statistics in
      match r with
      | Ok _ => gather rest stats fit_statistics'
      | Raise e => (Raise e, fit_statistics')
      end
  end.

Definition print_if_verbose (verbose : Z) (text : string) : M unit :=
  if 0 <? verbose then emit (Print text) else ret tt.

Definition fit (self : t loc) (w : world) : result unit * t loc * world :=
  let '(_, w1) :=
    print_if_verbose (verbose self)
      (NL +:+ " Training AgentStats for " +:+ agent_name self +:+ "... " +:+ NL)
      w in
  match build_args self (train_env_set self) w1 with
  | (Raise e, w2) => (Raise e, self, w2)
  | (Ok args, w2) =>
      match Parallel (n_jobs self) (verbose self) args w2 with
      | (Raise e, w3) => (Raise e, self, w3)
      | (Ok workers_output, w3) =>
          let self1 := set_fitted_agents (Some (workers_output.*1)) self in
          let stats := workers_output.*2 in
          let '(_, w4) :=
            print_if_verbose (verbose self) (NL +:+ " ... trained! " +:+ NL) w3 in
          let '(r, fs') := gather (fit_info self1) stats (fit_statistics self1) in
          (r, set_fit_statistics fs' self1, w4)
      end
  end.

(** [fit] as a computation that hands back the object. *)
Definition fit_then (self : t loc) : M (t loc) :=
  fun w =>
    let '(r, self', w') := fit self w in
    (match r with Ok _ => Ok self' | Raise e => Raise e end, w').

(** **** AgentStats.save and AgentStats.load *)

(** [s[-n:]]: the last [n] characters of [s], all of [s] when it is
    shorter. *)
Definition last_chars (n : nat) (s : string) : string :=
  String.substring (String.length s - n)%nat n s.

(** [if filename[-7:] != '.pickle': filename += '.pickle'] *)
Definition with_pickle_ext (filename : string) : string :=
  if bool_decide (last_chars 7 filename = ".pickle") then filename
  else filename +:+ ".pickle".

(** [self.__dict__] as pickle sees it: every reference followed to the
    object it refers to. *)
Definition snapshot (h : gmap loc object) (self : t loc) : option (t object) :=
  te ← match train_env self with
       | None => Some None
       | Some l => Some <$> h !! l
       end;
  ev ← h !! eval_env self;
  ik ← h !! init_kwargs self;
  fk ← h !! fit_kwargs self;
  pk ← h !! policy_kwargs self;
  envs ← mapM (fun l => h !! l) (train_env_set self);
  Some {|
    agent_name := agent_name self; identifier := identifier self;
    fit_info := fit_info self; agent_class := agent_class self;
    train_env := te; eval_env := ev;
    eval_horizon := eval_horizon self; init_kwargs := ik;
    fit_kwargs := fk; policy_kwargs := pk;
    n_fit := n_fit self; n_jobs := n_jobs self;
    output_dir := output_dir self; verbose := verbose self;
    train_env_set := envs;
    fitted_agents := fitted_agents self;
    fit_statistics := fit_statistics self;
    rng := rng self; study := study self;
    default_filename := default_filename self |}.

Fixpoint alloc_all (os : list object) : M (list loc) :=
  match os with
  | [] => ret []
  | o :: rest =>
      let* l := alloc o in
      let* ls := alloc_all rest in
      ret (l :: ls)
  end.

(** The objects of an unpickled attribute dictionary, created anew. *)
Definition restore (d : t object) : M (t loc) :=
  let* te := match train_env d with
             | None => ret None
             | Some o => let* l := alloc o in ret (Some l)
             end in
  let* ev := alloc (eval_env d) in
  let* ik := alloc (init_kwargs d) in
  let* fk := alloc (fit_kwargs d) in
  let* pk := alloc (policy_kwargs d) in
  let* envs := alloc_all (train_env_set d) in
  ret {|
    agent_name := agent_name d; identifier := identifier d;
    fit_info := fit_info d; agent_class := agent_class d;
    train_env := te; eval_env := ev;
    eval_horizon := eval_horizon d; init_kwargs := ik;
    fit_kwargs := fk; policy_kwargs := pk;
    n_fit := n_fit d; n_jobs := n_jobs d;
    output_dir := output_dir d; verbose := verbose d;
    train_env_set := envs;
    fitted_agents := fitted_agents d;
    fit_statistics := fit_statistics d;
    rng := rng d; study := study d;
    default_filename := default_filename d |}.

Section Persistence.

(** [pickle.dump(d, ff)]: the bytes that reach the file, and whether the
    dump completed.  [pickle.load(ff)] on the bytes of a file. *)
Variable pickle_dump : t object -> result unit * Bytes.
Variable pickle_load : Bytes -> result (t object).

(** The attribute dictionary survives pickling. *)
Definition picklable (d : t object) : Prop :=
  exists b, pickle_dump d = (Ok tt, b) /\ pickle_load b = Ok d.

(** [if not os.path.exists(d): os.makedirs(d)] *)
Definition ensure_dir (d : string) : M unit :=
  fun w =>
    if fs_exists d (fs w) then (Ok tt, w)
    else match fs_makedirs d (fs w) with
         | Ok f => (Ok tt, set_fs f w)
         | Raise e => (Raise e, w)
         end.

(** [with open(filename, 'wb') as ff: pickle.dump(d, ff)] *)
Definition dump_to (filename : string) (d : t object) : M unit :=
  fun w =>
    let '(r, b) := pickle_dump d in
    match fs_write filename b (fs w) with
    | Ok f => (r, set_fs f w)
    | Raise e => (Raise e, w)
    end.

Definition save (self : t loc) (filename : option string) : M unit :=
  let* filename :=
    match filename with
    | Some f => ret f
    | None =>
        let* _ := ensure_dir (output_dir self) in
        ret (default_filename self)
    end in
  let filename := with_pickle_ext filename in
  let* d := (fun w => match snapshot (heap w) self with
                      | Some d => (Ok d, w)
                      | None => (Raise ReferenceError, w)
                      end) in
  dump_to filename d.

(** The class method [load]; [cls(None, None)] makes an object without
    attributes, which then receives the unpickled dictionary. *)
Definition load (filename : string) : M (t loc) :=
  let filename := with_pickle_ext filename in
  let* obj := __init__ None None None None None None None None 4 4
                "stats_data" 5 in
  let* b := (fun w => (fs_read filename (fs w), w)) in
  let* tmp_dict := lift (pickle_load b) in
  restore tmp_dict.

End Persistence.

(** **** AgentStats.optimize_hyperparams *)

(** The sampler selected by [sampler_method]; the random sampler takes its
    seed from [self.rng]. *)
Definition get_sampler (self : t loc) (sampler_method : string) : result (option sampler) * t loc :=
  if bool_decide (sampler_method = "random") then
    let '(optuna_seed, g) := rng_integers (rng self) (2 ^ 16) in
    (Ok (Some (RandomSampler optuna_seed)), set_rng g self)
  else if bool_decide (sampler_method = "optuna_default") then
    (Ok None, self)
  else
    (Raise (NotImplementedError
              ("Sampler method " +:+ sampler_method +:+ " is not implemented.")),
     self).

Definition get_pruner (pruner_method : string) : result (option pruner) :=
  if bool_decide (pruner_method = "halving") then
    Ok (Some (SuccessiveHalvingPruner 1 4 0))
  else if bool_decide (pruner_method = "none") then
    Ok None
  else
    Raise (NotImplementedError
             ("Pruner method " +:+ pruner_method +:+ " is not implemented.")).

(** The study to run: the previous one, or a new one that is stored in
    [self.study]. *)
Definition get_study (self : t loc) (sampler_method pruner_method : string) (continue_previous : bool) : result Study * t loc :=
  if continue_previous then
    match study self with
    | Some st => (Ok st, self)
    | None => (Raise AssertionError, self)
    end
  else
    match get_sampler self sampler_method with
    | (Raise e, self1) => (Raise e, self1)
    | (Ok sampler, self1) =>
        match get_pruner pruner_method with
        | Raise e => (Raise e, self1)
        | Ok pruner =>
            let st := create_study sampler pruner "maximize" in
            (Ok st, set_study (Some st) self1)
        end
    end.

(** [compare_policies([params_stats], eval_env=params_eval_env, ...)] *)
Definition call_compare_policies (params_stats : t loc) (params_eval_env : loc) (eval_horizon : option Z) (n_sim : Z) : M (gmap string Column) :=
  let* e := read_env params_eval_env in
  let* pk := read_dict (policy_kwargs params_stats) in
  fun w =>
    let '(r, e1, s1) :=
      compare_policies
        [(agent_name params_stats, fitted_agents params_stats, pk)]
        e eval_horizon true n_sim false (seeder w) in
    (r, set_seeder s1 (set_heap (<[params_eval_env := EnvObj e1]> (heap w)) w)).

(** The objective handed to optuna. *)
Definition objective (self : t loc) (n_sim n_fit n_jobs : Z) (trial : Trial) : M Reward :=
  let* kwargs := deepcopy (init_kwargs self) in
  let* sampled := lift (AgentClass.sample_parameters (agent_class self) trial) in
  let* _ := dict_update kwargs sampled in
  let* te := deepcopy_opt (train_env self) in
  let* fk := deepcopy (fit_kwargs self) in
  let* pk := deepcopy (policy_kwargs self) in
  let* created :=
    __init__ (Some (agent_class self)) te None None
      (Some kwargs) (Some fk) (Some pk) (Some "optim")
      n_fit n_jobs "stats_data" 0 in
  match created with
  | None => raise (AttributeError "fit")
  | Some params_stats =>
      let* params_stats := fit_then params_stats in
      let* params_eval_env := deepcopy (eval_env self) in
      let* _ := reseed (Some params_eval_env) in
      let* eval_result :=
        call_compare_policies params_stats params_eval_env
          (eval_horizon self) n_sim in
      match eval_result !! "optim" with
      | Some column => ret (column_mean column)
      | None => raise (KeyError "optim")
      end
  end.

(** [study.optimize(objective, n_trials, n_jobs, timeout)] with the trials
    run one after the other: a trial that raises is recorded as failed and
    the exception goes on to the caller; on KeyboardInterrupt nothing more
    is told to the study, which stays as [study_ask] left it. *)
Fixpoint study_optimize (f : Trial -> M Reward) (n_trials : nat) (timeout : option Z) (st : Study) (w : world) : result unit * Study * world :=
  match n_trials with
  | O => (Ok tt, st, w)
  | S n =>
      if negb (study_in_time timeout st) then (Ok tt, st, w)
      else
        let '(trial, st1) := study_ask st in
        match f trial w with
        | (Ok value, w1) =>
            study_optimize f n timeout (study_tell st1 trial (Ok value)) w1
        | (Raise KeyboardInterrupt, w1) => (Raise KeyboardInterrupt, st1, w1)
        | (Raise e, w1) => (Raise e, study_tell st1 trial (Raise e), w1)
        end
  end.

(** What follows [study.optimize]: the report, the update of
    [self.init_kwargs] in place, the return value.  [study.best_trial] may
    raise; [study.trials_dataframe()], called last, is taken to return. *)
Definition finish_study (self : t loc) (st : Study) : M (FrozenTrial * DataFrame) :=
  let* best := lift (best_trial st) in
  let* _ := (if 0 <? verbose self then emit (PrintStudySummary st best)
             else ret tt) in
  let* _ := dict_update (init_kwargs self) (params best) in
  ret (best, trials_dataframe st).

Definition optimize_hyperparams (self : t loc)
    (n_trials : Z) (timeout : option Z) (n_sim n_fit n_jobs : Z)
    (sampler_method pruner_method : string) (continue_previous : bool)
    (w : world) : result (option (FrozenTrial * DataFrame)) * t loc * world :=
  if negb (_OPTUNA_INSTALLED w) then
    (Ok None, self, add_trace (LogError "Optuna not installed.") w)
  else
    match eval_horizon self with
    | None => (Raise AssertionError, self, w)
    | Some _ =>
        match get_study self sampler_method pruner_method continue_previous with
        | (Raise e, self1) => (Raise e, self1, w)
        | (Ok st, self1) =>
            let '(r, st', w1) :=
              study_optimize (objective self1 n_sim n_fit n_jobs)
                (Z.to_nat n_trials) timeout st w in
            let self2 := set_study (Some st') self1 in
            let continue w2 :=
              match finish_study self2 st' w2 with
              | (Ok out, w3) => (Ok (Some out), self2, w3)
              | (Raise e, w3) => (Raise e, self2, w3)
              end in
            match r with
            | Ok _ => continue w1
            | Raise KeyboardInterrupt =>
                continue (add_trace (LogWarning "Evaluation stopped.") w1)
            | Raise e => (Raise e, self2, w1)
            end
        end
    end.

(** **** Notions used to state the properties *)

(** From [w] to [w'] the store only grew, and of the objects of [w] only
    those at the locations [W] may have changed. *)
Definition modifies (W : gset loc) (w w' : world) : Prop :=
  dom (heap w) ⊆ dom (heap w') /\
  forall l, l ∈ dom (heap w) -> l ∉ W -> heap w' !! l = heap w !! l.

(** The calls handed to joblib, oldest first. *)
Definition joblib_calls (tr : list event) : list (Z * Z * list worker_args) :=
  omap (fun ev => match ev with
                  | JoblibParallel n v ts => Some (n, v, ts)
                  | _ => None
                  end) tr.

(** [n] successive calls of [reseed()] on copies of one environment. *)
Fixpoint reseeds (n : nat) (e : Env) (s : SeedSeq) : list Env * SeedSeq :=
  match n with
  | O => ([], s)
  | S n' =>
      let '(e', s1) := env_reseed e s in
      let '(es, s2) := reseeds n' e s1 in
      (e' :: es, s2)
  end.

(** What one worker returns: an agent of the class built on an environment
    and fitted, given the contents of the objects it is handed. *)
Definition train (cls : AgentClass.t) (e : Env) (ik fk : gmap string Value) (s : SeedSeq) : result (Agent * gmap string Stat) :=
  let '(r, e1, _, s1) := AgentClass.new cls e ik s in
  match r with
  | Raise ex => Raise ex
  | Ok agent =>
      let '(r2, agent', _, _, _) := AgentClass.fit cls agent e1 fk s1 in
      match r2 with
      | Ok info => Ok (agent', info)
      | Raise ex => Raise ex
      end
  end.

(** A class whose workers always succeed: whatever the environment, the
    keyword arguments and the state of rlberry.seeding, its constructor and
    its [fit] return, and [fit] reports every entry of [fit_info]. *)
Definition always_trains (cls : AgentClass.t) : Prop :=
  forall e ik fk s, exists out,
    train cls e ik fk s = Ok out /\
    forall entry, entry ∈ AgentClass.fit_info cls -> is_Some (out.2 !! entry).

Definition task_env (a : worker_args) : loc := a.1.1.2.

Definition task_kwargs (a : worker_args) : list loc := [a.1.2; a.2].

Definition task_locs (a : worker_args) : list loc := [a.1.1.2; a.1.2; a.2].

(** Tasks that share no object: their environments are distinct objects of
    a set [D], their dictionaries are distinct objects outside of it. *)
Definition separated (D : gset loc) (tasks : list worker_args) : Prop :=
  NoDup (task_env <$> tasks) /\
  (forall a, a ∈ tasks -> task_env a ∈ D) /\
  NoDup (tasks ≫= task_kwargs) /\
  (forall l, l ∈ tasks ≫= task_kwargs -> l ∉ D).

(** The worker handed task [a] in a world with store [h] returned [out]:
    [out] is what [train] computes from the contents of the task's three
    objects. *)
Definition trained_on (h : gmap loc object) (a : worker_args) (out : Agent * gmap string Stat) : Prop :=
  exists e ikd fkd s,
    h !! a.1.1.2 = Some (EnvObj e) /\
    h !! a.1.2 = Some (DictObj ikd) /\
    h !! a.2 = Some (DictObj fkd) /\
    train a.1.1.1 e ikd fkd s = Ok out.

(** The worker handed the environment at [l] by [fit] returned [out]:
    [out] is what [train] computes from the environment and from the
    contents of [init_kwargs] and [fit_kwargs], as they are in [h]. *)
Definition fitted_on (self : t loc) (h : gmap loc object) (l : loc) (out : Agent * gmap string Stat) : Prop :=
  exists e ikd fkd s,
    h !! l = Some (EnvObj e) /\
    h !! init_kwargs self = Some (DictObj ikd) /\
    h !! fit_kwargs self = Some (DictObj fkd) /\
    train (agent_class self) e ikd fkd s = Ok out.

(** Two states of an object that differ at most in [fitted_agents],
    [fit_statistics], [rng] and [study]. *)
Definition same_config (s s' : t loc) : Prop :=
  agent_name s' = agent_name s /\ identifier s' = identifier s /\
  fit_info s' = fit_info s /\ agent_class s' = agent_class s /\
  train_env s' = train_env s /\ eval_env s' = eval_env s /\
  eval_horizon s' = eval_horizon s /\ init_kwargs s' = init_kwargs s /\
  fit_kwargs s' = fit_kwargs s /\ policy_kwargs s' = policy_kwargs s /\
  n_fit s' = n_fit s /\ n_jobs s' = n_jobs s /\
  output_dir s' = output_dir s /\ verbose s' = verbose s /\
  train_env_set s' = train_env_set s /\
  default_filename s' = default_filename s.

(** [fit()] called [k] times in a row, whatever each call returns. *)
Fixpoint fit_n (k : nat) (self : t loc) (w : world) : t loc * world :=
  match k with
  | O => (self, w)
  | S k' => let '(_, self1, w1) := fit self w in fit_n k' self1 w1
  end.

(** The attributes of a constructed object refer to live objects: what
    [__init__] establishes and the methods keep. *)
Definition attached (self : t loc) (w : world) : Prop :=
  length (train_env_set self) = Z.to_nat (n_fit self) /\
  NoDup (train_env_set self) /\
  (forall l, l ∈ train_env_set self -> l ∈ dom (heap w)) /\
  init_kwargs self ∈ dom (heap w) /\
  fit_kwargs self ∈ dom (heap w) /\
  (init_kwargs self ∉ train_env_set self) /\
  (fit_kwargs self ∉ train_env_set self) /\
  fit_info self = AgentClass.fit_info (agent_class self) /\
  (forall l, train_env self = Some l -> l ∈ dom (heap w)) /\
  eval_env self ∈ dom (heap w) /\
  policy_kwargs self ∈ dom (heap w).

(** A computation that neither reads nor writes the module global
    [_OPTUNA_INSTALLED]: it does the same whatever its value. *)
Definition flag_blind {A} (m : M A) : Prop :=
  forall b w,
    m (set_optuna_installed b w)
      = ((m w).1, set_optuna_installed b (m w).2).

(** One evaluation of the objective on [trial] in world [w] that returns
    [reward], told step by step: the parameters sampled for the trial
    override a copy of [init_kwargs]; a new AgentStats named ['optim'] is
    built over that copy and copies of [train_env], [fit_kwargs] and
    [policy_kwargs], all new objects that hold what the originals hold; it
    is fitted; its agents are evaluated by [compare_policies] on a reseeded
    copy of [eval_env]; and [reward] is the mean of the ['optim'] column. *)
Definition objective_run (self : t loc) (n_sim nf nj : Z) (trial : Trial) (w : world) (reward : Reward) : Prop :=
  exists sampled ikd l0 kw te' fk' pk' w1 ps w2 ps' w3
         e_ev pkd result column e' s',
    AgentClass.sample_parameters (agent_class self) trial = Ok sampled /\
    heap w !! init_kwargs self = Some (DictObj ikd) /\
    train_env self = Some l0 /\
    modifies ∅ w w1 /\
    (kw ∉ dom (heap w)) /\ (te' ∉ dom (heap w)) /\
    (fk' ∉ dom (heap w)) /\ (pk' ∉ dom (heap w)) /\
    heap w1 !! kw = Some (DictObj (sampled ∪ ikd)) /\
    heap w1 !! te' = heap w !! l0 /\
    heap w1 !! fk' = heap w !! fit_kwargs self /\
    heap w1 !! pk' = heap w !! policy_kwargs self /\
    __init__ (Some (agent_class self)) (Some te') None None
        (Some kw) (Some fk') (Some pk') (Some "optim")
        nf nj "stats_data" 0 w1 = (Ok (Some ps), w2) /\
    agent_name ps = "optim" /\ n_fit ps = nf /\
    n_jobs ps = nj /\ verbose ps = 0 /\
    init_kwargs ps = kw /\ fit_kwargs ps = fk' /\
    fit ps w2 = (Ok tt, ps', w3) /\
    heap w !! eval_env self = Some (EnvObj e_ev) /\
    heap w3 !! policy_kwargs ps' = Some (DictObj pkd) /\
    compare_policies
        [(agent_name ps', fitted_agents ps', pkd)]
        (env_reseed e_ev (seeder w3)).1 (eval_horizon self) true n_sim false
        (env_reseed e_ev (seeder w3)).2 = (Ok result, e', s') /\
    result !! "optim" = Some column /\
    reward = column_mean column.

(** [s] ends in [suffix]. *)
Definition ends_with (suffix s : string) : Prop :=
  exists p, s = p +:+ suffix.

(** What the constructor, called in world [w] on the environment at [l0]
    with a class and the other arguments, leaves behind: the object [self]
    and the world [w']. *)
Record built (cls : AgentClass.t) (l0 : loc) (ev : option loc)
    (eh : option Z) (ik fk pk : option loc) (name : option string)
    (nf nj : Z) (dir : string) (vb : Z)
    (w : world) (self : t loc) (w' : world) : Prop := mk_built {
  b_modifies : modifies ∅ w w';
  b_trace : trace w' = trace w;
  b_agent_name : agent_name self = default (AgentClass.name cls) name;
  b_agent_class : agent_class self = cls;
  b_fit_info : fit_info self = AgentClass.fit_info cls;
  b_train_env : train_env self = Some l0;
  b_eval_horizon : eval_horizon self = eh;
  b_n_fit : n_fit self = nf;
  b_n_jobs : n_jobs self = nj;
  b_verbose : verbose self = vb;
  b_output_dir : output_dir self = dir;
  b_fitted_agents : fitted_agents self = None;
  b_fit_statistics : fit_statistics self = ∅;
  b_study : study self = None;
  (* the evaluation environment is a new object: a reseeded copy *)
  b_eval_fresh : eval_env self ∉ dom (heap w);
  b_eval_copy :
    exists e_src,
      heap w !! default l0 ev = Some (EnvObj e_src) /\
      heap w' !! eval_env self
        = Some (EnvObj (env_reseed e_src (seeder w)).1);
  (* init_kwargs and fit_kwargs are the caller's objects when given *)
  b_init_kwargs_given : forall l, ik = Some l -> init_kwargs self = l;
  b_init_kwargs_new :
    ik = None ->
    (init_kwargs self ∉ dom (heap w)) /\
    heap w' !! init_kwargs self = Some (DictObj ∅);
  b_init_kwargs_live : init_kwargs self ∈ dom (heap w');
  b_fit_kwargs_given : forall l, fk = Some l -> fit_kwargs self = l;
  b_fit_kwargs_new :
    fk = None ->
    (fit_kwargs self ∉ dom (heap w)) /\
    heap w' !! fit_kwargs self = Some (DictObj ∅);
  b_fit_kwargs_live : fit_kwargs self ∈ dom (heap w');
  (* policy_kwargs is a new object: a copy, or an empty dictionary *)
  b_policy_fresh : policy_kwargs self ∉ dom (heap w);
  b_policy_copy :
    heap w' !! policy_kwargs self
      = match pk with
        | Some l => heap w !! l
        | None => Some (DictObj ∅)
        end;
  b_policy_live : policy_kwargs self ∈ dom (heap w');
  (* the training environments are new objects: reseeded copies *)
  b_envs_length : length (train_env_set self) = Z.to_nat nf;
  b_envs_nodup : NoDup (train_env_set self);
  b_envs_fresh :
    forall l, l ∈ train_env_set self ->
      (l ∉ dom (heap w)) /\ l ∈ dom (heap w');
  b_envs_not_kwargs :
    (init_kwargs self ∉ train_env_set self) /\
    (fit_kwargs self ∉ train_env_set self);
  b_envs_copies :
    exists e0 s0,
      heap w !! l0 = Some (EnvObj e0) /\
      (fun l => heap w' !! l) <$> train_env_set self
        = (fun e' => Some (EnvObj e')) <$> (reseeds (Z.to_nat nf) e0 s0).1
}.

End Defs.
Arguments t {_} ref.
End AgentStats.

(** ** rlberry/agents/torch/reinforce/reinforce.py *)

Module Reinforce.

(** The exceptions the agent can raise: those of [Py], and the one [%]
    raises on a zero divisor. *)
Inductive pyerr :=
| Exn (e : exn)
| ZeroDivisionError.

Inductive outcome (A : Type) :=
| Returns (a : A)
| Raises (e : pyerr).
Arguments Returns {A} a.
Arguments Raises {A} e.

(** The four lists of a [Memory] that the agent appends to. *)
Record Memory {Obs Action R : Type} := mk_memory {
  states : list Obs;
  actions : list Action;
  rewards : list R;
  is_terminals : list bool
}.
Arguments Memory : clear implicits.
Arguments mk_memory {Obs Action R} states actions rewards is_terminals.

(** What the agent is built on: the environment, torch, the arithmetic of
    rewards, the writer, and the class [Memory] of
    rlberry.agents.utils.memories. *)
Class Deps := {
  Env : Type;
  Obs : Type;
  Action : Type;
  Net : Type;                 (* a policy network, on its device *)
  Optimizer : Type;
  Torch : Type;               (* the state of torch's generator *)
  Writer : Type;
  R : Type;                   (* rewards *)
  (* env.reset() and env.step(action); an info may be None *)
  env_reset : Env -> (Obs * option (gmap string R)) * Env;
  env_step :
    Env -> Action -> (Obs * R * bool * bool * option (gmap string R)) * Env;
  (* self.policy_net(state) followed by action_dist.sample().item(), which
     draws from torch's generator *)
  sample_action : Net -> Obs -> Torch -> Action * Torch;
  (* the arithmetic of rewards, with its two zeros: the integer 0 and the
     float 0.0 *)
  add : R -> R -> R;
  mul : R -> R -> R;
  sub : R -> R -> R;
  div : R -> R -> R;
  int0 : R;
  float0 : R;
  (* x.mean(), x.std() and the constant 1e-5 *)
  tensor_mean : list R -> R;
  tensor_std : list R -> R;
  eps : R;
  (* the end of _update: log-probabilities and entropy of the actions under
     the policy, the loss, and one step of the optimizer *)
  gradient_step :
    Net -> Optimizer -> list Obs -> list Action -> list R -> R ->
    Net * Optimizer;
  (* policy_net_fn(env, **policy_net_kwargs).to(device) and
     optimizer_factory(policy_net.parameters(), **optimizer_kwargs) *)
  policy_net_fn : Env -> Net;
  optimizer_factory : Net -> Optimizer;
  (* writer.add_scalar(tag, value, step) *)
  add_scalar : Writer -> string -> R -> Z -> Writer;
  (* Memory() and memory.clear_memory() *)
  new_memory : Memory Obs Action R;
  clear_memory : Memory Obs Action R -> Memory Obs Action R
}.

Section Defs.
Context `{Deps}.

Record t := mk {
  env : Env;
  batch_size : Z;
  horizon : Z;
  gamma : R;
  entr_coef : R;
  normalize : bool;
  use_bonus_if_available : bool;
  policy_net : option Net;
  policy_optimizer : Optimizer;
  memory : Memory Obs Action R;
  episode : Z;
  writer : option Writer;
  torch : Torch               (* the state of torch's generator *)
}.

Definition set_env (x : Env) (a : t) : t :=
  {| env := x; batch_size := batch_size a; horizon := horizon a;
     gamma := gamma a; entr_coef := entr_coef a; normalize := normalize a;
     use_bonus_if_available := use_bonus_if_available a;
     policy_net := policy_net a; policy_optimizer := policy_optimizer a;
     memory := memory a; episode := episode a; writer := writer a;
     torch := torch a |}.

Definition set_torch (x : Torch) (a : t) : t :=
  {| env := env a; batch_size := batch_size a; horizon := horizon a;
     gamma := gamma a; entr_coef := entr_coef a; normalize := normalize a;
     use_bonus_if_available := use_bonus_if_available a;
     policy_net := policy_net a; policy_optimizer := policy_optimizer a;
     memory := memory a; episode := episode a; writer := writer a;
     torch := x |}.

Definition set_memory (x : Memory Obs Action R) (a : t) : t :=
  {| env := env a; batch_size := batch_size a; horizon := horizon a;
     gamma := gamma a; entr_coef := entr_coef a; normalize := normalize a;
     use_bonus_if_available := use_bonus_if_available a;
     policy_net := policy_net a; policy_optimizer := policy_optimizer a;
     memory := x; episode := episode a; writer := writer a;
     torch := torch a |}.

Definition set_episode (x : Z) (a : t) : t :=
  {| env := env a; batch_size := batch_size a; horizon := horizon a;
     gamma := gamma a; entr_coef := entr_coef a; normalize := normalize a;
     use_bonus_if_available := use_bonus_if_available a;
     policy_net := policy_net a; policy_optimizer := policy_optimizer a;
     memory := memory a; episode := x; writer := writer a;
     torch := torch a |}.

Definition set_writer (x : option Writer) (a : t) : t :=
  {| env := env a; batch_size := batch_size a; horizon := horizon a;
     gamma := gamma a; entr_coef := entr_coef a; normalize := normalize a;
     use_bonus_if_available := use_bonus_if_available a;
     policy_net := policy_net a; policy_optimizer := policy_optimizer a;
     memory := memory a; episode := episode a; writer := x;
     torch := torch a |}.

Definition set_policy (net : option Net) (opt : Optimizer) (a : t) : t :=
  {| env := env a; batch_size := batch_size a; horizon := horizon a;
     gamma := gamma a; entr_coef := entr_coef a; normalize := normalize a;
     use_bonus_if_available := use_bonus_if_available a;
     policy_net := net; policy_optimizer := opt;
     memory := memory a; episode := episode a; writer := writer a;
     torch := torch a |}.

(** [REINFORCEAgent.reset] *)
Definition reset (a : t) : t :=
  let net := policy_net_fn (env a) in
  set_episode 0
    (set_memory new_memory (set_policy (Some net) (optimizer_factory net) a)).

(** [REINFORCEAgent.policy] *)
Definition policy (a : t) (observation : Obs) : outcome Action * t :=
  match policy_net a with
  | None => (Raises (Exn AssertionError), a)
  | Some net =>
      let '(action, g) := sample_action net observation (torch a) in
      (Returns action, set_torch g a)
  end.

(** The four appends of one transition. *)
Definition remember (observation : Obs) (action : Action) (reward : R) (done : bool) (m : Memory Obs Action R) : Memory Obs Action R :=
  {| states := states m ++ [observation];
     actions := actions m ++ [action];
     rewards := rewards m ++ [reward];
     is_terminals := is_terminals m ++ [done] |}.

(** The bonus of a step: [info["exploration_bonus"]] when bonuses are used
    and the entry is there, [0.0] otherwise. *)
Definition bonus_of (use_bonus : bool) (info : option (gmap string R)) : R :=
  if use_bonus then
    match info with
    | Some d => default float0 (d !! "exploration_bonus")
    | None => float0
    end
  else float0.

(** The loop of [_run_episode] with [n] iterations left. *)
Fixpoint interact (n : nat) (observation : Obs) (episode_rewards : R) (a : t) : outcome R * t :=
  match n with
  | O => (Returns episode_rewards, a)
  | S n' =>
      match policy a observation with
      | (Raises e, a1) => (Raises e, a1)
      | (Returns action, a1) =>
          let '((next_observation, reward, terminated, truncated, info), e') :=
            env_step (env a1) action in
          let done := terminated || truncated in
          let bonus := bonus_of (use_bonus_if_available a1) info in
          let a2 :=
            set_memory
              (remember observation action (add reward bonus) done (memory a1))
              (set_env e' a1) in
          let episode_rewards := add episode_rewards reward in
          if done then (Returns episode_rewards, a2)
          else interact n' next_observation episode_rewards a2
      end
  end.

(** The loop of [_update] that turns the rewards in memory into discounted
    returns, walking both lists from their ends. *)
Definition discount_step (gamma : R) (acc : R * list R) (x : R * bool) : R * list R :=
  let '(discounted_reward, rewards) := acc in
  let '(reward, is_terminal) := x in
  let discounted_reward := if is_terminal then int0 else discounted_reward in
  let discounted_reward := add reward (mul gamma discounted_reward) in
  (discounted_reward, discounted_reward :: rewards).

Definition discounted_rewards (gamma : R) (mem_rewards : list R) (mem_is_terminals : list bool) : list R :=
  (foldl (discount_step gamma) (int0, [])
     (zip (reverse mem_rewards) (reverse mem_is_terminals))).2.

(** [REINFORCEAgent._normalize] *)
Definition _normalize (x : list R) : list R :=
  (fun v => div (sub v (tensor_mean x)) (add (tensor_std x) eps)) <$> x.

(** [REINFORCEAgent._update] *)
Definition _update (a : t) : outcome unit * t :=
  let rewards :=
    discounted_rewards (gamma a) (rewards (memory a))
      (is_terminals (memory a)) in
  let rewards := if normalize a then _normalize rewards else rewards in
  match policy_net a with
  | None => (Raises (Exn TypeError), a)
  | Some net =>
      let '(net', opt') :=
        gradient_step net (policy_optimizer a) (states (memory a))
          (actions (memory a)) rewards (entr_coef a) in
      (Returns tt, set_policy (Some net') opt' a)
  end.

(** [REINFORCEAgent._run_episode] *)
Definition _run_episode (a : t) : outcome R * t :=
  let '((observation, _), e0) := env_reset (env a) in
  match interact (Z.to_nat (horizon a)) observation int0 (set_env e0 a) with
  | (Raises e, a1) => (Raises e, a1)
  | (Returns episode_rewards, a1) =>
      let a2 := set_episode (episode a1 + 1) a1 in
      let a3 :=
        match writer a2 with
        | Some wr =>
            set_writer
              (Some (add_scalar wr "episode_rewards" episode_rewards
                       (episode a2))) a2
        | None => a2
        end in
      if batch_size a3 =? 0 then (Raises ZeroDivisionError, a3)
      else if episode a3 mod batch_size a3 =? 0 then
        match _update a3 with
        | (Raises e, a4) => (Raises e, a4)
        | (Returns _, a4) =>
            (Returns episode_rewards,
             set_memory (clear_memory (memory a4)) a4)
        end
      else (Returns episode_rewards, a3)
  end.

(** The loop of [fit] with [n] episodes left to run. *)
Fixpoint run_episodes (n : nat) (a : t) : outcome unit * t :=
  match n with
  | O => (Returns tt, a)
  | S n' =>
      match _run_episode a with
      | (Raises e, a1) => (Raises e, a1)
      | (Returns _, a1) => run_episodes n' a1
      end
  end.

(** [REINFORCEAgent.fit(budget)]; the other keyword arguments are
    deleted. *)
Definition fit (budget : Z) (a : t) : outcome unit * t :=
  run_episodes (Z.to_nat budget) a.

(** The appends of several transitions [(observation, action, reward,
    done)], oldest first. *)
Definition remember_all (trs : list (Obs * Action * R * bool)) (m : Memory Obs Action R) : Memory Obs Action R :=
  foldl (fun m x => remember x.1.1.1 x.1.1.2 x.1.2 x.2 m) m trs.

(** Whether a step ends the episode: [terminated or truncated]. *)
Definition step_done (e : Env) (action : Action) : bool :=
  let '((_, _, terminated, truncated, _), _) := env_step e action in
  terminated || truncated.

(** The four lists of a memory have one entry per transition. *)
Definition aligned {Obs Action R : Type} (m : Memory Obs Action R) : Prop :=
  length (actions m) = length (states m) /\
  length (rewards m) = length (states m) /\
  length (is_terminals m) = length (states m).

End Defs.
End Reinforce.

(** ** examples/demo_from_stable_baselines.py *)

Module StableBaselinesDemo.
Section Defs.
Context `{Libs}.

(** [self.wrapped.learn] with the keyword arguments unpacked: stable-baselines
    trains the model on the environment it was built on. *)
Variable learn :
  Agent -> Env -> gmap string Value -> SeedSeq ->
  result unit * Agent * Env * gmap string Value * SeedSeq.

(** [A2CAgent.fit]: the result of [learn] is dropped and the empty
    dictionary returned. *)
Definition A2CAgent_fit (agent : Agent) (e : Env) (fk : gmap string Value) (s : SeedSeq) : result (gmap string Stat) * Agent * Env * gmap string Value * SeedSeq :=
  let '(result, agent', e', fk', s') := learn agent e fk s in
  (match result with
   | Ok _ => Ok ∅
   | Raise ex => Raise ex
   end, agent', e', fk', s').

(** The class [A2CAgent] as AgentStats sees it; what it inherits from
    [rlberry.agents.Agent] and its constructor are left open. *)
Definition A2CAgent (fit_info : list string)
    (new : Env -> gmap string Value -> SeedSeq ->
           result Agent * Env * gmap string Value * SeedSeq)
    (sample_parameters : Trial -> result (gmap string Value)) : AgentClass.t :=
  {| AgentClass.name := "A2C";
     AgentClass.fit_info := fit_info;
     AgentClass.new := new;
     AgentClass.fit := A2CAgent_fit;
     AgentClass.sample_parameters := sample_parameters |}.

End Defs.
End StableBaselinesDemo.

(** ** rlberry/envs/tests/test_bandits.py *)

Module TestBandits.
Import BanditBase.
Section Defs.
Context {R : Type}.

(** [np.concatenate((x * np.ones((n, 1)), y * np.ones((n, 1))), axis=1)]:
    [n] rows [[x, y]]. *)
Definition two_columns (n : nat) (x y : R) : list (list R) :=
  replicate n [x; y].

(** The array [rewards] of [test_adversarial], whose blocks have 500 rows
    each: [n] rows [[2, 1]] followed by [n] rows [[1, 2]]. *)
Definition adversarial_rewards (n : nat) (one two : R) : AdversarialBandit.ndarray R :=
  AdversarialBandit.mk_array ((n + n)%nat, 2%nat)
    (two_columns n two one ++ two_columns n one two).

(** [[env.step(action)[1] for f in range(k)]]: the rewards of [k] steps, or
    the exception of the first step that raises. *)
Fixpoint sample (k : nat) (action : Z) (e : AdversarialBandit.t R) : result (list R) * AdversarialBandit.t R :=
  match k with
  | O => (Ok [], e)
  | S k' =>
      match AdversarialBandit.step e action with
      | (Raise ex, e1) => (Raise ex, e1)
      | (Ok (_, reward, _, _, _), e1) =>
          match sample k' action e1 with
          | (Ok rs, e2) => (Ok (reward :: rs), e2)
          | (Raise ex, e2) => (Raise ex, e2)
          end
      end
  end.

End Defs.
End TestBandits.

(** ** Concrete instances, used to run the definitions *)

Module Demo.

(** A toy law: arm [law] pays [law] plus a bit of the generator, which is
    a linear congruential one. *)
Fixpoint toy_rvs (law : Z) (n : nat) (g : Z) : list Z * Z :=
  match n with
  | O => ([], g)
  | S n' =>
      let g1 := (5 * g + 3) mod 16 in
      let '(xs, g2) := toy_rvs law n' g1 in
      ((law + g1 mod 2) :: xs, g2)
  end.

(** The generator a fresh [Seeder(seed)] hands out. *)
Definition toy_seeder_rng (seed : Z) : Z := seed mod 16.

Definition toy_bandit : BanditBase.Bandit.t Z Z Z :=
  BanditBase.Bandit.init toy_rvs [10; 20] 1.

(** A 2-by-2 array of rewards and a 1-by-1 one. *)
Definition toy_rewards : BanditBase.AdversarialBandit.ndarray Z :=
  BanditBase.AdversarialBandit.mk_array (2%nat, 2%nat) [[1; 2]; [3; 4]].

Definition one_reward : BanditBase.AdversarialBandit.ndarray Z :=
  BanditBase.AdversarialBandit.mk_array (1%nat, 1%nat) [[7]].

(** Toy libraries for AgentStats.  Environments, dictionary values,
    generators, agents, statistics and rewards are integers; a study is the
    list of its trials with their values; a file system maps paths to
    contents. *)
Definition toy_best (st : list (Z * option Z)) : result (Z * Z) :=
  foldl (fun best tv =>
           match tv.2, best with
           | Some v, Ok (_, bv) => if bv <? v then Ok (tv.1, v) else best
           | Some v, Raise _ => Ok (tv.1, v)
           | None, _ => best
           end)
        (Raise (ValueError "No trials are completed yet.")) st.

Definition toy_sum (l : list Z) : Z := foldr Z.add 0 l.

#[export] Instance toy_libs : Libs := {|
  Env := Z;
  Value := Z;
  Rng := Z;
  SeedSeq := Z;
  Agent := Z;
  Stat := Z;
  Reward := Z;
  Study := list (Z * option Z);
  Trial := Z;
  FrozenTrial := Z * Z;
  DataFrame := list (Z * option Z);
  Column := list Z;
  Bytes := nat;
  FileSystem := gmap string nat;
  get_rng := fun s => ((7 * s + 1) mod 101, s + 1);
  env_reseed := fun e s => (1000 * (e mod 1000) + s, s + 1);
  rng_integers := fun g high => ((g * 31 + 7) mod high, (g * 31 + 7) mod 101);
  joblib_backend := fun n =>
    if n =? 0 then Raise (ValueError "n_jobs == 0 in Parallel has no meaning")
    else if n =? 1 then Ok InProcess else Ok Subprocesses;
  create_study := fun _ _ _ => [];
  study_ask := fun st => (Z.of_nat (length st), st);
  study_tell := fun st trial r =>
    st ++ [(trial, match r with Ok v => Some v | Raise _ => None end)];
  study_in_time := fun _ _ => true;
  best_trial := toy_best;
  params := fun ft => {[ "lr" := 10 * (ft.1 + 1) ]};
  trials_dataframe := fun st => st;
  compare_policies := fun stats e _ _ n_sim _ s =>
    (Ok (list_to_map
           ((fun x : string * option (list Z) * gmap string Z =>
               (x.1.1, default [] x.1.2)) <$> stats)),
     e + n_sim, s);
  column_mean := fun col => toy_sum col `div` Z.of_nat (length col);
  fs_write := fun path b f => Ok (<[path := b]> f);
  fs_read := fun path f =>
    match f !! path with
    | Some b => Ok b
    | None => Raise (FileNotFoundError path)
    end;
  fs_exists := fun path f => bool_decide (is_Some (f !! path));
  fs_makedirs := fun path f => Ok f
|}.

(** A toy agent class: an agent is a number made of the seed of its
    environment and of the [lr] it is given; fitting reports it. *)
Definition toy_agent : AgentClass.t := {|
  AgentClass.name := "toy";
  AgentClass.fit_info := ["episode_rewards"];
  AgentClass.new := fun e ik s =>
    (Ok (e mod 7 + default 0 (ik !! "lr")), e + 1, ik, s + 1);
  AgentClass.fit := fun agent e fk s =>
    (Ok {[ "episode_rewards" := agent + default 0 (fk !! "budget") ]},
     agent, e + 1, fk, s);
  AgentClass.sample_parameters := fun trial =>
    Ok {[ "lr" := 10 * (trial + 1) ]}
|}.

(** The caller's world: an environment at location 1, [init_kwargs] at 2,
    [fit_kwargs] at 3 and [policy_kwargs] at 4. *)
Definition toy_world : AgentStats.world := {|
  AgentStats.heap :=
    {[ 1%positive := AgentStats.EnvObj 5;
       2%positive := AgentStats.DictObj {[ "lr" := 1 ]};
       3%positive := AgentStats.DictObj {[ "budget" := 100 ]};
       4%positive := AgentStats.DictObj ∅ ]};
  AgentStats.seeder := 42;
  AgentStats.now := 1600000000;
  AgentStats.trace := [];
  AgentStats._OPTUNA_INSTALLED := true;
  AgentStats.fs := ∅
|}.

(** [AgentStats(toy_agent, env, eval_horizon=10, init_kwargs=...,
    fit_kwargs=..., policy_kwargs=..., n_fit=3, n_jobs=n_jobs)] in the
    caller's world. *)
Definition toy_construct (n_jobs : Z) :=
  AgentStats.__init__ (Some toy_agent) (Some 1%positive) None (Some 10)
    (Some 2%positive) (Some 3%positive) (Some 4%positive) None
    3 n_jobs "stats_data" 0 toy_world.

(** The object built by [toy_construct] and the world it leaves. *)
Definition toy_blank : AgentStats.t loc := {|
  AgentStats.agent_name := ""; AgentStats.identifier := "";
  AgentStats.fit_info := []; AgentStats.agent_class := toy_agent;
  AgentStats.train_env := None; AgentStats.eval_env := 1%positive;
  AgentStats.eval_horizon := None; AgentStats.init_kwargs := 1%positive;
  AgentStats.fit_kwargs := 1%positive; AgentStats.policy_kwargs := 1%positive;
  AgentStats.n_fit := 0; AgentStats.n_jobs := 0;
  AgentStats.output_dir := ""; AgentStats.verbose := 0;
  AgentStats.train_env_set := []; AgentStats.fitted_agents := None;
  AgentStats.fit_statistics := ∅; AgentStats.rng := 0;
  AgentStats.study := None; AgentStats.default_filename := ""
|}.

Definition toy_stats (n_jobs : Z) : AgentStats.t loc :=
  match (toy_construct n_jobs).1 with
  | Ok (Some self) => self
  | _ => toy_blank
  end.

Definition toy_world1 (n_jobs : Z) : AgentStats.world :=
  (toy_construct n_jobs).2.

(** [d[key]] for the dictionary at [l], if there is one. *)
Definition entry_at (w : AgentStats.world) (l : loc) (key : string) : option Z :=
  match AgentStats.heap w !! l with
  | Some (AgentStats.DictObj d) => d !! key
  | _ => None
  end.

(** [stats.optimize_hyperparams(n_trials=3, timeout=None, n_sim=5, n_fit=2,
    n_jobs=1)] on the object built by [toy_construct]. *)
Definition toy_optimize (n_jobs : Z) :=
  AgentStats.optimize_hyperparams (toy_stats n_jobs) 3 None 5 2 1
    "random" "none" false (toy_world1 n_jobs).

(** A toy pickle: every dump is the byte string 0, and loading gives back
    the one dictionary [d] it was made for. *)
Definition toy_dump (d : AgentStats.t AgentStats.object) : result unit * nat :=
  (Ok tt, 0%nat).

Definition toy_load (d : AgentStats.t AgentStats.object) (data : nat) : result (AgentStats.t AgentStats.object) :=
  Ok d.

Definition no_load (data : nat) : result (AgentStats.t AgentStats.object) :=
  Raise UnpicklingError.

(** A class that declares two statistics and reports one, and the toy
    class with the [fit] of the demo's A2CAgent, whose [learn] counts one
    more step. *)
Definition toy_forgetful : AgentClass.t := {|
  AgentClass.name := "forgetful";
  AgentClass.fit_info := ["episode_rewards"; "n_steps"];
  AgentClass.new := AgentClass.new toy_agent;
  AgentClass.fit := AgentClass.fit toy_agent;
  AgentClass.sample_parameters := AgentClass.sample_parameters toy_agent
|}.

Definition toy_learn (agent e : Z) (fk : gmap string Z) (s : Z) : result unit * Z * Z * gmap string Z * Z :=
  (Ok tt, agent + 1, e + 1, fk, s).

Definition toy_a2c : AgentClass.t :=
  StableBaselinesDemo.A2CAgent toy_learn ["episode_rewards"]
    (AgentClass.new toy_agent) (AgentClass.sample_parameters toy_agent).

(** [AgentStats(cls, env, eval_horizon=..., init_kwargs=..., fit_kwargs=...,
    policy_kwargs=..., n_fit=..., n_jobs=..., verbose=...)] in a world, the
    object it builds and the world it leaves. *)
Definition toy_construct_of (cls : AgentClass.t) (eval_horizon : option Z) (n_fit n_jobs verbose : Z) (w : AgentStats.world) :=
  AgentStats.__init__ (Some cls) (Some 1%positive) None eval_horizon
    (Some 2%positive) (Some 3%positive) (Some 4%positive) None
    n_fit n_jobs "stats_data" verbose w.

Definition toy_stats_of (cls : AgentClass.t) (eval_horizon : option Z) (n_fit n_jobs verbose : Z) : AgentStats.t loc :=
  match (toy_construct_of cls eval_horizon n_fit n_jobs verbose toy_world).1 with
  | Ok (Some self) => self
  | _ => toy_blank
  end.

Definition toy_world_of (cls : AgentClass.t) (eval_horizon : option Z) (n_fit n_jobs verbose : Z) : AgentStats.world :=
  (toy_construct_of cls eval_horizon n_fit n_jobs verbose toy_world).2.

(** The caller's world one second later. *)
Definition toy_world_later : AgentStats.world := {|
  AgentStats.heap := AgentStats.heap toy_world;
  AgentStats.seeder := AgentStats.seeder toy_world;
  AgentStats.now := AgentStats.now toy_world + 1;
  AgentStats.trace := AgentStats.trace toy_world;
  AgentStats._OPTUNA_INSTALLED := AgentStats._OPTUNA_INSTALLED toy_world;
  AgentStats.fs := AgentStats.fs toy_world
|}.

(** A pickle that gives up after three bytes. *)
Definition toy_dump_fails (d : AgentStats.t AgentStats.object) : result unit * nat :=
  (Raise TypeError, 3%nat).

(** Toy dependencies for the REINFORCE agent.  Everything is an integer;
    an environment is the number of steps taken since its reset; it ends
    the episode at its second step, or never; every step carries an
    exploration bonus of 5. *)
Definition toy_deps (never_done : bool) : Reinforce.Deps := {|
  Reinforce.Env := Z;
  Reinforce.Obs := Z;
  Reinforce.Action := Z;
  Reinforce.Net := Z;
  Reinforce.Optimizer := Z;
  Reinforce.Torch := Z;
  Reinforce.Writer := list (string * Z * Z);
  Reinforce.R := Z;
  Reinforce.env_reset := fun e => ((0, None), 0);
  Reinforce.env_step := fun e a =>
    ((e + 1, a + 1, negb never_done && (e =? 1), false,
      Some {[ "exploration_bonus" := 5 ]}),
     e + 1);
  Reinforce.sample_action := fun net obs g => ((net + obs + g) mod 2, g + 1);
  Reinforce.add := Z.add;
  Reinforce.mul := Z.mul;
  Reinforce.sub := Z.sub;
  Reinforce.div := Z.div;
  Reinforce.int0 := 0;
  Reinforce.float0 := 0;
  Reinforce.tensor_mean := fun x => 0;
  Reinforce.tensor_std := fun x => 1;
  Reinforce.eps := 0;
  Reinforce.gradient_step := fun net opt _ _ _ _ => (net + 1, opt + 1);
  Reinforce.policy_net_fn := fun e => 0;
  Reinforce.optimizer_factory := fun net => 0;
  Reinforce.add_scalar := fun wr tag v step => wr ++ [(tag, v, step)];
  Reinforce.new_memory := Reinforce.mk_memory [] [] [] [];
  Reinforce.clear_memory := fun _ => Reinforce.mk_memory [] [] [] []
|}.

(** A REINFORCE agent on the toy dependencies, with a discount of 2 and a
    horizon of 3. *)
Definition toy_reinforce (never_done : bool) (batch_size : Z) : @Reinforce.t (toy_deps never_done) :=
  @Reinforce.mk (toy_deps never_done)
    0                                  (* env *)
    batch_size
    3                                  (* horizon *)
    2                                  (* gamma *)
    0                                  (* entr_coef *)
    false                              (* normalize *)
    true                               (* use_bonus_if_available *)
    (Some 0)                           (* policy_net *)
    0                                  (* policy_optimizer *)
    (Reinforce.mk_memory [] [] [] [])  (* memory *)
    0                                  (* episode *)
    (Some [])                          (* writer *)
    0.                                 (* torch *)

End Demo.

(** * Properties *)

(** ** Python sequences *)

Module PyFacts.

Lemma getitem_nonneg {A} (l : list A) (i : Z) :
  0 <= i < Z.of_nat (length l) ->
  exists x, l !! Z.to_nat i = Some x /\ getitem l i = Ok x.
Proof.
  intros [Hlo Hhi]. unfold getitem.
  destruct (Z.ltb_spec i 0) as [?|_]; [lia|].
  destruct (Z.leb_spec 0 i) as [_|?]; [|lia].
  destruct (Z.ltb_spec i (Z.of_nat (length l))) as [_|?]; [|lia].
  simpl. destruct (l !! Z.to_nat i) as [x|] eqn:E; [eauto|].
  apply lookup_ge_None in E. lia.
Qed.

End PyFacts.

(** ** The bandit environments *)

Module BanditFacts.
Import BanditBase.

(** *** Bandit *)
Section BanditSection.
Context {R Rng Law : Type}.
Variable rvs : Law -> nat -> Rng -> list R * Rng.

(** scipy's [rvs(size=n)] returns [n] samples. *)
Hypothesis rvs_length : forall law n g, length (rvs law n g).1 = n.

Abbreviation step := (Bandit.step rvs).
Abbreviation run := (Bandit.run rvs).
Abbreviation init := (Bandit.init rvs).
Abbreviation arms_ok := (@Bandit.arms_ok R Rng Law).
Abbreviation same_sampling := (@Bandit.same_sampling R Rng Law).

Lemma init_arms_ok ls g : arms_ok (init ls g).
Proof.
  unfold Bandit.arms_ok, Bandit.init. destruct (Bandit.presample rvs ls g). done.
Qed.

Lemma step_arms b a :
  Bandit.laws (step b a).2 = Bandit.laws b /\
  Bandit.n_arms (step b a).2 = Bandit.n_arms b.
Proof.
  unfold Bandit.step.
  destruct (negb _); [done|].
  destruct (getitem (Bandit.laws b) a) as [law|]; [|done].
  destruct (rvs law 1 (Bandit.rng b)) as [xs g'].
  destruct (getitem xs 0); done.
Qed.

Lemma exec_arms c b :
  Bandit.laws (Bandit.exec rvs c b).2 = Bandit.laws b /\
  Bandit.n_arms (Bandit.exec rvs c b).2 = Bandit.n_arms b.
Proof.
  destruct c as [a|]; simpl; [|done].
  pose proof (step_arms b a) as Hs. destruct (step b a). exact Hs.
Qed.

Lemma run_arms cmds b :
  Bandit.laws (run cmds b).2 = Bandit.laws b /\
  Bandit.n_arms (run cmds b).2 = Bandit.n_arms b.
Proof.
  revert b. induction cmds as [|c cs IH]; intros b; simpl; [done|].
  pose proof (exec_arms c b) as [Hl Hn].
  destruct (Bandit.exec rvs c b) as [o b1]. simpl in *.
  specialize (IH b1). destruct (run cs b1) as [os b2]. simpl in *.
  destruct IH as [IHl IHn]. split; congruence.
Qed.

Lemma run_arms_ok cmds b : arms_ok b -> arms_ok (run cmds b).2.
Proof.
  unfold Bandit.arms_ok. intros Hb. destruct (run_arms cmds b) as [-> ->]. done.
Qed.

(** A step on an existing arm draws one sample of its law and ends the
    episode. *)
Lemma step_in_range b a :
  arms_ok b -> 0 <= a < Bandit.n_arms b ->
  exists law r,
    Bandit.laws b !! Z.to_nat a = Some law /\
    (rvs law 1 (Bandit.rng b)).1 !! 0%nat = Some r /\
    step b a =
      (Ok (0, r, true, false, ∅),
       Bandit.set_rng b (rvs law 1 (Bandit.rng b)).2).
Proof.
  intros Hok [Hlo Hhi]. unfold Bandit.step.
  destruct (Z.ltb_spec a (Bandit.n_arms b)) as [_|?]; [|lia]. simpl.
  destruct (PyFacts.getitem_nonneg (Bandit.laws b) a) as (law & Hlaw & ->).
  { rewrite <- Hok. lia. }
  pose proof (rvs_length law 1 (Bandit.rng b)) as Hlen.
  destruct (rvs law 1 (Bandit.rng b)) as [xs g'] eqn:Hr. simpl in *.
  destruct (PyFacts.getitem_nonneg xs 0) as (r & Hx & ->); [lia|].
  exists law, r. rewrite Hr. simpl. done.
Qed.

Lemma step_same_sampling b1 b2 a :
  same_sampling b1 b2 ->
  (step b1 a).1 = (step b2 a).1 /\ same_sampling (step b1 a).2 (step b2 a).2.
Proof.
  intros (Hl & Hn & Hg). unfold Bandit.step. rewrite Hl, Hn, Hg.
  destruct (negb _); [done|].
  destruct (getitem (Bandit.laws b2) a) as [law|]; [|done].
  destruct (rvs law 1 (Bandit.rng b2)) as [xs g'].
  destruct (getitem xs 0); done.
Qed.

Lemma run_same_sampling cmds b1 b2 :
  same_sampling b1 b2 -> (run cmds b1).1 = (run cmds b2).1.
Proof.
  revert b1 b2. induction cmds as [|c cs IH]; intros b1 b2 Hs; simpl; [done|].
  destruct c as [a|]; simpl.
  - destruct (step_same_sampling b1 b2 a Hs) as [Ho Hs'].
    destruct (step b1 a) as [o1 b1'], (step b2 a) as [o2 b2']. simpl in *.
    specialize (IH _ _ Hs').
    destruct (run cs b1'), (run cs b2'). simpl in *. congruence.
  - specialize (IH _ _ Hs).
    destruct (run cs b1), (run cs b2). simpl in *. congruence.
Qed.

End BanditSection.

(** *** AdversarialBandit *)
Section AdversarialSection.
Context {R : Type}.

Abbreviation t := (AdversarialBandit.t R).
Abbreviation step := (@AdversarialBandit.step R).
Abbreviation run := (@AdversarialBandit.run R).
Abbreviation rows_ok := (@AdversarialBandit.rows_ok R).

Lemma init_rows_ok (a : AdversarialBandit.ndarray R) :
  AdversarialBandit.wf_array a -> rows_ok (AdversarialBandit.init a).
Proof.
  intros [_ Hrows]. unfold AdversarialBandit.rows_ok. simpl.
  eapply Forall_impl; [exact Hrows|]. simpl. intros row ->. done.
Qed.

(** A step on an empty queue fails, whatever the action. *)
Lemma step_empty (e : t) a :
  AdversarialBandit.rewards e = [] ->
  step e a = (Raise (if a <? AdversarialBandit.n_arms e
                     then IndexError else AssertionError), e).
Proof.
  intros He. unfold AdversarialBandit.step. rewrite He.
  destruct (a <? AdversarialBandit.n_arms e); done.
Qed.

(** A step with an arm in range pops the leftmost row and pays its
    reward. *)
Lemma step_nonempty (e : t) a row rest :
  AdversarialBandit.rewards e = row :: rest ->
  Z.of_nat (length row) = AdversarialBandit.n_arms e ->
  0 <= a < AdversarialBandit.n_arms e ->
  exists r,
    row !! Z.to_nat a = Some r /\
    step e a =
      (Ok (0, r, true, false, ∅),
       {| AdversarialBandit.n_arms := AdversarialBandit.n_arms e;
          AdversarialBandit.rewards := rest |}).
Proof.
  intros He Hrow [Hlo Hhi]. unfold AdversarialBandit.step. rewrite He.
  destruct (Z.ltb_spec a (AdversarialBandit.n_arms e)) as [_|?]; [|lia].
  simpl.
  destruct (PyFacts.getitem_nonneg row a) as (r & Hr & ->); [lia|].
  exists r. done.
Qed.

(** A step never lengthens the queue, and shortens it by at most one row. *)
Lemma step_queue (e : t) a :
  AdversarialBandit.n_arms (step e a).2 = AdversarialBandit.n_arms e /\
  (AdversarialBandit.rewards (step e a).2 = AdversarialBandit.rewards e \/
   AdversarialBandit.rewards (step e a).2 =
     drop 1 (AdversarialBandit.rewards e)).
Proof.
  unfold AdversarialBandit.step.
  destruct (negb _); [by auto|].
  destruct (AdversarialBandit.rewards e) as [|row rest] eqn:He;
    [simpl; by auto|].
  destruct (getitem row a); simpl; rewrite drop_0; auto.
Qed.

Lemma run_queue cmds (e : t) :
  AdversarialBandit.n_arms (run cmds e).2 = AdversarialBandit.n_arms e /\
  exists k, (k <= length (actions_of cmds))%nat /\
    AdversarialBandit.rewards (run cmds e).2 =
      drop k (AdversarialBandit.rewards e).
Proof.
  revert e. induction cmds as [|c cs IH]; intros e; simpl.
  { split; [done|]. exists 0%nat. split; [lia|]. by rewrite drop_0. }
  destruct c as [a|]; simpl.
  - destruct (step_queue e a) as [Hn Hq].
    destruct (step e a) as [o e1]. simpl in *.
    specialize (IH e1). destruct (run cs e1) as [os e2]. simpl in *.
    destruct IH as [IHn (k & Hk & IHq)]. split; [congruence|].
    destruct Hq as [Hq|Hq]; rewrite Hq in IHq.
    + exists k. split; [lia|done].
    + exists (S k). split; [lia|]. rewrite IHq, drop_drop. done.
  - specialize (IH e). destruct (run cs e) as [os e2]. simpl in *.
    destruct IH as [IHn (k & Hk & IHq)]. split; [done|].
    exists k. split; [lia|done].
Qed.

(** The run of a command sequence whose arms are all in range: the i-th
    step pays the i-th row left in the queue, and the queue loses those
    rows; resets change nothing. *)
Lemma run_in_order cmds (e : t) :
  rows_ok e ->
  Forall (fun a => 0 <= a < AdversarialBandit.n_arms e) (actions_of cmds) ->
  (length (actions_of cmds) <= length (AdversarialBandit.rewards e))%nat ->
  (forall i a, actions_of cmds !! i = Some a ->
     exists row r,
       AdversarialBandit.rewards e !! i = Some row /\
       row !! Z.to_nat a = Some r /\
       step_outputs (run cmds e).1 !! i = Some (Ok (0, r, true, false, ∅))) /\
  AdversarialBandit.n_arms (run cmds e).2 = AdversarialBandit.n_arms e /\
  AdversarialBandit.rewards (run cmds e).2 =
    drop (length (actions_of cmds)) (AdversarialBandit.rewards e).
Proof.
  revert e. induction cmds as [|c cs IH]; intros e Hok Hacts Hlen; simpl.
  { split; [intros i a Hi; done|]. split; [done|]. by rewrite drop_0. }
  destruct c as [a0|]; simpl in *.
  - apply Forall_cons in Hacts as [Ha0 Hacts].
    destruct (AdversarialBandit.rewards e) as [|row rest] eqn:He;
      [simpl in Hlen; lia|].
    pose proof Hok as Hok'. unfold AdversarialBandit.rows_ok in Hok'. rewrite He in Hok'.
    apply Forall_cons in Hok' as [Hrow Hrest].
    destruct (step_nonempty e a0 row rest He Hrow Ha0) as (r0 & Hr0 & Hstep).
    rewrite Hstep.
    set (e1 := {| AdversarialBandit.n_arms := AdversarialBandit.n_arms e;
                  AdversarialBandit.rewards := rest |}).
    destruct (IH e1) as (IHout & IHn & IHq).
    { exact Hrest. } { exact Hacts. } { simpl in *. lia. }
    destruct (run cs e1) as [os e2]. simpl in *.
    split; [|split; [exact IHn|exact IHq]].
    intros [|i] a Hi; simpl in *.
    + inversion Hi; subst a. exists row, r0. done.
    + destruct (IHout i a Hi) as (row' & r & ? & ? & ?).
      exists row', r. done.
  - destruct (IH e Hok Hacts Hlen) as (IHout & IHn & IHq).
    destruct (run cs e) as [os e2]. simpl in *. done.
Qed.

End AdversarialSection.

Lemma toy_rvs_length law n g : length (Demo.toy_rvs law n g).1 = n.
Proof.
  revert g. induction n as [|n IH]; intros g; simpl; [done|].
  specialize (IH ((5 * g + 3) mod 16)).
  destruct (Demo.toy_rvs law n ((5 * g + 3) mod 16)). simpl in *. lia.
Qed.

(** C5, as amended.  For every Bandit and every action with
    [0 <= action < n_arms], [step] returns observation 0 with terminated
    True and truncated False, whatever steps and resets came before.  For
    an AdversarialBandit built from a T-by-A array the same holds as long
    as fewer than T steps came before.  [reset] returns [(0, {})] and
    leaves the environment as it is. *)
Theorem bandit_lifecycle {R Rng Law : Type}
    (rvs : Law -> nat -> Rng -> list R * Rng)
    (ls : list Law) (g : Rng) (cmds_b : list cmd) (a_b : Z)
    (arr : AdversarialBandit.ndarray R) (cmds_a : list cmd) (a_a : Z) :
  (forall law n g', length (rvs law n g').1 = n) ->
  0 <= a_b < Z.of_nat (length ls) ->
  AdversarialBandit.wf_array arr ->
  (length (actions_of cmds_a) < (AdversarialBandit.shape arr).1)%nat ->
  0 <= a_a < Z.of_nat (AdversarialBandit.shape arr).2 ->
  let b := (Bandit.run rvs cmds_b (Bandit.init rvs ls g)).2 in
  let e := (AdversarialBandit.run cmds_a (AdversarialBandit.init arr)).2 in
  (exists r b', Bandit.step rvs b a_b = (Ok (0, r, true, false, ∅), b')) /\
  Bandit.reset b = ((0, ∅), b) /\
  (exists r e', AdversarialBandit.step e a_a = (Ok (0, r, true, false, ∅), e')) /\
  AdversarialBandit.reset e = ((0, ∅), e).
Proof.
  intros Hrvs Hab Hwf Hlen Haa b e.
  split; [|split; [done|split; [|done]]].
  - assert (Hok : Bandit.arms_ok b)
      by (apply run_arms_ok, init_arms_ok).
    destruct (run_arms rvs cmds_b (Bandit.init rvs ls g)) as [Hl Hn].
    fold b in Hl, Hn.
    assert (Hn' : Bandit.n_arms b = Z.of_nat (length ls)).
    { rewrite Hn. unfold Bandit.init.
      destruct (Bandit.presample rvs ls g). done. }
    destruct (step_in_range rvs Hrvs b a_b Hok) as (law & r & _ & _ & Hs);
      [lia|].
    eauto.
  - destruct (run_queue cmds_a (AdversarialBandit.init arr))
      as [Hn (k & Hk & Hq)].
    fold e in Hn, Hq. simpl in Hn, Hq.
    pose proof Hwf as [Hrows Hcols].
    destruct (AdversarialBandit.rewards e) as [|row rest] eqn:He.
    { apply (f_equal length) in Hq. rewrite length_drop in Hq.
      simpl in Hq. lia. }
    assert (Hrow : Z.of_nat (length row) = AdversarialBandit.n_arms e).
    { rewrite Hn.
      assert (Hin : row ∈ AdversarialBandit.rows arr).
      { apply (subseteq_drop k). rewrite <- Hq. left. }
      rewrite Forall_forall in Hcols. rewrite (Hcols row Hin). done. }
    destruct (step_nonempty e a_a row rest He Hrow) as (r & _ & Hs);
      [rewrite Hn; lia|].
    eauto.
Qed.

Lemma bandit_lifecycle_witness :
  let b := (Bandit.run Demo.toy_rvs [Step 1; Reset]
              (Bandit.init Demo.toy_rvs [10; 20] 1)).2 in
  let e := (AdversarialBandit.run [Reset; Step 0]
              (AdversarialBandit.init Demo.toy_rewards)).2 in
  (exists r b', Bandit.step Demo.toy_rvs b 0 = (Ok (0, r, true, false, ∅), b')) /\
  Bandit.reset b = ((0, ∅), b) /\
  (exists r e', AdversarialBandit.step e 1 = (Ok (0, r, true, false, ∅), e')) /\
  AdversarialBandit.reset e = ((0, ∅), e).
Proof.
  apply (bandit_lifecycle Demo.toy_rvs [10; 20] 1 [Step 1; Reset] 0
           Demo.toy_rewards [Reset; Step 0] 1).
  - apply toy_rvs_length.
  - simpl. lia.
  - split; [reflexivity|]. repeat constructor.
  - simpl. lia.
  - simpl. lia.
Defined.

(** C5 as stated fails: an AdversarialBandit built from a 1-by-1 array
    answers a first [step(0)] with observation 0 and terminated True, and
    raises IndexError on the second one, although [0 < n_arms] still holds:
    what [step] does depends on how many steps came before. *)
Lemma adversarial_step_depends_on_history :
  let e0 := AdversarialBandit.init Demo.one_reward in
  let e1 := (AdversarialBandit.step e0 0).2 in
  AdversarialBandit.wf_array Demo.one_reward /\
  0 < AdversarialBandit.n_arms e1 /\
  (AdversarialBandit.step e0 0).1 = Ok (0, 7, true, false, ∅) /\
  (AdversarialBandit.step e1 0).1 = Raise IndexError /\
  ~ (exists r e', AdversarialBandit.step e1 0 = (Ok (0, r, true, false, ∅), e')).
Proof.
  simpl. split; [split; [reflexivity|repeat constructor]|].
  split; [reflexivity|]. split; [reflexivity|]. split; [reflexivity|].
  intros (r & e' & Hs). discriminate Hs.
Qed.

(** C7.  An AdversarialBandit built from a T-by-A array pays its rows in
    order: along any sequence of commands whose k <= T steps all take an arm
    in [0, A), the i-th step returns [(0, rewards[i][a_i], True, False, {})];
    resets in between change nothing, so the queue is left with the rows
    from k on; and once T steps are done every further step raises,
    IndexError for an action below [n_arms], also after a reset. *)
Theorem adversarial_rewards_in_order {R : Type}
    (arr : AdversarialBandit.ndarray R) (cmds : list cmd) :
  AdversarialBandit.wf_array arr ->
  Forall (fun a => 0 <= a < Z.of_nat (AdversarialBandit.shape arr).2)
         (actions_of cmds) ->
  (length (actions_of cmds) <= (AdversarialBandit.shape arr).1)%nat ->
  let outs := (AdversarialBandit.run cmds (AdversarialBandit.init arr)).1 in
  let e := (AdversarialBandit.run cmds (AdversarialBandit.init arr)).2 in
  (forall i a, actions_of cmds !! i = Some a ->
     exists row r,
       AdversarialBandit.rows arr !! i = Some row /\
       row !! Z.to_nat a = Some r /\
       step_outputs outs !! i = Some (Ok (0, r, true, false, ∅))) /\
  AdversarialBandit.rewards e =
    drop (length (actions_of cmds)) (AdversarialBandit.rows arr) /\
  (AdversarialBandit.reset e).2 = e /\
  (length (actions_of cmds) = (AdversarialBandit.shape arr).1 ->
   forall a,
     (exists ex, AdversarialBandit.step e a = (Raise ex, e)) /\
     (a < Z.of_nat (AdversarialBandit.shape arr).2 ->
      AdversarialBandit.step e a = (Raise IndexError, e) /\
      AdversarialBandit.step (AdversarialBandit.reset e).2 a
        = (Raise IndexError, e))).
Proof.
  intros Hwf Hacts Hlen outs e.
  pose proof Hwf as [Hrows Hcols].
  destruct (run_in_order cmds (AdversarialBandit.init arr))
    as (Hout & Hn & Hq).
  { by apply init_rows_ok. } { exact Hacts. } { simpl. lia. }
  fold e in Hn, Hq. fold outs in Hout. simpl in Hn, Hq, Hout.
  split; [exact Hout|]. split; [exact Hq|]. split; [done|].
  intros Hfull a.
  assert (He : AdversarialBandit.rewards e = []).
  { rewrite Hq. apply drop_ge. lia. }
  pose proof (step_empty e a He) as Hs. rewrite Hn in Hs. simpl.
  split; [eauto|].
  intros Ha. destruct (Z.ltb_spec a (Z.of_nat (AdversarialBandit.shape arr).2));
    [done|lia].
Qed.

Lemma adversarial_rewards_in_order_witness :
  let cmds := [Step 1; Reset; Step 0] in
  let outs := (AdversarialBandit.run cmds (AdversarialBandit.init Demo.toy_rewards)).1 in
  let e := (AdversarialBandit.run cmds (AdversarialBandit.init Demo.toy_rewards)).2 in
  step_outputs outs = [Ok (0, 2, true, false, ∅); Ok (0, 3, true, false, ∅)] /\
  AdversarialBandit.step e 1 = (Raise IndexError, e).
Proof.
  intros cmds outs e.
  split; [reflexivity|].
  assert (Hwf : AdversarialBandit.wf_array Demo.toy_rewards)
    by (split; [reflexivity|repeat constructor]).
  assert (Hacts : Forall (fun a => 0 <= a < 2) (actions_of cmds))
    by (repeat constructor; lia).
  destruct (adversarial_rewards_in_order Demo.toy_rewards cmds Hwf Hacts)
    as (_ & _ & _ & Hfull); [simpl; lia|].
  destruct (Hfull eq_refl 1) as [_ Hidx].
  destruct Hidx as [Hidx _]; [simpl; lia|]. exact Hidx.
Defined.

(** C8.  Bandit sampling is a function of the seed: take two states of a
    bandit with the same arms (the same environment at two moments, or two
    copies of it), reseed both with Seeders built from the same seed, and
    run the same commands; the outputs of the two runs are equal, and so
    are the sequences of rewards returned by [step]. *)
Theorem bandit_rewards_deterministic_in_seed {R Rng Law : Type}
    (rvs : Law -> nat -> Rng -> list R * Rng) (seeder_rng : Z -> Rng)
    (b1 b2 : Bandit.t R Rng Law) (seed : Z) (cmds : list cmd) :
  Bandit.laws b1 = Bandit.laws b2 ->
  Bandit.n_arms b1 = Bandit.n_arms b2 ->
  let run1 := Bandit.run rvs cmds (Bandit.safe_reseed seeder_rng b1 seed) in
  let run2 := Bandit.run rvs cmds (Bandit.safe_reseed seeder_rng b2 seed) in
  run1.1 = run2.1 /\
  reward_of <$> step_outputs run1.1 = reward_of <$> step_outputs run2.1.
Proof.
  intros Hl Hn run1 run2.
  assert (H12 : run1.1 = run2.1).
  { apply run_same_sampling. repeat split; simpl; done. }
  split; [exact H12|]. by rewrite H12.
Qed.

Lemma bandit_rewards_deterministic_in_seed_witness :
  let b1 := Demo.toy_bandit in
  let b2 := (Bandit.run Demo.toy_rvs [Step 1; Step 0; Step 1] b1).2 in
  let cmds := [Step 1; Step 1; Reset; Step 0] in
  Bandit.rng b1 <> Bandit.rng b2 /\
  reward_of <$> step_outputs
    (Bandit.run Demo.toy_rvs cmds
       (Bandit.safe_reseed Demo.toy_seeder_rng b1 42)).1 =
  reward_of <$> step_outputs
    (Bandit.run Demo.toy_rvs cmds
       (Bandit.safe_reseed Demo.toy_seeder_rng b2 42)).1.
Proof.
  intros b1 b2 cmds. split; [vm_compute; discriminate|].
  apply (bandit_rewards_deterministic_in_seed Demo.toy_rvs
           Demo.toy_seeder_rng b1 b2 42 cmds); reflexivity.
Defined.

End BanditFacts.

(** ** AgentStats *)

Module AgentStatsFacts.
Import AgentStats.

Section Facts.
Context `{Libs}.

(** *** The monad *)

Lemma bind_inv {A B} (m : M A) (k : A -> M B) w r w' :
  bind m k w = (r, w') ->
  (exists a w1, m w = (Ok a, w1) /\ k a w1 = (r, w')) \/
  (exists e, m w = (Raise e, w') /\ r = Raise e).
Proof.
  unfold bind. destruct (m w) as [[a|e] w1]; intros Hk.
  - left. eauto.
  - right. inversion Hk; subst. eauto.
Qed.

(** *** What a step may modify *)

Lemma modifies_refl W w : modifies W w w.
Proof. split; done. Qed.

Lemma modifies_trans W w1 w2 w3 :
  modifies W w1 w2 -> modifies W w2 w3 -> modifies W w1 w3.
Proof.
  intros [Hd1 Hf1] [Hd2 Hf2]. split; [set_solver|].
  intros l Hl HW. rewrite Hf2, Hf1; auto.
Qed.

Lemma modifies_mono W W' w w' :
  (forall l, l ∈ W -> l ∈ dom (heap w) -> l ∈ W') ->
  modifies W w w' -> modifies W' w w'.
Proof.
  intros Hsub [Hd Hf]. split; [done|].
  intros l Hl HW. apply Hf; [done|]. intros HlW. apply HW. auto.
Qed.

Lemma modifies_heap W w w' l :
  modifies W w w' -> l ∈ dom (heap w) -> l ∉ W ->
  heap w' !! l = heap w !! l.
Proof. intros [_ Hf]. apply Hf. Qed.

Lemma modifies_dom W w w' l :
  modifies W w w' -> l ∈ dom (heap w) -> l ∈ dom (heap w').
Proof. intros [Hd _] Hl. set_solver. Qed.

Lemma modifies_set_heap_fresh w l o :
  l ∉ dom (heap w) -> modifies ∅ w (set_heap (<[l := o]> (heap w)) w).
Proof.
  intros Hl. split; simpl.
  - rewrite dom_insert_L. set_solver.
  - intros l' Hl' _. apply lookup_insert_ne. set_solver.
Qed.

Lemma modifies_set_heap w l o :
  modifies {[l]} w (set_heap (<[l := o]> (heap w)) w).
Proof.
  split; simpl.
  - rewrite dom_insert_L. set_solver.
  - intros l' Hl' Hne. apply lookup_insert_ne. set_solver.
Qed.

Lemma modifies_set_seeder W w w' s :
  modifies W w w' -> modifies W w (set_seeder s w').
Proof. done. Qed.

Lemma modifies_add_trace W w w' ev :
  modifies W w w' -> modifies W w (add_trace ev w').
Proof. done. Qed.

(** *** The primitive steps *)

Lemma alloc_eq o w :
  alloc o w =
    (Ok (fresh (dom (heap w))),
     set_heap (<[fresh (dom (heap w)) := o]> (heap w)) w).
Proof. done. Qed.

Lemma fresh_not_in (w : world) : fresh (dom (heap w)) ∉ dom (heap w).
Proof. apply is_fresh. Qed.

Lemma deepcopy_inv l w r w' :
  deepcopy l w = (r, w') ->
  (exists o, heap w !! l = Some o /\
     r = Ok (fresh (dom (heap w))) /\
     w' = set_heap (<[fresh (dom (heap w)) := o]> (heap w)) w) \/
  (heap w !! l = None /\ r = Raise ReferenceError /\ w' = w).
Proof.
  unfold deepcopy. destruct (heap w !! l) as [o|] eqn:E.
  - rewrite alloc_eq. intros [= <- <-]. left. eauto.
  - intros [= <- <-]. right. done.
Qed.

Lemma deepcopy_modifies l w r w' :
  deepcopy l w = (r, w') -> modifies ∅ w w'.
Proof.
  intros [(o & _ & _ & ->)|(_ & _ & ->)]%deepcopy_inv.
  - apply modifies_set_heap_fresh, fresh_not_in.
  - apply modifies_refl.
Qed.


Lemma modifies_trans_fresh W0 W w w1 w2 :
  modifies W0 w w1 -> modifies W w1 w2 ->
  (forall l, l ∈ W -> l ∈ dom (heap w) -> l ∈ W0) ->
  modifies W0 w w2.
Proof.
  intros [Hd1 Hf1] [Hd2 Hf2] Hsub. split; [set_solver|].
  intros l Hl HW. rewrite Hf2; [by apply Hf1|set_solver|].
  intros HlW. apply HW. auto.
Qed.

Lemma deepcopy_opt_modifies x w r w' :
  deepcopy_opt x w = (r, w') -> modifies ∅ w w'.
Proof.
  destruct x as [l|]; simpl.
  - intros [(c & w1 & Hc & Hk)|(e & Hc & _)]%bind_inv.
    + inversion Hk; subst. eapply deepcopy_modifies; eauto.
    + eapply deepcopy_modifies; eauto.
  - intros [= <- <-]. apply modifies_refl.
Qed.

(** A copy is a new object. *)
Lemma deepcopy_opt_fresh x w c w' :
  deepcopy_opt x w = (Ok (Some c), w') ->
  (c ∉ dom (heap w)) /\ exists l, x = Some l /\ heap w' !! c = heap w !! l /\
    c ∈ dom (heap w').
Proof.
  destruct x as [l|]; simpl; [|intros [= ]].
  intros [(c' & w1 & Hc & Hk)|(e & Hc & [= ])]%bind_inv.
  inversion Hk; subst c' w1.
  apply deepcopy_inv in Hc as [(o & Ho & [= ->] & ->)|(_ & [= ] & _)].
  split; [apply fresh_not_in|]. exists l. simpl.
  rewrite lookup_insert_eq. split; [done|]. split; [done|].
  rewrite dom_insert_L. set_solver.
Qed.

Lemma reseed_modifies l w r w' :
  reseed (Some l) w = (r, w') -> modifies {[l]} w w'.
Proof.
  simpl. destruct (heap w !! l) as [[e|d]|] eqn:E.
  - destruct (env_reseed e (seeder w)) as [e' s']. intros [= <- <-].
    apply modifies_set_seeder, modifies_set_heap.
  - intros [= <- <-]. apply modifies_refl.
  - intros [= <- <-]. apply modifies_refl.
Qed.

Lemma reseed_none_modifies w r w' :
  reseed None w = (r, w') -> w' = w.
Proof. simpl. by intros [= <- <-]. Qed.

(** [deepcopy] followed by [reseed()] on an environment: a new object that
    holds the reseeded environment. *)
Lemma reseeded_copy_eq l0 e w :
  heap w !! l0 = Some (EnvObj e) ->
  reseeded_copy (Some l0) w =
    (Ok (fresh (dom (heap w))),
     set_seeder (env_reseed e (seeder w)).2
       (set_heap (<[fresh (dom (heap w)) := EnvObj (env_reseed e (seeder w)).1]>
                    (heap w)) w)).
Proof.
  intros He. unfold reseeded_copy, deepcopy_opt, bind, deepcopy.
  rewrite He, alloc_eq. unfold ret.
  set (l := fresh (dom (heap w))). simpl.
  rewrite lookup_insert_eq.
  destruct (env_reseed e (seeder w)) as [e' s']. simpl.
  rewrite insert_insert_eq. done.
Qed.

Lemma reseeded_copy_modifies src w r w' :
  reseeded_copy src w = (r, w') -> modifies ∅ w w'.
Proof.
  unfold reseeded_copy.
  intros [(c & w1 & Hc & Hk)|(e & Hc & _)]%bind_inv;
    [|eapply deepcopy_opt_modifies; eauto].
  pose proof (deepcopy_opt_modifies _ _ _ _ Hc) as Hm1.
  destruct c as [c|].
  - apply deepcopy_opt_fresh in Hc as [Hfresh _].
    apply bind_inv in Hk as [([] & w2 & Hr & Hk)|(e & Hr & _)].
    + inversion Hk; subst. eapply modifies_trans_fresh;
        [exact Hm1|eapply reseed_modifies; eauto|].
      intros l ->%elem_of_singleton Hl. done.
    + eapply modifies_trans_fresh;
        [exact Hm1|eapply reseed_modifies; eauto|].
      intros l ->%elem_of_singleton Hl. done.
  - apply bind_inv in Hk as [([] & w2 & Hr & Hk)|(e & Hr & _)].
    + discriminate Hr.
    + apply reseed_none_modifies in Hr as ->. done.
Qed.

(** A successful [reseeded_copy] copied an environment. *)
Lemma reseeded_copy_ok src w l w' :
  reseeded_copy src w = (Ok l, w') ->
  exists l0 e, src = Some l0 /\ heap w !! l0 = Some (EnvObj e).
Proof.
  unfold reseeded_copy.
  intros [(c & w1 & Hc & Hk)|(e & Hc & [= ])]%bind_inv.
  apply bind_inv in Hk as [([] & w2 & Hr & Hk)|(e & Hr & [= ])].
  destruct c as [c|]; [|discriminate Hr].
  destruct (deepcopy_opt_fresh _ _ _ _ Hc) as (_ & l0 & -> & Hcopy & _).
  exists l0. simpl in Hr.
  destruct (heap w1 !! c) as [[e|d]|] eqn:E; try discriminate Hr.
  exists e. rewrite <- Hcopy. done.
Qed.

(** The loop of [__init__] on an environment: [n] new objects, pairwise
    distinct, which hold the successive reseedings of the environment. *)
Lemma make_train_env_set_eq n l0 e w :
  heap w !! l0 = Some (EnvObj e) ->
  exists envs w',
    make_train_env_set n (Some l0) w = (Ok envs, w') /\
    length envs = n /\
    NoDup envs /\
    (forall l, l ∈ envs -> (l ∉ dom (heap w)) /\ l ∈ dom (heap w')) /\
    modifies ∅ w w' /\
    (fun l => heap w' !! l) <$> envs
      = (fun e' => Some (EnvObj e')) <$> (reseeds n e (seeder w)).1 /\
    seeder w' = (reseeds n e (seeder w)).2 /\
    trace w' = trace w.
Proof.
  revert w. induction n as [|n IH]; intros w He; simpl.
  { exists [], w. split; [done|]. split; [done|]. split; [constructor|].
    split; [intros l Hl; by apply elem_of_nil in Hl|].
    split; [apply modifies_refl|]. done. }
  unfold bind. rewrite (reseeded_copy_eq l0 e w He).
  set (l1 := fresh (dom (heap w))).
  destruct (env_reseed e (seeder w)) as [e1 s1] eqn:Hre. simpl.
  set (w1 := set_seeder s1 (set_heap (<[l1 := EnvObj e1]> (heap w)) w)).
  assert (Hl1 : l1 ∉ dom (heap w)) by apply fresh_not_in.
  assert (Hne : l1 <> l0).
  { intros ->. apply Hl1. apply elem_of_dom. eauto. }
  assert (Hm1 : modifies ∅ w w1)
    by (apply modifies_set_seeder, modifies_set_heap_fresh, Hl1).
  destruct (IH w1) as (envs & w' & Hrun & Hlen & Hnd & Hfresh & Hm & Hc & Hs & Ht).
  { simpl. rewrite lookup_insert_ne; done. }
  rewrite Hrun. simpl in Hc, Hs.
  destruct (reseeds n e s1) as [es s2] eqn:Hrs. simpl in *.
  exists (l1 :: envs), w'. unfold ret.
  assert (Hl1w1 : l1 ∈ dom (heap w1)).
  { simpl. rewrite dom_insert_L. set_solver. }
  split; [done|]. split; [simpl; lia|].
  split.
  { constructor; [|done]. intros Hin. apply Hfresh in Hin as [Hin _].
    apply Hin. rewrite dom_insert_L. set_solver. }
  split.
  { intros l [->|Hin]%elem_of_cons.
    - split; [done|]. eapply modifies_dom; eauto.
    - apply Hfresh in Hin as [Hin1 Hin2]. split; [|done].
      intros Hl. apply Hin1. rewrite dom_insert_L. set_solver. }
  split; [eapply modifies_trans; eauto|].
  split; [|done].
  simpl. f_equal; [|done].
  rewrite (modifies_heap _ _ _ _ Hm Hl1w1); [|set_solver].
  simpl. apply lookup_insert_eq.
Qed.

Lemma make_train_env_set_modifies n src w r w' :
  make_train_env_set n src w = (r, w') -> modifies ∅ w w'.
Proof.
  revert w r w'. induction n as [|n IH]; intros w r w'; simpl.
  { intros [= <- <-]. apply modifies_refl. }
  intros [(l & w1 & Hc & Hk)|(e & Hc & _)]%bind_inv;
    [|eapply reseeded_copy_modifies; eauto].
  apply reseeded_copy_modifies in Hc.
  apply bind_inv in Hk as [(ls & w2 & Hr & Hk)|(e & Hr & _)].
  - inversion Hk; subst. eapply modifies_trans; eauto.
  - eapply modifies_trans; eauto.
Qed.

Lemma or_new_dict_modifies x w r w' :
  or_new_dict x w = (r, w') -> modifies ∅ w w'.
Proof.
  destruct x as [l|]; simpl.
  - intros [= <- <-]. apply modifies_refl.
  - rewrite alloc_eq. intros [= <- <-].
    apply modifies_set_heap_fresh, fresh_not_in.
Qed.

Lemma seeding_get_rng_heap w r w' :
  seeding_get_rng w = (r, w') -> heap w' = heap w /\ trace w' = trace w.
Proof.
  unfold seeding_get_rng. destruct (get_rng (seeder w)).
  by intros [= <- <-].
Qed.


Lemma or_new_dict_eq x w :
  or_new_dict x w =
    match x with
    | Some l => (Ok l, w)
    | None => (Ok (fresh (dom (heap w))),
               set_heap (<[fresh (dom (heap w)) := DictObj ∅]> (heap w)) w)
    end.
Proof. by destruct x. Qed.

(** The constructor succeeds on well-formed arguments, and what it
    builds. *)
Lemma init_spec cls l0 e0 ev eh ik fk pk name nf nj dir vb w :
  heap w !! l0 = Some (EnvObj e0) ->
  (forall l, ev = Some l -> exists e, heap w !! l = Some (EnvObj e)) ->
  (forall l, ik = Some l -> l ∈ dom (heap w)) ->
  (forall l, fk = Some l -> l ∈ dom (heap w)) ->
  (forall l, pk = Some l -> l ∈ dom (heap w)) ->
  exists self w',
    __init__ (Some cls) (Some l0) ev eh ik fk pk name nf nj dir vb w
      = (Ok (Some self), w') /\
    built cls l0 ev eh ik fk pk name nf nj dir vb w self w'.
Proof.
  intros He0 Hev Hik Hfk Hpk.
  unfold __init__, bind at 1, timestamp_now.
  (* the evaluation environment *)
  assert (Hsrc : exists e_src,
            heap w !! default l0 ev = Some (EnvObj e_src)).
  { destruct ev as [l|]; simpl; [by apply Hev|eauto]. }
  destruct Hsrc as [e_src Hsrc].
  assert (Hcopy : match ev with None => Some l0 | Some e => Some e end
                  = Some (default l0 ev)) by (by destruct ev).
  rewrite Hcopy. unfold bind at 1.
  rewrite (reseeded_copy_eq _ _ _ Hsrc).
  set (l_ev := fresh (dom (heap w))).
  set (w1 := set_seeder _ _).
  assert (Hlev : l_ev ∉ dom (heap w)) by apply fresh_not_in.
  assert (Hm1 : modifies ∅ w w1)
    by (apply modifies_set_seeder, modifies_set_heap_fresh, Hlev).
  assert (Hev1 : heap w1 !! l_ev
                 = Some (EnvObj (env_reseed e_src (seeder w)).1))
    by apply lookup_insert_eq.
  assert (Ht1 : trace w1 = trace w) by done.
  clearbody w1 l_ev.
  assert (Hlev1 : l_ev ∈ dom (heap w1)) by (apply elem_of_dom; eauto).
  (* the copy of policy_kwargs *)
  unfold bind at 1.
  destruct (deepcopy_opt pk w1) as [rpk w2] eqn:Hpk2.
  pose proof (deepcopy_opt_modifies _ _ _ _ Hpk2) as Hm2.
  assert (Hrpk : trace w2 = trace w1 /\ exists pkc, rpk = Ok pkc /\
            match pkc with
            | Some c => (c ∉ dom (heap w1)) /\ c ∈ dom (heap w2) /\
                        exists l, pk = Some l /\ heap w2 !! c = heap w !! l
            | None => pk = None
            end).
  { destruct pk as [l|]; simpl in Hpk2.
    - assert (Hl1 : l ∈ dom (heap w1))
        by (eapply modifies_dom; [exact Hm1|by apply Hpk]).
      apply elem_of_dom in Hl1 as [o Ho].
      unfold bind, deepcopy in Hpk2. rewrite Ho, alloc_eq in Hpk2.
      unfold ret in Hpk2. inversion Hpk2; subst rpk w2. clear Hpk2.
      split; [done|]. eexists; split; [done|]. cbn beta iota.
      split; [apply (fresh_not_in w1)|].
      split; [simpl; rewrite dom_insert_L; set_solver|].
      exists l. split; [done|]. simpl. rewrite lookup_insert_eq.
      rewrite <- Ho.
      apply (modifies_heap _ _ _ _ Hm1); [by apply Hpk|set_solver].
    - inversion Hpk2; subst. split; [done|]. exists None. done. }
  destruct Hrpk as (Ht2 & pkc & -> & Hpkc).
  (* the dictionaries *)
  unfold bind at 1. rewrite or_new_dict_eq.
  set (ik' := match ik with Some l => l | None => fresh (dom (heap w2)) end).
  set (w3 := match ik with
             | Some l => w2
             | None => set_heap (<[fresh (dom (heap w2)) := DictObj ∅]> (heap w2)) w2
             end).
  replace (match ik with
           | Some l => (Ok l, w2)
           | None => _
           end) with (@Ok loc ik', w3) by (by destruct ik).
  assert (Hm3 : modifies ∅ w2 w3).
  { subst w3. destruct ik; [apply modifies_refl|].
    apply modifies_set_heap_fresh, fresh_not_in. }
  assert (Ht3 : trace w3 = trace w2) by (subst w3; by destruct ik).
  assert (Hik5 : ik' ∈ dom (heap w3) /\
                 (forall l, ik = Some l -> ik' = l) /\
                 (ik = None -> (ik' ∉ dom (heap w2)) /\
                               heap w3 !! ik' = Some (DictObj ∅))).
  { subst ik' w3. destruct ik as [l|].
    - split; [|split; [by intros ? [= ->]|done]].
      eapply modifies_dom; [exact Hm2|].
      eapply modifies_dom; [exact Hm1|]. by apply Hik.
    - split; [simpl; rewrite dom_insert_L; set_solver|].
      split; [done|].
      intros _. split; [apply fresh_not_in|]. simpl.
      apply lookup_insert_eq. }
  clearbody w3 ik'.
  unfold bind at 1. rewrite or_new_dict_eq.
  set (fk' := match fk with Some l => l | None => fresh (dom (heap w3)) end).
  set (w4 := match fk with
             | Some l => w3
             | None => set_heap (<[fresh (dom (heap w3)) := DictObj ∅]> (heap w3)) w3
             end).
  replace (match fk with
           | Some l => (Ok l, w3)
           | None => _
           end) with (@Ok loc fk', w4) by (by destruct fk).
  assert (Hm4 : modifies ∅ w3 w4).
  { subst w4. destruct fk; [apply modifies_refl|].
    apply modifies_set_heap_fresh, fresh_not_in. }
  assert (Ht4 : trace w4 = trace w3) by (subst w4; by destruct fk).
  assert (Hfk5 : fk' ∈ dom (heap w4) /\
                 (forall l, fk = Some l -> fk' = l) /\
                 (fk = None -> (fk' ∉ dom (heap w3)) /\
                               heap w4 !! fk' = Some (DictObj ∅))).
  { subst fk' w4. destruct fk as [l|].
    - split; [|split; [by intros ? [= ->]|done]].
      eapply modifies_dom; [exact Hm3|].
      eapply modifies_dom; [exact Hm2|].
      eapply modifies_dom; [exact Hm1|]. by apply Hfk.
    - split; [simpl; rewrite dom_insert_L; set_solver|].
      split; [done|].
      intros _. split; [apply fresh_not_in|]. simpl.
      apply lookup_insert_eq. }
  clearbody w4 fk'.
  unfold bind at 1. rewrite or_new_dict_eq.
  set (pk' := match pkc with Some l => l | None => fresh (dom (heap w4)) end).
  set (w5 := match pkc with
             | Some l => w4
             | None => set_heap (<[fresh (dom (heap w4)) := DictObj ∅]> (heap w4)) w4
             end).
  replace (match pkc with
           | Some l => (Ok l, w4)
           | None => _
           end) with (@Ok loc pk', w5) by (by destruct pkc).
  assert (Hm5 : modifies ∅ w4 w5).
  { subst w5. destruct pkc; [apply modifies_refl|].
    apply modifies_set_heap_fresh, fresh_not_in. }
  assert (Ht5 : trace w5 = trace w4) by (subst w5; by destruct pkc).
  assert (Hpk5 : (pk' ∉ dom (heap w1)) /\ pk' ∈ dom (heap w5) /\
                 heap w5 !! pk' = match pk with
                                  | Some l => heap w !! l
                                  | None => Some (DictObj ∅)
                                  end).
  { subst pk' w5. destruct pkc as [c|].
    - destruct Hpkc as (Hc1 & Hc2 & l & -> & Hcl).
      split; [done|].
      split; [eapply modifies_dom; [exact Hm4|];
              eapply modifies_dom; [exact Hm3|]; done|].
      rewrite <- Hcl.
      rewrite (modifies_heap _ _ _ _ Hm4);
        [|by eapply modifies_dom; eauto|set_solver].
      apply (modifies_heap _ _ _ _ Hm3); [done|set_solver].
    - subst pk. split.
      { intros Hin. apply (fresh_not_in w4).
        eapply modifies_dom; [exact Hm4|].
        eapply modifies_dom; [exact Hm3|].
        eapply modifies_dom; [exact Hm2|]. done. }
      split; [simpl; rewrite dom_insert_L; set_solver|].
      simpl. apply lookup_insert_eq. }
  clearbody w5 pk'.
  destruct Hik5 as (Hik5 & Hik5g & Hik5n), Hfk5 as (Hfk5 & Hfk5g & Hfk5n),
    Hpk5 as (Hpk5f & Hpk5d & Hpk5c).
  assert (Hm05 : modifies ∅ w w5).
  { eapply modifies_trans; [|exact Hm5].
    eapply modifies_trans; [|exact Hm4].
    eapply modifies_trans; [|exact Hm3].
    eapply modifies_trans; [exact Hm1|exact Hm2]. }
  (* the training environments *)
  assert (He5 : heap w5 !! l0 = Some (EnvObj e0)).
  { rewrite (modifies_heap _ _ _ _ Hm05); [done| |set_solver].
    apply elem_of_dom. eauto. }
  destruct (make_train_env_set_eq (Z.to_nat nf) l0 e0 w5 He5)
    as (envs & w6 & Hrun & Hlen & Hnd & Hfresh & Hm6 & Hc & Hs & Ht6).
  unfold bind at 1. rewrite Hrun.
  unfold bind at 1, seeding_get_rng.
  destruct (get_rng (seeder w6)) as [g s7] eqn:Hg.
  unfold ret. eexists _, _. split; [done|].
  assert (Hik55 : ik' ∈ dom (heap w5)).
  { eapply modifies_dom; [exact Hm5|].
    eapply modifies_dom; [exact Hm4|]. done. }
  assert (Hfk55 : fk' ∈ dom (heap w5))
    by (eapply modifies_dom; [exact Hm5|]; done).
  assert (Hdom01 : forall l, l ∈ dom (heap w) -> l ∈ dom (heap w1))
    by (intros l; apply (modifies_dom _ _ _ _ Hm1)).
  assert (Hdom12 : forall l, l ∈ dom (heap w1) -> l ∈ dom (heap w2))
    by (intros l; apply (modifies_dom _ _ _ _ Hm2)).
  assert (Hdom23 : forall l, l ∈ dom (heap w2) -> l ∈ dom (heap w3))
    by (intros l; apply (modifies_dom _ _ _ _ Hm3)).
  assert (Hdom34 : forall l, l ∈ dom (heap w3) -> l ∈ dom (heap w4))
    by (intros l; apply (modifies_dom _ _ _ _ Hm4)).
  assert (Hdom45 : forall l, l ∈ dom (heap w4) -> l ∈ dom (heap w5))
    by (intros l; apply (modifies_dom _ _ _ _ Hm5)).
  constructor; simpl.
  - eapply modifies_trans; eauto.
  - congruence.
  - done.
  - done.
  - done.
  - done.
  - done.
  - done.
  - done.
  - done.
  - done.
  - done.
  - done.
  - done.
  - done.
  - exists e_src. split; [done|].
    rewrite (modifies_heap _ _ _ _ Hm6); [|auto 10|set_solver].
    rewrite (modifies_heap _ _ _ _ Hm5); [|auto 10|set_solver].
    rewrite (modifies_heap _ _ _ _ Hm4); [|auto 10|set_solver].
    rewrite (modifies_heap _ _ _ _ Hm3); [|auto 10|set_solver].
    rewrite (modifies_heap _ _ _ _ Hm2); [done|auto 10|set_solver].
  - done.
  - intros Hn. destruct (Hik5n Hn) as [Hn' Hc0].
    split; [intros Hin; apply Hn'; auto|].
    rewrite (modifies_heap _ _ _ _ Hm6); [|auto 10|set_solver].
    rewrite (modifies_heap _ _ _ _ Hm5); [|auto 10|set_solver].
    rewrite (modifies_heap _ _ _ _ Hm4); [done|auto 10|set_solver].
  - eapply modifies_dom; [exact Hm6|]. done.
  - done.
  - intros Hn. destruct (Hfk5n Hn) as [Hn' Hc0].
    split; [intros Hin; apply Hn'; auto|].
    rewrite (modifies_heap _ _ _ _ Hm6); [|auto 10|set_solver].
    rewrite (modifies_heap _ _ _ _ Hm5); [done|auto 10|set_solver].
  - eapply modifies_dom; [exact Hm6|]. done.
  - intros Hin. apply Hpk5f. auto.
  - rewrite (modifies_heap _ _ _ _ Hm6); [done|done|set_solver].
  - eapply modifies_dom; [exact Hm6|]. done.
  - done.
  - done.
  - intros l Hl. destruct (Hfresh l Hl) as [Hf1 Hf2]. split; [|done].
    intros Hin. apply Hf1. auto 10.
  - split; intros Hin; apply Hfresh in Hin as [Hin _]; done.
  - exists e0, (seeder w5). split; [done|]. exact Hc.
Qed.

Lemma init_modifies cls te ev eh ik fk pk name nf nj dir vb w r w' :
  __init__ cls te ev eh ik fk pk name nf nj dir vb w = (r, w') ->
  modifies ∅ w w' /\ trace w' = trace w.
Proof.
  unfold __init__. destruct cls as [cls|];
    [|intros [= <- <-]; split; [apply modifies_refl|done]].
  intros [(ts & w0 & Hts & Hk)|(e & [= ] & _)]%bind_inv.
  inversion Hts; subst ts w0; clear Hts.
  assert (Hquiet : forall src w r w',
            reseeded_copy src w = (r, w') -> trace w' = trace w).
  { clear. intros src w r w'. unfold reseeded_copy, deepcopy_opt, bind.
    destruct src as [l|]; simpl.
    - unfold deepcopy. destruct (heap w !! l) as [o|];
        [|by intros [= <- <-]].
      rewrite alloc_eq. unfold ret. simpl.
      rewrite lookup_insert_eq. destruct o as [e|d].
      + destruct (env_reseed e (seeder w)). by intros [= <- <-].
      + by intros [= <- <-].
    - by intros [= <- <-]. }
  assert (Hquiet_loop : forall n src w r w',
            make_train_env_set n src w = (r, w') -> trace w' = trace w).
  { clear -Hquiet. induction n as [|n IH]; intros src w r w'; simpl.
    - by intros [= <- <-].
    - intros [(l & w1 & Hc & Hk)|(e & Hc & _)]%bind_inv;
        [|by eapply Hquiet].
      apply Hquiet in Hc.
      apply bind_inv in Hk as [(ls & w2 & Hr & Hk)|(e & Hr & _)].
      + inversion Hk; subst. apply IH in Hr. congruence.
      + apply IH in Hr. congruence. }
  assert (Hquiet_copy : forall x w r w',
            deepcopy_opt x w = (r, w') -> trace w' = trace w).
  { clear. intros [l|] w r w'; simpl; [|by intros [= <- <-]].
    unfold bind, deepcopy. destruct (heap w !! l); by intros [= <- <-]. }
  assert (Hquiet_dict : forall x w r w',
            or_new_dict x w = (r, w') -> trace w' = trace w).
  { clear. intros [l|] w r w'; simpl; by intros [= <- <-]. }
  apply bind_inv in Hk as [(l_ev & w1 & H1 & Hk)|(e & H1 & _)];
    [|split; [eapply reseeded_copy_modifies|eapply Hquiet]; eauto].
  pose proof (reseeded_copy_modifies _ _ _ _ H1) as Hm1.
  apply Hquiet in H1.
  apply bind_inv in Hk as [(pkc & w2 & H2 & Hk)|(e & H2 & _)].
  2:{ split; [eapply modifies_trans; [exact Hm1|];
              eapply deepcopy_opt_modifies; eauto|].
      apply Hquiet_copy in H2. congruence. }
  pose proof (deepcopy_opt_modifies _ _ _ _ H2) as Hm2.
  apply Hquiet_copy in H2.
  apply bind_inv in Hk as [(ik' & w3 & H3 & Hk)|(e & H3 & _)].
  2:{ split; [eapply modifies_trans; [exact Hm1|];
              eapply modifies_trans; [exact Hm2|];
              eapply or_new_dict_modifies; eauto|].
      apply Hquiet_dict in H3. congruence. }
  pose proof (or_new_dict_modifies _ _ _ _ H3) as Hm3.
  apply Hquiet_dict in H3.
  apply bind_inv in Hk as [(fk' & w4 & H4 & Hk)|(e & H4 & _)].
  2:{ split; [eapply modifies_trans; [exact Hm1|];
              eapply modifies_trans; [exact Hm2|];
              eapply modifies_trans; [exact Hm3|];
              eapply or_new_dict_modifies; eauto|].
      apply Hquiet_dict in H4. congruence. }
  pose proof (or_new_dict_modifies _ _ _ _ H4) as Hm4.
  apply Hquiet_dict in H4.
  apply bind_inv in Hk as [(pk' & w5 & H5 & Hk)|(e & H5 & _)].
  2:{ split; [eapply modifies_trans; [exact Hm1|];
              eapply modifies_trans; [exact Hm2|];
              eapply modifies_trans; [exact Hm3|];
              eapply modifies_trans; [exact Hm4|];
              eapply or_new_dict_modifies; eauto|].
      apply Hquiet_dict in H5. congruence. }
  pose proof (or_new_dict_modifies _ _ _ _ H5) as Hm5.
  apply Hquiet_dict in H5.
  assert (Hm05 : modifies ∅ w w5).
  { eapply modifies_trans; [|exact Hm5].
    eapply modifies_trans; [|exact Hm4].
    eapply modifies_trans; [|exact Hm3].
    eapply modifies_trans; [exact Hm1|exact Hm2]. }
  assert (Ht05 : trace w5 = trace w) by congruence.
  apply bind_inv in Hk as [(envs & w6 & H6 & Hk)|(e & H6 & _)].
  2:{ split; [eapply modifies_trans; [exact Hm05|];
              eapply make_train_env_set_modifies; eauto|].
      apply Hquiet_loop in H6. congruence. }
  pose proof (make_train_env_set_modifies _ _ _ _ _ H6) as Hm6.
  apply Hquiet_loop in H6.
  apply bind_inv in Hk as [(g & w7 & H7 & Hk)|(e & H7 & _)].
  - inversion Hk; subst r w'.
    apply seeding_get_rng_heap in H7 as [Hh7 Ht7].
    split; [|congruence].
    eapply modifies_trans; [exact Hm05|].
    destruct Hm6 as [Hd6 Hf6]. split; rewrite Hh7; done.
  - apply seeding_get_rng_heap in H7 as [Hh7 Ht7].
    split; [|congruence].
    eapply modifies_trans; [exact Hm05|].
    destruct Hm6 as [Hd6 Hf6]. split; rewrite Hh7; done.
Qed.

(** *** The workers *)

Lemma read_env_inv l w r w' :
  read_env l w = (r, w') ->
  w' = w /\ forall e, r = Ok e -> heap w !! l = Some (EnvObj e).
Proof.
  unfold read_env. destruct (heap w !! l) as [[e|d]|];
    intros [= <- <-]; split; try done; by intros ? [= ->].
Qed.

Lemma read_dict_inv l w r w' :
  read_dict l w = (r, w') ->
  w' = w /\ forall d, r = Ok d -> heap w !! l = Some (DictObj d).
Proof.
  unfold read_dict. destruct (heap w !! l) as [[e|d]|];
    intros [= <- <-]; split; try done; by intros ? [= ->].
Qed.

Lemma modifies_insert2 w l1 o1 l2 o2 W :
  l1 ∈ W -> l2 ∈ W ->
  modifies W w (set_heap (<[l2 := o2]> (<[l1 := o1]> (heap w))) w).
Proof.
  intros H1 H2. split; simpl.
  - rewrite !dom_insert_L. set_solver.
  - intros l Hl HW. rewrite !lookup_insert_ne; [done|set_solver..].
Qed.

Lemma call_new_modifies cls te ik w r w' :
  call_new cls te ik w = (r, w') ->
  modifies {[te; ik]} w w' /\ trace w' = trace w.
Proof.
  unfold call_new.
  intros [(e & w1 & He & Hk)|(ex & He & _)]%bind_inv.
  2:{ apply read_env_inv in He as [-> _]. split; [apply modifies_refl|done]. }
  apply read_env_inv in He as [-> _].
  apply bind_inv in Hk as [(d & w1 & Hd & Hk)|(ex & Hd & _)].
  2:{ apply read_dict_inv in Hd as [-> _]. split; [apply modifies_refl|done]. }
  apply read_dict_inv in Hd as [-> _].
  destruct (AgentClass.new cls e d (seeder w)) as [[[ra e1] ik1] s1].
  inversion Hk; subst r w'. split; [|done].
  apply modifies_set_seeder, modifies_insert2; set_solver.
Qed.

Lemma call_fit_modifies cls agent te fk w r w' :
  call_fit cls agent te fk w = (r, w') ->
  modifies {[te; fk]} w w' /\ trace w' = trace w.
Proof.
  unfold call_fit.
  intros [(e & w1 & He & Hk)|(ex & He & _)]%bind_inv.
  2:{ apply read_env_inv in He as [-> _]. split; [apply modifies_refl|done]. }
  apply read_env_inv in He as [-> _].
  apply bind_inv in Hk as [(d & w1 & Hd & Hk)|(ex & Hd & _)].
  2:{ apply read_dict_inv in Hd as [-> _]. split; [apply modifies_refl|done]. }
  apply read_dict_inv in Hd as [-> _].
  destruct (AgentClass.fit cls agent e d (seeder w))
    as [[[[ri a'] e1] fk1] s1].
  inversion Hk; subst r w'. split; [|done].
  apply modifies_set_seeder, modifies_insert2; set_solver.
Qed.

(** A worker touches only the three objects it is handed. *)
Lemma fit_worker_modifies a w r w' :
  _fit_worker a w = (r, w') ->
  modifies (list_to_set (task_locs a)) w w' /\ trace w' = trace w.
Proof.
  destruct a as [[[cls te] ik] fk]. unfold _fit_worker, task_locs. simpl.
  intros [(agent & w1 & Hn & Hk)|(ex & Hn & _)]%bind_inv.
  - apply call_new_modifies in Hn as [Hm1 Ht1].
    apply call_fit_modifies in Hk as [Hm2 Ht2].
    split; [|congruence].
    eapply modifies_trans.
    + eapply modifies_mono; [|exact Hm1]. set_solver.
    + eapply modifies_mono; [|exact Hm2]. set_solver.
  - apply call_new_modifies in Hn as [Hm1 Ht1]. split; [|done].
    eapply modifies_mono; [|exact Hm1]. set_solver.
Qed.

Lemma call_new_eq cls te ik e d w :
  heap w !! te = Some (EnvObj e) ->
  heap w !! ik = Some (DictObj d) ->
  call_new cls te ik w =
    ((AgentClass.new cls e d (seeder w)).1.1.1,
     set_seeder (AgentClass.new cls e d (seeder w)).2
       (set_heap
          (<[ik := DictObj (AgentClass.new cls e d (seeder w)).1.2]>
             (<[te := EnvObj (AgentClass.new cls e d (seeder w)).1.1.2]>
                (heap w))) w)).
Proof.
  intros He Hd. unfold call_new, bind, read_env, read_dict.
  rewrite He, Hd.
  by destruct (AgentClass.new cls e d (seeder w)) as [[[ra e1] ik1] s1].
Qed.

Lemma call_fit_eq cls agent te fk e d w :
  heap w !! te = Some (EnvObj e) ->
  heap w !! fk = Some (DictObj d) ->
  (call_fit cls agent te fk w).1 =
    match (AgentClass.fit cls agent e d (seeder w)).1.1.1.1 with
    | Ok info => Ok ((AgentClass.fit cls agent e d (seeder w)).1.1.1.2, info)
    | Raise ex => Raise ex
    end.
Proof.
  intros He Hd. unfold call_fit, bind, read_env, read_dict.
  rewrite He, Hd.
  by destruct (AgentClass.fit cls agent e d (seeder w))
    as [[[[ri a'] e1] fk1] s1].
Qed.

(** On three distinct objects of the right kinds, a worker returns what
    [train] computes from their contents. *)
Lemma fit_worker_train cls te ik fk e ikd fkd w :
  te <> ik -> te <> fk -> ik <> fk ->
  heap w !! te = Some (EnvObj e) ->
  heap w !! ik = Some (DictObj ikd) ->
  heap w !! fk = Some (DictObj fkd) ->
  (_fit_worker (cls, te, ik, fk) w).1 = train cls e ikd fkd (seeder w).
Proof.
  intros Hti Htf Hif He Hik Hfk.
  unfold _fit_worker, bind. rewrite (call_new_eq _ _ _ _ _ _ He Hik).
  unfold train.
  destruct (AgentClass.new cls e ikd (seeder w)) as [[[ra e1] ik1] s1].
  simpl. destruct ra as [agent|ex]; [|done].
  rewrite (call_fit_eq cls agent te fk e1 fkd).
  - simpl.
    by destruct (AgentClass.fit cls agent e1 fkd s1)
      as [[[[[info|ex] a'] e2] fk1] s2].
  - simpl. rewrite lookup_insert_ne by done. apply lookup_insert_eq.
  - simpl. rewrite !lookup_insert_ne by done. done.
Qed.

Lemma fit_worker_ok cls te ik fk w out w' :
  te <> ik -> te <> fk -> ik <> fk ->
  _fit_worker (cls, te, ik, fk) w = (Ok out, w') ->
  trained_on (heap w) (cls, te, ik, fk) out.
Proof.
  intros Hti Htf Hif Hrun.
  assert (Hreads : exists e ikd fkd,
            heap w !! te = Some (EnvObj e) /\
            heap w !! ik = Some (DictObj ikd) /\
            heap w !! fk = Some (DictObj fkd)).
  { unfold _fit_worker in Hrun.
    apply bind_inv in Hrun as [(agent & w1 & Hn & Hk)|(ex & _ & [= ])].
    unfold call_new in Hn.
    apply bind_inv in Hn as [(e & w0 & He & Hn)|(ex & _ & [= ])].
    apply read_env_inv in He as [-> He]. specialize (He e eq_refl).
    apply bind_inv in Hn as [(ikd & w0 & Hd & Hn)|(ex & _ & [= ])].
    apply read_dict_inv in Hd as [-> Hd]. specialize (Hd ikd eq_refl).
    destruct (AgentClass.new cls e ikd (seeder w)) as [[[ra e1] ik1] s1].
    inversion Hn; subst ra w1; clear Hn.
    unfold call_fit in Hk.
    apply bind_inv in Hk as [(e' & w0 & He' & Hk)|(ex & _ & [= ])].
    apply read_env_inv in He' as [-> _].
    apply bind_inv in Hk as [(fkd & w0 & Hd' & Hk)|(ex & _ & [= ])].
    apply read_dict_inv in Hd' as [-> Hd']. specialize (Hd' fkd eq_refl).
    simpl in Hd'. rewrite !lookup_insert_ne in Hd' by done.
    eauto 10. }
  destruct Hreads as (e & ikd & fkd & He & Hik & Hfk).
  exists e, ikd, fkd, (seeder w). simpl.
  rewrite <- (fit_worker_train cls te ik fk e ikd fkd w); try done.
  by rewrite Hrun.
Qed.

Lemma separated_cons D a rest :
  separated D (a :: rest) ->
  separated D rest /\
  NoDup (task_locs a) /\
  (forall l, l ∈ rest ≫= task_locs -> l ∉ task_locs a).
Proof.
  destruct a as [[[cls te] ik] fk].
  intros (Henvs & HD & Hkw & HkwD). simpl in *.
  apply NoDup_cons in Henvs as [Hte Henvs].
  apply NoDup_cons in Hkw as [Hik Hkw].
  apply NoDup_cons in Hkw as [Hfk Hkw].
  assert (HteD : te ∈ D) by (apply (HD (cls, te, ik, fk)); left).
  assert (HikD : ik ∉ D) by (apply HkwD; left).
  assert (HfkD : fk ∉ D) by (apply HkwD; right; left).
  split; [|split].
  - split; [done|]. split; [intros b Hb; apply HD; by right|].
    split; [done|]. intros l Hl. apply HkwD. by do 2 right.
  - unfold task_locs. simpl. repeat constructor; set_solver.
  - intros l Hl. apply list_elem_of_bind in Hl as (b & Hl & Hb).
    destruct b as [[[cls' te'] ik'] fk']. unfold task_locs in *. simpl in *.
    assert (Hte' : te' ∈ D) by (apply (HD (cls', te', ik', fk')); by right).
    assert (Hkw' : forall k, k ∈ [ik'; fk'] ->
                     k ∈ rest ≫= task_kwargs).
    { intros k Hk. apply list_elem_of_bind.
      exists (cls', te', ik', fk'). done. }
    assert (Hte'ne : te' <> te).
    { intros ->. apply Hte. apply list_elem_of_fmap.
      exists (cls', te, ik', fk'). done. }
    assert (Hik'D : ik' ∉ D).
    { apply HkwD. do 2 right. apply Hkw'. left. }
    assert (Hfk'D : fk' ∉ D).
    { apply HkwD. do 2 right. apply Hkw'. right; left. }
    assert (Hik' : ik' <> ik /\ ik' <> fk).
    { split; intros ->.
      - apply Hik. right. apply Hkw'. left.
      - apply Hfk. apply Hkw'. left. }
    assert (Hfk' : fk' <> ik /\ fk' <> fk).
    { split; intros ->.
      - apply Hik. right. apply Hkw'. right; left.
      - apply Hfk. apply Hkw'. right; left. }
    set_solver.
Qed.

(** Workers run in turn on tasks that share no object: each returns what
    [train] computes from the contents its objects had at the start. *)
Lemma run_in_process_trained D tasks h0 w outs w' :
  separated D tasks ->
  (forall l, l ∈ tasks ≫= task_locs ->
     l ∈ dom (heap w) /\ heap w !! l = h0 !! l) ->
  run_in_process tasks w = (Ok outs, w') ->
  Forall2 (trained_on h0) tasks outs.
Proof.
  revert w outs. induction tasks as [|a rest IH]; intros w outs Hsep Hh0.
  { simpl. intros [= <- <-]. constructor. }
  simpl.
  intros [(o & w1 & Ho & Hk)|(ex & _ & [= ])]%bind_inv.
  apply bind_inv in Hk as [(os & w2 & Hos & Hk)|(ex & _ & [= ])].
  inversion Hk; subst outs w2; clear Hk.
  apply separated_cons in Hsep as (Hsep & Hnd & Hdisj).
  constructor.
  - destruct a as [[[cls te] ik] fk]. unfold task_locs in Hnd. simpl in Hnd.
    apply NoDup_cons in Hnd as [Hte Hnd].
    apply NoDup_cons in Hnd as [Hik _].
    apply fit_worker_ok in Ho; [|set_solver..].
    destruct Ho as (e & ikd & fkd & s & He & Hi & Hf & Ht). simpl in *.
    exists e, ikd, fkd, s. simpl.
    destruct (Hh0 te) as [_ <-]; [set_solver|].
    destruct (Hh0 ik) as [_ <-]; [set_solver|].
    destruct (Hh0 fk) as [_ <-]; [set_solver|]. done.
  - apply (IH w1); [done| |done].
    intros l Hl.
    destruct (Hh0 l) as [Hd Hl0]; [set_solver|].
    apply fit_worker_modifies in Ho as [Hm _].
    split; [eapply modifies_dom; eauto|].
    rewrite <- Hl0. apply (modifies_heap _ _ _ _ Hm); [done|].
    intros Hin. apply elem_of_list_to_set in Hin. by apply (Hdisj l).
Qed.

Lemma run_in_process_modifies tasks w r w' :
  run_in_process tasks w = (r, w') ->
  modifies (list_to_set (tasks ≫= task_locs)) w w' /\ trace w' = trace w.
Proof.
  revert w r w'. induction tasks as [|a rest IH]; intros w r w'; simpl.
  { intros [= <- <-]. split; [apply modifies_refl|done]. }
  intros [(o & w1 & Ho & Hk)|(ex & Ho & _)]%bind_inv.
  - apply fit_worker_modifies in Ho as [Hm1 Ht1].
    assert (Hrest : modifies (list_to_set (rest ≫= task_locs)) w1 w' /\
                    trace w' = trace w1).
    { apply bind_inv in Hk as [(os & w2 & Hos & Hk)|(ex & Hos & _)].
      - inversion Hk; subst. eapply IH; eauto.
      - eapply IH; eauto. }
    destruct Hrest as [Hm2 Ht2]. split; [|congruence].
    eapply modifies_trans.
    + eapply modifies_mono; [|exact Hm1]. set_solver.
    + eapply modifies_mono; [|exact Hm2]. set_solver.
  - apply fit_worker_modifies in Ho as [Hm1 Ht1]. split; [|done].
    eapply modifies_mono; [|exact Hm1]. set_solver.
Qed.

Lemma run_in_subprocesses_trained D tasks w outs :
  separated D tasks ->
  run_in_subprocesses tasks w = Ok outs ->
  Forall2 (trained_on (heap w)) tasks outs.
Proof.
  revert outs. induction tasks as [|a rest IH]; intros outs Hsep; simpl.
  { intros [= <-]. constructor. }
  destruct (_fit_worker a w) as [[o|ex] w1] eqn:Ho; simpl; [|done].
  destruct (run_in_subprocesses rest w) as [os|ex] eqn:Hos; [|done].
  intros [= <-].
  apply separated_cons in Hsep as (Hsep & Hnd & _).
  constructor; [|by apply IH].
  destruct a as [[[cls te] ik] fk]. unfold task_locs in Hnd. simpl in Hnd.
  apply NoDup_cons in Hnd as [Hte Hnd].
  apply NoDup_cons in Hnd as [Hik _].
  eapply fit_worker_ok; [..|exact Ho]; set_solver.
Qed.

(** The joblib call: one event in the trace, and only task objects
    touched. *)
Lemma Parallel_modifies nj vb tasks w r w' :
  Parallel nj vb tasks w = (r, w') ->
  modifies (list_to_set (tasks ≫= task_locs)) w w' /\
  trace w' = trace w ++ [JoblibParallel nj vb tasks].
Proof.
  unfold Parallel, bind, emit, lift. simpl.
  destruct (joblib_backend nj) as [[|]|ex].
  - intros [Hm Ht]%run_in_process_modifies. split; [|by rewrite Ht].
    destruct Hm as [Hd Hf]. split; done.
  - intros [= <- <-]. split; [apply modifies_add_trace, modifies_refl|done].
  - intros [= <- <-]. split; [apply modifies_add_trace, modifies_refl|done].
Qed.

Lemma Parallel_trained D nj vb tasks w outs w' :
  separated D tasks ->
  (forall l, l ∈ tasks ≫= task_locs -> l ∈ dom (heap w)) ->
  Parallel nj vb tasks w = (Ok outs, w') ->
  Forall2 (trained_on (heap w)) tasks outs.
Proof.
  intros Hsep Hdom. unfold Parallel, bind, emit, lift. simpl.
  destruct (joblib_backend nj) as [[|]|ex]; [| |done].
  - intros Hrun. eapply run_in_process_trained; [exact Hsep| |exact Hrun].
    intros l Hl. split; [by apply Hdom|done].
  - intros [= Hrun <-].
    eapply (run_in_subprocesses_trained D) in Hrun; done.
Qed.

(** *** fit *)

(** The list comprehension of [fit]: one task per environment, in order,
    each with its own new copies of [init_kwargs] and [fit_kwargs]. *)
Lemma build_args_spec self envs w :
  init_kwargs self ∈ dom (heap w) ->
  fit_kwargs self ∈ dom (heap w) ->
  exists args w',
    build_args self envs w = (Ok args, w') /\
    modifies ∅ w w' /\
    trace w' = trace w /\
    task_env <$> args = envs /\
    Forall (fun a => a.1.1.1 = agent_class self /\
                     heap w' !! a.1.2 = heap w !! init_kwargs self /\
                     heap w' !! a.2 = heap w !! fit_kwargs self) args /\
    NoDup (args ≫= task_kwargs) /\
    (forall l, l ∈ args ≫= task_kwargs ->
       (l ∉ dom (heap w)) /\ l ∈ dom (heap w')).
Proof.
  revert w. induction envs as [|env rest IH]; intros w Hik Hfk; simpl.
  { exists [], w. split; [done|]. split; [apply modifies_refl|].
    split; [done|]. split; [done|]. split; [constructor|].
    split; [constructor|]. intros l Hl. by apply elem_of_nil in Hl. }
  pose proof Hik as [oik Hoi]%elem_of_dom.
  pose proof Hfk as [ofk Hof]%elem_of_dom.
  unfold bind at 1. unfold deepcopy at 1. rewrite Hoi, alloc_eq.
  set (l1 := fresh (dom (heap w))).
  set (w1 := set_heap (<[l1 := oik]> (heap w)) w).
  assert (Hl1 : l1 ∉ dom (heap w)) by apply fresh_not_in.
  assert (Hm1 : modifies ∅ w w1) by (by apply modifies_set_heap_fresh).
  assert (Hc1 : heap w1 !! l1 = Some oik) by apply lookup_insert_eq.
  assert (Ht1 : trace w1 = trace w) by done.
  clearbody w1 l1.
  assert (Hof1 : heap w1 !! fit_kwargs self = Some ofk).
  { rewrite (modifies_heap _ _ _ _ Hm1); [done|done|set_solver]. }
  unfold bind at 1. unfold deepcopy at 1. rewrite Hof1, alloc_eq.
  set (l2 := fresh (dom (heap w1))).
  set (w2 := set_heap (<[l2 := ofk]> (heap w1)) w1).
  assert (Hl2 : l2 ∉ dom (heap w1)) by apply fresh_not_in.
  assert (Hm2 : modifies ∅ w1 w2) by (by apply modifies_set_heap_fresh).
  assert (Hc2 : heap w2 !! l2 = Some ofk) by apply lookup_insert_eq.
  assert (Ht2 : trace w2 = trace w1) by done.
  clearbody w2 l2.
  assert (Hm02 : modifies ∅ w w2) by (eapply modifies_trans; eauto).
  assert (Hl1d : l1 ∈ dom (heap w1)) by (apply elem_of_dom; eauto).
  assert (Hl2d : l2 ∈ dom (heap w2)) by (apply elem_of_dom; eauto).
  assert (Hl1d2 : l1 ∈ dom (heap w2))
    by (eapply modifies_dom; [exact Hm2|done]).
  destruct (IH w2) as (args & w' & Hrun & Hm & Ht & Henvs & Hall & Hnd & Hfr).
  { eapply modifies_dom; [exact Hm02|done]. }
  { eapply modifies_dom; [exact Hm02|done]. }
  unfold bind at 1. rewrite Hrun. unfold ret.
  exists ((agent_class self, env, l1, l2) :: args), w'.
  split; [done|]. split; [eapply modifies_trans; eauto|].
  split; [congruence|]. split; [simpl; by f_equal|].
  split.
  { constructor; simpl.
    - split; [done|]. split.
      + rewrite (modifies_heap _ _ _ _ Hm); [|done|set_solver].
        rewrite (modifies_heap _ _ _ _ Hm2); [|done|set_solver].
        congruence.
      + rewrite (modifies_heap _ _ _ _ Hm); [|done|set_solver].
        congruence.
    - eapply Forall_impl; [exact Hall|]. simpl.
      intros a (Hcls & Hi & Hf). split; [done|].
      rewrite Hi, Hf.
      rewrite !(modifies_heap _ _ _ _ Hm02); [done|done|set_solver..]. }
  split.
  { simpl. constructor.
    - intros [->|Hin]%elem_of_cons; [done|].
      apply Hfr in Hin as [Hin _]. done.
    - constructor; [|done]. intros Hin. apply Hfr in Hin as [Hin _]. done. }
  intros l. simpl. intros [->|[->|Hin]%elem_of_cons]%elem_of_cons.
  - split; [done|]. eapply modifies_dom; [exact Hm|done].
  - split; [|eapply modifies_dom; [exact Hm|done]].
    intros Hin. apply Hl2. eapply modifies_dom; [exact Hm1|done].
  - apply Hfr in Hin as [Hin1 Hin2]. split; [|done].
    intros Hl. apply Hin1. eapply modifies_dom; [exact Hm02|done].
Qed.

Lemma collect_ok entry stats acc l :
  collect entry stats acc = (Ok tt, l) ->
  exists col, l = acc ++ col /\
    Forall2 (fun (stat : gmap string Stat) x => stat !! entry = Some x)
            stats col.
Proof.
  revert acc. induction stats as [|stat rest IH]; intros acc; simpl.
  { intros [= <-]. exists []. split; [by rewrite app_nil_r|constructor]. }
  destruct (stat !! entry) as [x|] eqn:Hx; [|done].
  intros (col & -> & Hcol)%IH. exists (x :: col).
  split; [by rewrite <- app_assoc|]. by constructor.
Qed.

Lemma gather_other entries stats (fs : gmap string (list Stat)) r fs' k :
  gather entries stats fs = (r, fs') -> k ∉ entries -> fs' !! k = fs !! k.
Proof.
  revert fs. induction entries as [|entry rest IH]; intros fs; simpl.
  { by intros [= _ <-]. }
  destruct (collect entry stats []) as [rc l].
  intros Hg Hk. apply not_elem_of_cons in Hk as [Hne Hk].
  destruct rc as [[]|ex].
  - rewrite (IH _ Hg Hk). by apply lookup_insert_ne.
  - inversion Hg; subst. by apply lookup_insert_ne.
Qed.

(** The gathering loop, when it completes: every entry maps to the list of
    that entry of every worker's statistics, in order. *)
Lemma gather_ok entries stats (fs fs' : gmap string (list Stat)) :
  gather entries stats fs = (Ok tt, fs') ->
  forall entry, entry ∈ entries ->
    exists col, fs' !! entry = Some col /\
      Forall2 (fun (stat : gmap string Stat) x => stat !! entry = Some x)
              stats col.
Proof.
  revert fs. induction entries as [|e rest IH]; intros fs; simpl.
  { intros _ entry Hin. by apply elem_of_nil in Hin. }
  destruct (collect e stats []) as [rc l] eqn:Hc.
  destruct rc as [[]|ex]; [|done].
  intros Hg entry Hin.
  destruct (decide (entry ∈ rest)) as [Hrest|Hrest]; [by eapply IH|].
  apply elem_of_cons in Hin as [->|Hin]; [|done].
  rewrite (gather_other _ _ _ _ _ _ Hg Hrest), lookup_insert_eq.
  apply collect_ok in Hc as (col & -> & Hcol). eauto.
Qed.

Lemma print_if_verbose_inv vb text w r w' :
  print_if_verbose vb text w = (r, w') ->
  heap w' = heap w /\ joblib_calls (trace w') = joblib_calls (trace w) /\
  seeder w' = seeder w.
Proof.
  unfold print_if_verbose, emit, ret. destruct (0 <? vb).
  - intros [= <- <-]. simpl. split; [done|]. split; [|done].
    unfold joblib_calls. rewrite omap_app. simpl. by rewrite app_nil_r.
  - by intros [= <- <-].
Qed.

Lemma joblib_calls_app tr ev :
  joblib_calls (tr ++ [ev]) =
    joblib_calls tr ++ joblib_calls [ev].
Proof. unfold joblib_calls. by rewrite omap_app. Qed.

(** [fit] laid out: the tasks it builds, the one joblib call it makes, and
    what it stores when the call returns. *)
Lemma fit_unfold self w :
  init_kwargs self ∈ dom (heap w) ->
  fit_kwargs self ∈ dom (heap w) ->
  exists tasks w2,
    modifies ∅ w w2 /\
    joblib_calls (trace w2) = joblib_calls (trace w) /\
    task_env <$> tasks = train_env_set self /\
    Forall (fun a => a.1.1.1 = agent_class self /\
                     heap w2 !! a.1.2 = heap w !! init_kwargs self /\
                     heap w2 !! a.2 = heap w !! fit_kwargs self) tasks /\
    NoDup (tasks ≫= task_kwargs) /\
    (forall l, l ∈ tasks ≫= task_kwargs ->
       (l ∉ dom (heap w)) /\ l ∈ dom (heap w2)) /\
    fit self w =
      match Parallel (n_jobs self) (verbose self) tasks w2 with
      | (Raise e, w3) => (Raise e, self, w3)
      | (Ok workers_output, w3) =>
          let self1 := set_fitted_agents (Some (workers_output.*1)) self in
          let '(r, fs') :=
            gather (fit_info self) (workers_output.*2) (fit_statistics self) in
          (r, set_fit_statistics fs' self1,
           (print_if_verbose (verbose self)
              (NL +:+ " ... trained! " +:+ NL) w3).2)
      end.
Proof.
  intros Hik Hfk. unfold fit.
  destruct (print_if_verbose (verbose self) _ w) as [r1 w1] eqn:Hp.
  apply print_if_verbose_inv in Hp as (Hh1 & Hj1 & _).
  destruct (build_args_spec self (train_env_set self) w1)
    as (tasks & w2 & Hrun & Hm & Ht & Henvs & Hall & Hnd & Hfr).
  { by rewrite Hh1. } { by rewrite Hh1. }
  exists tasks, w2. rewrite Hrun.
  split; [destruct Hm as [Hd Hf]; split; rewrite <- Hh1; done|].
  split; [by rewrite Ht|]. split; [done|].
  split; [by rewrite <- Hh1|]. split; [done|].
  split; [by rewrite <- Hh1|].
  destruct (Parallel (n_jobs self) (verbose self) tasks w2)
    as [[wo|ex] w3]; [|done].
  simpl. destruct (print_if_verbose (verbose self) _ w3) as [r4 w4].
  simpl. by destruct (gather _ _ _).
Qed.

Lemma elem_of_task_locs (tasks : list worker_args) l :
  l ∈ tasks ≫= task_locs ->
  l ∈ task_env <$> tasks \/ l ∈ tasks ≫= task_kwargs.
Proof.
  intros (a & Hl & Ha)%list_elem_of_bind.
  unfold task_locs in Hl. apply elem_of_cons in Hl as [->|Hl].
  - left. apply list_elem_of_fmap. by exists a.
  - right. apply list_elem_of_bind. by exists a.
Qed.

Lemma same_config_refl self : same_config self self.
Proof. by repeat split. Qed.

Lemma same_config_trans s1 s2 s3 :
  same_config s1 s2 -> same_config s2 s3 -> same_config s1 s3.
Proof. unfold same_config. intros ? ?. intuition congruence. Qed.

(** [fit] changes no reference of the object, touches only the training
    environments, and makes exactly one joblib call. *)
Lemma fit_effect self w r self' w' :
  init_kwargs self ∈ dom (heap w) ->
  fit_kwargs self ∈ dom (heap w) ->
  fit self w = (r, self', w') ->
  same_config self self' /\
  modifies (list_to_set (train_env_set self)) w w' /\
  exists tasks,
    joblib_calls (trace w')
      = joblib_calls (trace w) ++ [(n_jobs self, verbose self, tasks)] /\
    task_env <$> tasks = train_env_set self /\
    Forall (fun a => a.1.1.1 = agent_class self) tasks /\
    (forall l, l ∈ tasks ≫= task_kwargs -> l ∉ dom (heap w)).
Proof.
  intros Hik Hfk.
  destruct (fit_unfold self w Hik Hfk)
    as (tasks & w2 & Hm2 & Hj2 & Henvs & Hall & Hnd & Hfr & ->).
  destruct (Parallel (n_jobs self) (verbose self) tasks w2)
    as [rp w3] eqn:Hp.
  apply Parallel_modifies in Hp as [Hm3 Ht3].
  assert (Hm03 : modifies (list_to_set (train_env_set self)) w w3).
  { eapply modifies_trans_fresh; [|exact Hm3|].
    - eapply modifies_mono; [|exact Hm2]. set_solver.
    - intros l Hl%elem_of_list_to_set Hd.
      apply elem_of_task_locs in Hl as [Hl|Hl].
      + rewrite Henvs in Hl. by apply elem_of_list_to_set.
      + apply Hfr in Hl as [Hl _]. done. }
  assert (Hj03 : joblib_calls (trace w3)
                 = joblib_calls (trace w)
                   ++ [(n_jobs self, verbose self, tasks)]).
  { rewrite Ht3, joblib_calls_app, Hj2. done. }
  assert (Htasks : Forall (fun a => a.1.1.1 = agent_class self) tasks).
  { eapply Forall_impl; [exact Hall|]. by intros a (? & _). }
  destruct rp as [wo|ex].
  - destruct (print_if_verbose (verbose self) _ w3) as [r4 w4] eqn:Hp4.
    apply print_if_verbose_inv in Hp4 as (Hh4 & Hj4 & _). simpl.
    destruct (gather _ _ _) as [rg fs'].
    intros [= <- <- <-].
    split; [by repeat split|].
    split; [destruct Hm03 as [Hd Hf]; split; rewrite Hh4; done|].
    exists tasks. split; [by rewrite Hj4|]. split; [done|]. split; [done|].
    intros l Hl. by apply Hfr.
  - intros [= <- <- <-]. split; [apply same_config_refl|].
    split; [done|]. exists tasks. split; [done|]. split; [done|].
    split; [done|]. intros l Hl. by apply Hfr.
Qed.

(** When [fit] returns, one worker was run per training environment, in
    order, and the statistics are gathered per entry, in the same order. *)
Lemma fit_ok self w self' w' :
  attached self w ->
  fit self w = (Ok tt, self', w') ->
  exists outs,
    Forall2 (fitted_on self (heap w)) (train_env_set self) outs /\
    fitted_agents self' = Some (outs.*1) /\
    forall entry, entry ∈ fit_info self ->
      exists col, fit_statistics self' !! entry = Some col /\
        Forall2 (fun (out : Agent * gmap string Stat) x =>
                   out.2 !! entry = Some x) outs col.
Proof.
  intros (Hlen & Hnd & Hlive & Hik & Hfk & Hikn & Hfkn & Hinfo & _).
  destruct (fit_unfold self w Hik Hfk)
    as (tasks & w2 & Hm2 & Hj2 & Henvs & Hall & Hndk & Hfr & ->).
  destruct (Parallel (n_jobs self) (verbose self) tasks w2)
    as [[outs|ex] w3] eqn:Hp; [|done].
  simpl. destruct (gather _ _ _) as [rg fs'] eqn:Hg.
  intros [= -> <- <-]. exists outs.
  assert (Hsep : separated (dom (heap w)) tasks).
  { split; [by rewrite Henvs|]. split.
    - intros a Ha. apply Hlive. rewrite <- Henvs.
      apply list_elem_of_fmap. by exists a.
    - split; [done|]. intros l Hl. by apply Hfr. }
  apply (Parallel_trained (dom (heap w))) in Hp; [|done|].
  2:{ intros l [Hl|Hl]%elem_of_task_locs.
      - eapply modifies_dom; [exact Hm2|]. apply Hlive. by rewrite <- Henvs.
      - by apply Hfr. }
  split; [|split; [done|]].
  - assert (Hlive' : forall a, a ∈ tasks -> task_env a ∈ dom (heap w)).
    { intros a Ha. apply Hlive. rewrite <- Henvs.
      apply list_elem_of_fmap. by exists a. }
    rewrite <- Henvs. clear Hg Hsep Henvs Hndk Hfr.
    induction Hp as [|a out tasks' outs' Ha Hrest IH]; [constructor|].
    apply Forall_cons in Hall as [(Hcls & Hi & Hf) Hall].
    simpl. constructor.
    + destruct Ha as (e & ikd & fkd & s & He & Hikd & Hfkd & Ht).
      exists e, ikd, fkd, s. unfold task_env.
      rewrite <- (modifies_heap ∅ w w2 (a.1.1.2) Hm2);
        [|apply (Hlive' a); left|set_solver].
      rewrite <- Hi, <- Hf, <- Hcls. done.
    + apply IH; [done|]. intros b Hb. apply Hlive'. by right.
  - intros entry Hin. simpl in Hg.
    destruct (gather_ok _ _ _ _ Hg entry Hin) as (col & Hcol & Hall2).
    exists col. split; [done|]. by apply Forall2_fmap_l in Hall2.
Qed.

(** The invariant of constructed objects is kept by [fit]. *)
Lemma fit_attached self w r self' w' :
  attached self w ->
  fit self w = (r, self', w') ->
  attached self' w'.
Proof.
  intros Hatt Hfit.
  pose proof Hatt as (Hlen & Hnd & Hlive & Hik & Hfk & Hikn & Hfkn & Hinfo &
                      Hte & Hev & Hpk).
  destruct (fit_effect _ _ _ _ _ Hik Hfk Hfit) as (Hcfg & Hm & _).
  destruct Hcfg as (_ & _ & Hfi & Hcls & Hte' & Hev' & _ & Hik' & Hfk' &
                    Hpk' & Hnf & _ & _ & _ & Henvs & _).
  unfold attached.
  rewrite Hfi, Hcls, Hik', Hfk', Hnf, Henvs, Hte', Hev', Hpk'.
  split; [done|]. split; [done|].
  split; [intros l Hl; eapply modifies_dom; [exact Hm|by apply Hlive]|].
  split; [eapply modifies_dom; [exact Hm|done]|].
  split; [eapply modifies_dom; [exact Hm|done]|].
  split; [done|]. split; [done|]. split; [done|].
  split; [intros l Hl; eapply modifies_dom; [exact Hm|by apply Hte]|].
  split; eapply modifies_dom; [exact Hm|done|exact Hm|done].
Qed.

(** What the constructor builds is attached. *)
Lemma built_attached cls l0 ev eh ik fk pk name nf nj dir vb w self w' :
  built cls l0 ev eh ik fk pk name nf nj dir vb w self w' ->
  attached self w'.
Proof.
  intros Hb. unfold attached.
  rewrite (b_n_fit _ _ _ _ _ _ _ _ _ _ _ _ _ _ _ Hb).
  split; [apply (b_envs_length _ _ _ _ _ _ _ _ _ _ _ _ _ _ _ Hb)|].
  split; [apply (b_envs_nodup _ _ _ _ _ _ _ _ _ _ _ _ _ _ _ Hb)|].
  split; [intros l Hl;
          by apply (b_envs_fresh _ _ _ _ _ _ _ _ _ _ _ _ _ _ _ Hb)|].
  split; [apply (b_init_kwargs_live _ _ _ _ _ _ _ _ _ _ _ _ _ _ _ Hb)|].
  split; [apply (b_fit_kwargs_live _ _ _ _ _ _ _ _ _ _ _ _ _ _ _ Hb)|].
  split; [apply (b_envs_not_kwargs _ _ _ _ _ _ _ _ _ _ _ _ _ _ _ Hb)|].
  split; [apply (b_envs_not_kwargs _ _ _ _ _ _ _ _ _ _ _ _ _ _ _ Hb)|].
  rewrite (b_agent_class _ _ _ _ _ _ _ _ _ _ _ _ _ _ _ Hb).
  split; [apply (b_fit_info _ _ _ _ _ _ _ _ _ _ _ _ _ _ _ Hb)|].
  rewrite (b_train_env _ _ _ _ _ _ _ _ _ _ _ _ _ _ _ Hb).
  split.
  { intros l [= <-].
    destruct (b_envs_copies _ _ _ _ _ _ _ _ _ _ _ _ _ _ _ Hb)
      as (e0 & s0 & He0 & _).
    eapply modifies_dom;
      [exact (b_modifies _ _ _ _ _ _ _ _ _ _ _ _ _ _ _ Hb)|].
    apply elem_of_dom. eauto. }
  split; [|apply (b_policy_live _ _ _ _ _ _ _ _ _ _ _ _ _ _ _ Hb)].
  destruct (b_eval_copy _ _ _ _ _ _ _ _ _ _ _ _ _ _ _ Hb) as (e & _ & He).
  apply elem_of_dom. eauto.
Qed.

Lemma fit_n_effect k self w :
  attached self w ->
  same_config self (fit_n k self w).1 /\
  attached (fit_n k self w).1 (fit_n k self w).2 /\
  modifies (list_to_set (train_env_set self)) w (fit_n k self w).2.
Proof.
  revert self w. induction k as [|k IH]; intros self w Hatt; simpl.
  { split; [apply same_config_refl|]. split; [done|apply modifies_refl]. }
  destruct (fit self w) as [[r self1] w1] eqn:Hfit.
  pose proof (fit_attached _ _ _ _ _ Hatt Hfit) as Hatt1.
  pose proof Hatt as (_ & _ & _ & Hik & Hfk & _).
  destruct (fit_effect _ _ _ _ _ Hik Hfk Hfit) as (Hcfg & Hm & _).
  destruct (IH self1 w1 Hatt1) as (Hcfg' & Hatt' & Hm').
  split; [eapply same_config_trans; eauto|]. split; [done|].
  eapply modifies_trans; [exact Hm|].
  destruct Hcfg as (_ & _ & _ & _ & _ & _ & _ & _ & _ & _ & _ & _ & _ & _ &
                    Henvs & _).
  by rewrite <- Henvs.
Qed.

(** *** When fit returns *)

Lemma collect_returns entry (stats : list (gmap string Stat)) acc :
  Forall (fun stat => is_Some (stat !! entry)) stats ->
  exists l, collect entry stats acc = (Ok tt, l).
Proof.
  revert acc. induction stats as [|stat rest IH]; intros acc Hall; simpl.
  { eauto. }
  apply Forall_cons in Hall as [[x Hx] Hall]. rewrite Hx. by apply IH.
Qed.

Lemma gather_returns entries (stats : list (gmap string Stat)) fs :
  Forall (fun stat => forall entry, entry ∈ entries -> is_Some (stat !! entry))
         stats ->
  exists fs', gather entries stats fs = (Ok tt, fs').
Proof.
  revert fs. induction entries as [|entry rest IH]; intros fs Hall; simpl.
  { eauto. }
  destruct (collect_returns entry stats []) as [l Hl].
  { eapply Forall_impl; [exact Hall|]. intros stat Hs. apply Hs. by left. }
  rewrite Hl. apply IH. eapply Forall_impl; [exact Hall|].
  intros stat Hs k Hk. apply Hs. by right.
Qed.

(** A worker handed three distinct objects of the right kinds, for a class
    that always trains, returns. *)
Lemma fit_worker_returns cls te ik fk w :
  te <> ik -> te <> fk -> ik <> fk ->
  (exists e, heap w !! te = Some (EnvObj e)) ->
  (exists d, heap w !! ik = Some (DictObj d)) ->
  (exists d, heap w !! fk = Some (DictObj d)) ->
  always_trains cls ->
  exists out w',
    _fit_worker (cls, te, ik, fk) w = (Ok out, w') /\
    forall entry, entry ∈ AgentClass.fit_info cls -> is_Some (out.2 !! entry).
Proof.
  intros Hti Htf Hif [e He] [ikd Hik] [fkd Hfk] Htr.
  destruct (Htr e ikd fkd (seeder w)) as (out & Hout & Hent).
  pose proof (fit_worker_train cls te ik fk e ikd fkd w Hti Htf Hif He Hik Hfk)
    as Hw.
  rewrite Hout in Hw.
  destruct (_fit_worker (cls, te, ik, fk) w) as [r w'] eqn:Hrun.
  simpl in Hw. subst r. eauto.
Qed.

Lemma run_in_process_returns D tasks w :
  separated D tasks ->
  Forall (fun a => (exists e, heap w !! a.1.1.2 = Some (EnvObj e)) /\
                   (exists d, heap w !! a.1.2 = Some (DictObj d)) /\
                   (exists d, heap w !! a.2 = Some (DictObj d)) /\
                   always_trains a.1.1.1) tasks ->
  exists outs w',
    run_in_process tasks w = (Ok outs, w') /\
    Forall2 (fun (a : worker_args) (out : Agent * gmap string Stat) =>
               forall entry, entry ∈ AgentClass.fit_info a.1.1.1 ->
                 is_Some (out.2 !! entry)) tasks outs.
Proof.
  revert w. induction tasks as [|a rest IH]; intros w Hsep Hall.
  { exists [], w. split; [done|constructor]. }
  apply separated_cons in Hsep as (Hsep & Hnd & Hdisj).
  apply Forall_cons in Hall as [(He & Hik & Hfk & Htr) Hall].
  destruct a as [[[cls te] ik] fk]. unfold task_locs in Hnd, Hdisj.
  simpl in Hnd, Hdisj, He, Hik, Hfk, Htr.
  apply NoDup_cons in Hnd as [Hte Hnd]. apply NoDup_cons in Hnd as [Hik' _].
  destruct (fit_worker_returns cls te ik fk w) as (out & w1 & Hrun & Hent);
    [set_solver|set_solver|set_solver|done|done|done|done|].
  pose proof (fit_worker_modifies _ _ _ _ Hrun) as [Hm _].
  destruct (IH w1 Hsep) as (outs & w' & Hrest & Hall2).
  { apply Forall_forall. intros b Hb.
    rewrite Forall_forall in Hall.
    destruct (Hall b Hb) as ([e Hbe] & [di Hbi] & [df Hbf] & Hbt).
    assert (Hkeep : forall l, l ∈ task_locs b -> heap w1 !! l = heap w !! l).
    { intros l Hl. apply (modifies_heap _ _ _ _ Hm).
      - unfold task_locs in Hl.
        apply elem_of_cons in Hl as [->|Hl]; [apply elem_of_dom; eauto|].
        apply elem_of_cons in Hl as [->|Hl]; [apply elem_of_dom; eauto|].
        apply list_elem_of_singleton in Hl as ->. apply elem_of_dom; eauto.
      - intros Hin%elem_of_list_to_set. apply (Hdisj l); [|exact Hin].
        apply list_elem_of_bind. exists b. done. }
    rewrite !Hkeep by (unfold task_locs; set_solver). eauto 10. }
  exists (out :: outs), w'. split; [|constructor; done].
  change (run_in_process ((cls, te, ik, fk) :: rest) w) with
    (match _fit_worker (cls, te, ik, fk) w with
     | (Ok o, w1) =>
         match run_in_process rest w1 with
         | (Ok os, w2) => (Ok (o :: os), w2)
         | (Raise e, w2) => (Raise e, w2)
         end
     | (Raise e, w1) => (Raise e, w1)
     end).
  rewrite Hrun, Hrest. done.
Qed.

Lemma run_in_subprocesses_returns D tasks w :
  separated D tasks ->
  Forall (fun a => (exists e, heap w !! a.1.1.2 = Some (EnvObj e)) /\
                   (exists d, heap w !! a.1.2 = Some (DictObj d)) /\
                   (exists d, heap w !! a.2 = Some (DictObj d)) /\
                   always_trains a.1.1.1) tasks ->
  exists outs,
    run_in_subprocesses tasks w = Ok outs /\
    Forall2 (fun (a : worker_args) (out : Agent * gmap string Stat) =>
               forall entry, entry ∈ AgentClass.fit_info a.1.1.1 ->
                 is_Some (out.2 !! entry)) tasks outs.
Proof.
  induction tasks as [|a rest IH]; intros Hsep Hall.
  { exists []. split; [done|constructor]. }
  apply separated_cons in Hsep as (Hsep & Hnd & _).
  apply Forall_cons in Hall as [(He & Hik & Hfk & Htr) Hall].
  destruct a as [[[cls te] ik] fk]. unfold task_locs in Hnd.
  simpl in Hnd, He, Hik, Hfk, Htr.
  apply NoDup_cons in Hnd as [Hte Hnd]. apply NoDup_cons in Hnd as [Hik' _].
  destruct (fit_worker_returns cls te ik fk w) as (out & w1 & Hrun & Hent);
    [set_solver|set_solver|set_solver|done|done|done|done|].
  destruct (IH Hsep Hall) as (outs & Hrest & Hall2).
  exists (out :: outs). split; [|constructor; done].
  change (run_in_subprocesses ((cls, te, ik, fk) :: rest) w) with
    (match (_fit_worker (cls, te, ik, fk) w).1 with
     | Raise e => Raise e
     | Ok o =>
         match run_in_subprocesses rest w with
         | Raise e => Raise e
         | Ok os => Ok (o :: os)
         end
     end).
  rewrite Hrun. simpl. rewrite Hrest. done.
Qed.

Lemma Parallel_returns D nj vb tasks w b :
  separated D tasks ->
  Forall (fun a => (exists e, heap w !! a.1.1.2 = Some (EnvObj e)) /\
                   (exists d, heap w !! a.1.2 = Some (DictObj d)) /\
                   (exists d, heap w !! a.2 = Some (DictObj d)) /\
                   always_trains a.1.1.1) tasks ->
  joblib_backend nj = Ok b ->
  exists outs w',
    Parallel nj vb tasks w = (Ok outs, w') /\
    Forall2 (fun (a : worker_args) (out : Agent * gmap string Stat) =>
               forall entry, entry ∈ AgentClass.fit_info a.1.1.1 ->
                 is_Some (out.2 !! entry)) tasks outs.
Proof.
  intros Hsep Hall Hb. unfold Parallel, bind, emit, lift. rewrite Hb.
  destruct b.
  - apply (run_in_process_returns D); done.
  - destruct (run_in_subprocesses_returns D tasks
                (add_trace (JoblibParallel nj vb tasks) w) Hsep Hall)
      as (outs & Hrun & Hall2).
    rewrite Hrun. eauto.
Qed.

(** [fit] returns when joblib accepts [n_jobs], the training environments
    and the two keyword dictionaries are what they should be, and the
    workers of the class succeed. *)
Lemma fit_returns self w b :
  attached self w ->
  (forall l, l ∈ train_env_set self ->
     exists e, heap w !! l = Some (EnvObj e)) ->
  (exists d, heap w !! init_kwargs self = Some (DictObj d)) ->
  (exists d, heap w !! fit_kwargs self = Some (DictObj d)) ->
  joblib_backend (n_jobs self) = Ok b ->
  always_trains (agent_class self) ->
  exists self' w', fit self w = (Ok tt, self', w').
Proof.
  intros (Hlen & Hnd & Hlive & Hik & Hfk & Hikn & Hfkn & Hinfo & _)
         Henv Hikd Hfkd Hb Htr.
  destruct (fit_unfold self w Hik Hfk)
    as (tasks & w2 & Hm2 & Hj2 & Henvs & Hall & Hndk & Hfr & ->).
  assert (Hsep : separated (dom (heap w)) tasks).
  { split; [by rewrite Henvs|]. split.
    - intros a Ha. apply Hlive. rewrite <- Henvs.
      apply list_elem_of_fmap. by exists a.
    - split; [done|]. intros l Hl. by apply Hfr. }
  destruct (Parallel_returns (dom (heap w)) (n_jobs self) (verbose self)
              tasks w2 b Hsep) as (outs & w3 & Hp & Hall2); [|done|].
  { rewrite Forall_forall in Hall. apply Forall_forall. intros a Ha.
    destruct (Hall a Ha) as (Hcls & Hi & Hf).
    rewrite Hi, Hf, Hcls. split; [|done].
    assert (Hin : a.1.1.2 ∈ train_env_set self).
    { rewrite <- Henvs. apply list_elem_of_fmap. by exists a. }
    destruct (Henv _ Hin) as [e He]. exists e.
    rewrite (modifies_heap _ _ _ _ Hm2); [done|by apply Hlive|set_solver]. }
  rewrite Hp. simpl.
  destruct (gather_returns (fit_info self) (outs.*2) (fit_statistics self))
    as [fs' Hg].
  { apply Forall_fmap. apply Forall_forall. intros out Hout.
    apply list_elem_of_lookup in Hout as [i Hi].
    destruct (Forall2_lookup_r _ _ _ _ _ Hall2 Hi) as (a & Ha & Hent).
    intros entry Hentry. apply Hent.
    rewrite Forall_forall in Hall.
    destruct (Hall a) as (-> & _); [by eapply list_elem_of_lookup_2|].
    by rewrite <- Hinfo. }
  rewrite Hg. eauto.
Qed.

(** C2.  For a class, an environment and any [n_fit >= 0], the constructor
    returns an object with exactly [n_fit] training environments: new
    objects, pairwise distinct, that hold the environment reseeded
    [n_fit] times in a row (one [reseed()] per copy), while the
    environment handed in stays as it was.  [fit] on that object makes
    exactly one joblib call, with [n_jobs] and [verbose] as given and one
    task per training environment, in order and for the class; and when
    [fit] returns, [fitted_agents] holds one agent per training
    environment, the one its worker trained on it.  And [fit] does return,
    with exactly [n_fit] agents, whenever joblib accepts [n_jobs],
    [init_kwargs] and [fit_kwargs] are dictionaries and the workers of the
    class succeed, whether joblib runs the tasks in the calling process or
    in worker processes. *)
Theorem constructor_replicas_and_joblib_delegation
    cls l0 e0 ev eh ik fk pk name nf nj dir vb w :
  0 <= nf ->
  heap w !! l0 = Some (EnvObj e0) ->
  (forall l, ev = Some l -> exists e, heap w !! l = Some (EnvObj e)) ->
  (forall l, ik = Some l -> l ∈ dom (heap w)) ->
  (forall l, fk = Some l -> l ∈ dom (heap w)) ->
  (forall l, pk = Some l -> l ∈ dom (heap w)) ->
  exists self w1,
    __init__ (Some cls) (Some l0) ev eh ik fk pk name nf nj dir vb w
      = (Ok (Some self), w1) /\
    Z.of_nat (length (train_env_set self)) = nf /\
    NoDup (train_env_set self) /\
    (forall l, l ∈ train_env_set self -> l ∉ dom (heap w)) /\
    (exists s0,
       (fun l => heap w1 !! l) <$> train_env_set self
         = (fun e' => Some (EnvObj e')) <$> (reseeds (Z.to_nat nf) e0 s0).1) /\
    heap w1 !! l0 = Some (EnvObj e0) /\
    joblib_calls (trace w1) = joblib_calls (trace w) /\
    exists tasks,
      joblib_calls (trace (fit self w1).2)
        = joblib_calls (trace w1) ++ [(nj, vb, tasks)] /\
      task_env <$> tasks = train_env_set self /\
      Forall (fun a => a.1.1.1 = cls) tasks /\
      (forall self', (fit self w1).1 = (Ok tt, self') ->
         exists outs,
           Forall2 (fitted_on self (heap w1)) (train_env_set self) outs /\
           fitted_agents self' = Some (outs.*1)) /\
      (forall b,
         joblib_backend nj = Ok b ->
         always_trains cls ->
         (forall l, ik = Some l -> exists d, heap w !! l = Some (DictObj d)) ->
         (forall l, fk = Some l -> exists d, heap w !! l = Some (DictObj d)) ->
         exists self' w2 outs,
           fit self w1 = (Ok tt, self', w2) /\
           Forall2 (fitted_on self (heap w1)) (train_env_set self) outs /\
           Z.of_nat (length outs) = nf /\
           fitted_agents self' = Some (outs.*1)).
Proof.
  intros Hnf He0 Hev Hik Hfk Hpk.
  destruct (init_spec cls l0 e0 ev eh ik fk pk name nf nj dir vb w)
    as (self & w1 & Hinit & Hb); try done.
  exists self, w1. split; [done|].
  pose proof (built_attached _ _ _ _ _ _ _ _ _ _ _ _ _ _ _ Hb) as Hatt.
  destruct Hb.
  split; [lia|]. split; [done|].
  split; [intros l Hl; by apply b_envs_fresh0|].
  split.
  { destruct b_envs_copies0 as (e0' & s0 & He0' & Hc).
    assert (e0' = e0) by congruence. subst e0'. eauto. }
  split.
  { rewrite (modifies_heap _ _ _ _ b_modifies0); [done| |set_solver].
    apply elem_of_dom. eauto. }
  split; [by rewrite b_trace0|].
  assert (Hreturns : forall b,
            joblib_backend nj = Ok b ->
            always_trains cls ->
            (forall l, ik = Some l ->
               exists d, heap w !! l = Some (DictObj d)) ->
            (forall l, fk = Some l ->
               exists d, heap w !! l = Some (DictObj d)) ->
            exists self' w2, fit self w1 = (Ok tt, self', w2)).
  { intros b Hjb Htr Hikd Hfkd.
    apply (fit_returns self w1 b Hatt).
    - intros l Hl. destruct b_envs_copies0 as (e0' & s0 & _ & Hc).
      apply list_elem_of_lookup in Hl as [i Hi].
      apply (f_equal (fun xs => xs !! i)) in Hc.
      rewrite !list_lookup_fmap, Hi in Hc. simpl in Hc.
      destruct (_ !! i) as [e'|]; [|done]. exists e'. by inversion Hc.
    - destruct ik as [l|].
      + destruct (Hikd l eq_refl) as [d Hd]. exists d.
        rewrite (b_init_kwargs_given0 l eq_refl).
        rewrite (modifies_heap _ _ _ _ b_modifies0); [done| |set_solver].
        apply elem_of_dom. eauto.
      + exists ∅. by apply b_init_kwargs_new0.
    - destruct fk as [l|].
      + destruct (Hfkd l eq_refl) as [d Hd]. exists d.
        rewrite (b_fit_kwargs_given0 l eq_refl).
        rewrite (modifies_heap _ _ _ _ b_modifies0); [done| |set_solver].
        apply elem_of_dom. eauto.
      + exists ∅. by apply b_fit_kwargs_new0.
    - by rewrite b_n_jobs0.
    - by rewrite b_agent_class0. }
  destruct (fit self w1) as [[r self'] w2] eqn:Hfit.
  destruct (fit_effect _ _ _ _ _ b_init_kwargs_live0 b_fit_kwargs_live0 Hfit)
    as (_ & _ & tasks & Hj & Henvs & Hcls & _).
  exists tasks. simpl. rewrite <- b_n_jobs0, <- b_verbose0.
  split; [done|]. split; [done|].
  split; [by rewrite <- b_agent_class0|].
  split.
  - intros self'' [= -> <-].
    destruct (fit_ok _ _ _ _ Hatt Hfit) as (outs & Houts & Hfa & _).
    eauto.
  - intros b Hjb Htr Hikd Hfkd. rewrite b_n_jobs0 in Hjb.
    destruct (Hreturns b Hjb Htr Hikd Hfkd) as (s2 & w3 & [= -> <- <-]).
    destruct (fit_ok _ _ _ _ Hatt Hfit) as (outs & Houts & Hfa & _).
    exists self', w2, outs. split; [done|]. split; [done|]. split; [|done].
    apply Forall2_length in Houts. rewrite <- Houts, b_envs_length0. lia.
Qed.

(** C3.  When [fit] returns on an object whose attributes are live,
    [fitted_agents] is the list of the agents returned by the workers, one
    per training environment and in the order of [train_env_set], so
    [n_fit] of them; and for every entry of the class's [fit_info],
    [fit_statistics[entry]] is a list of the same length whose i-th element
    is that entry of the statistics returned by the i-th worker. *)
Theorem fit_collects_statistics self w self' w' :
  attached self w ->
  fit self w = (Ok tt, self', w') ->
  exists outs : list (Agent * gmap string Stat),
    Forall2 (fitted_on self (heap w)) (train_env_set self) outs /\
    Z.of_nat (length outs) = Z.max 0 (n_fit self) /\
    fitted_agents self' = Some (outs.*1) /\
    forall entry, entry ∈ AgentClass.fit_info (agent_class self) ->
      exists col,
        fit_statistics self' !! entry = Some col /\
        length col = length outs /\
        forall i out, outs !! i = Some out ->
          exists x, out.2 !! entry = Some x /\ col !! i = Some x.
Proof.
  intros Hatt Hfit.
  destruct (fit_ok _ _ _ _ Hatt Hfit) as (outs & Houts & Hfa & Hstats).
  destruct Hatt as (Hlen & _ & _ & _ & _ & _ & _ & Hinfo & _).
  exists outs. split; [done|].
  split; [apply Forall2_length in Houts; lia|].
  split; [done|].
  intros entry Hin. rewrite <- Hinfo in Hin.
  destruct (Hstats entry Hin) as (col & Hcol & Hall).
  exists col. split; [done|].
  split; [by apply Forall2_length in Hall|].
  intros i out Hi.
  destruct (Forall2_lookup_l _ _ _ _ _ Hall Hi) as (x & Hx & Hox).
  eauto.
Qed.

(** C9, as amended.  The constructor keeps [train_env], [init_kwargs] and
    [fit_kwargs] by reference and stores new objects for the evaluation
    environment, [policy_kwargs] (a copy of the caller's) and the training
    environments; it changes no object of the caller, and neither does any
    number of [fit()] calls: every object the caller had keeps its
    contents, the three that were handed in included. *)
Theorem constructor_and_fit_leave_caller_objects
    cls l0 e0 ev eh ik fk pk name nf nj dir vb w k :
  heap w !! l0 = Some (EnvObj e0) ->
  (forall l, ev = Some l -> exists e, heap w !! l = Some (EnvObj e)) ->
  (forall l, ik = Some l -> l ∈ dom (heap w)) ->
  (forall l, fk = Some l -> l ∈ dom (heap w)) ->
  (forall l, pk = Some l -> l ∈ dom (heap w)) ->
  exists self w1,
    __init__ (Some cls) (Some l0) ev eh ik fk pk name nf nj dir vb w
      = (Ok (Some self), w1) /\
    train_env self = Some l0 /\
    (forall l, ik = Some l -> init_kwargs self = l) /\
    (forall l, fk = Some l -> fit_kwargs self = l) /\
    (eval_env self ∉ dom (heap w)) /\
    (policy_kwargs self ∉ dom (heap w)) /\
    (forall l, pk = Some l -> heap w1 !! policy_kwargs self = heap w !! l) /\
    (forall l, l ∈ train_env_set self -> l ∉ dom (heap w)) /\
    (forall l, l ∈ dom (heap w) -> heap w1 !! l = heap w !! l) /\
    (forall l, l ∈ dom (heap w) ->
       heap (fit_n k self w1).2 !! l = heap w !! l).
Proof.
  intros He0 Hev Hik Hfk Hpk.
  destruct (init_spec cls l0 e0 ev eh ik fk pk name nf nj dir vb w)
    as (self & w1 & Hinit & Hb); try done.
  exists self, w1. split; [done|].
  pose proof (built_attached _ _ _ _ _ _ _ _ _ _ _ _ _ _ _ Hb) as Hatt.
  destruct Hb.
  split; [done|]. split; [done|]. split; [done|]. split; [done|].
  split; [done|].
  split; [intros l ->; exact b_policy_copy0|].
  split; [intros l Hl; by apply b_envs_fresh0|].
  assert (Hw1 : forall l, l ∈ dom (heap w) -> heap w1 !! l = heap w !! l).
  { intros l Hl. apply (modifies_heap _ _ _ _ b_modifies0); [done|].
    set_solver. }
  split; [done|].
  intros l Hl.
  destruct (fit_n_effect k self w1 Hatt) as (_ & _ & Hm).
  rewrite <- (Hw1 l Hl).
  apply (modifies_heap _ _ _ _ Hm).
  - eapply modifies_dom; [exact b_modifies0|done].
  - intros Hin%elem_of_list_to_set. by apply b_envs_fresh0 in Hin as [Hin _].
Qed.

End Facts.

Import Demo.

Lemma toy_world_live2 : 2%positive ∈ dom (heap toy_world).
Proof. apply elem_of_dom. eexists. reflexivity. Qed.

Lemma toy_world_live3 : 3%positive ∈ dom (heap toy_world).
Proof. apply elem_of_dom. eexists. reflexivity. Qed.

Lemma toy_world_live4 : 4%positive ∈ dom (heap toy_world).
Proof. apply elem_of_dom. eexists. reflexivity. Qed.

Lemma toy_built :
  built toy_agent 1%positive None (Some 10)
    (Some 2%positive) (Some 3%positive) (Some 4%positive) None
    3 1 "stats_data" 0 toy_world (toy_stats 1) (toy_world1 1).
Proof.
  destruct (init_spec toy_agent 1%positive 5 None (Some 10)
              (Some 2%positive) (Some 3%positive) (Some 4%positive) None
              3 1 "stats_data" 0 toy_world)
    as (self & w1 & Hinit & Hb).
  - reflexivity.
  - intros l [= ].
  - intros l [= <-]. exact toy_world_live2.
  - intros l [= <-]. exact toy_world_live3.
  - intros l [= <-]. exact toy_world_live4.
  - change (toy_construct 1 = (Ok (Some self), w1)) in Hinit.
    unfold toy_stats, toy_world1. rewrite Hinit. exact Hb.
Qed.

Lemma toy_attached : attached (toy_stats 1) (toy_world1 1).
Proof. eapply built_attached. exact toy_built. Qed.

Lemma toy_always_trains : always_trains toy_agent.
Proof.
  intros e ik fk s. eexists. split; [reflexivity|].
  intros entry Hin. apply list_elem_of_singleton in Hin as ->.
  simpl. rewrite lookup_singleton_eq. eauto.
Qed.

Lemma constructor_replicas_and_joblib_delegation_witness :
  (exists self w1,
     toy_construct 1 = (Ok (Some self), w1) /\
     Z.of_nat (length (train_env_set self)) = 3 /\
     NoDup (train_env_set self) /\
     (exists tasks,
        joblib_calls (trace (fit self w1).2)
          = joblib_calls (trace w1) ++ [(1, 0, tasks)] /\
        task_env <$> tasks = train_env_set self) /\
     exists self' w2 (outs : list (Z * gmap string Z)),
       fit self w1 = (Ok tt, self', w2) /\
       Z.of_nat (length outs) = 3 /\
       fitted_agents self' = Some (outs.*1)) /\
  (exists self w1,
     toy_construct 2 = (Ok (Some self), w1) /\
     (exists tasks,
        joblib_calls (trace (fit self w1).2)
          = joblib_calls (trace w1) ++ [(2, 0, tasks)] /\
        task_env <$> tasks = train_env_set self) /\
     exists self' w2 (outs : list (Z * gmap string Z)),
       fit self w1 = (Ok tt, self', w2) /\
       Z.of_nat (length outs) = 3 /\
       fitted_agents self' = Some (outs.*1)) /\
  fitted_agents (fit (toy_stats 1) (toy_world1 1)).1.2 = Some [4; 5; 6] /\
  fitted_agents (fit (toy_stats 2) (toy_world1 2)).1.2 = Some [4; 5; 6].
Proof.
  split; [|split; [|split; vm_compute; reflexivity]].
  - destruct (constructor_replicas_and_joblib_delegation
                toy_agent 1%positive 5 None (Some 10)
                (Some 2%positive) (Some 3%positive) (Some 4%positive) None
                3 1 "stats_data" 0 toy_world)
      as (self & w1 & Hinit & Hlen & Hnd & _ & _ & _ & _ & tasks & Hj & Ht &
          _ & _ & Hfit).
    + lia.
    + reflexivity.
    + intros l [= ].
    + intros l [= <-]. exact toy_world_live2.
    + intros l [= <-]. exact toy_world_live3.
    + intros l [= <-]. exact toy_world_live4.
    + destruct (Hfit InProcess eq_refl toy_always_trains)
        as (self' & w2 & outs & Hret & _ & Hn & Hfa).
      * intros l [= <-]. eexists. reflexivity.
      * intros l [= <-]. eexists. reflexivity.
      * exists self, w1. split; [exact Hinit|]. split; [exact Hlen|].
        split; [exact Hnd|].
        split; [exists tasks; split; [exact Hj|exact Ht]|].
        exists self', w2, outs.
        split; [exact Hret|]. split; [exact Hn|exact Hfa].
  - destruct (constructor_replicas_and_joblib_delegation
                toy_agent 1%positive 5 None (Some 10)
                (Some 2%positive) (Some 3%positive) (Some 4%positive) None
                3 2 "stats_data" 0 toy_world)
      as (self & w1 & Hinit & _ & _ & _ & _ & _ & _ & tasks & Hj & Ht &
          _ & _ & Hfit).
    + lia.
    + reflexivity.
    + intros l [= ].
    + intros l [= <-]. exact toy_world_live2.
    + intros l [= <-]. exact toy_world_live3.
    + intros l [= <-]. exact toy_world_live4.
    + destruct (Hfit Subprocesses eq_refl toy_always_trains)
        as (self' & w2 & outs & Hret & _ & Hn & Hfa).
      * intros l [= <-]. eexists. reflexivity.
      * intros l [= <-]. eexists. reflexivity.
      * exists self, w1. split; [exact Hinit|].
        split; [exists tasks; split; [exact Hj|exact Ht]|].
        exists self', w2, outs.
        split; [exact Hret|]. split; [exact Hn|exact Hfa].
Defined.

Lemma fit_collects_statistics_witness :
  let self := toy_stats 1 in
  let w := toy_world1 1 in
  (fit self w).1.1 = Ok tt /\
  fitted_agents (fit self w).1.2 = Some [4; 5; 6] /\
  fit_statistics (fit self w).1.2 !! "episode_rewards" = Some [104; 105; 106] /\
  exists outs : list (Z * gmap string Z),
    Z.of_nat (length outs) = Z.max 0 (n_fit self) /\
    fitted_agents (fit self w).1.2 = Some (outs.*1).
Proof.
  intros self w.
  assert (Hr : (fit self w).1.1 = Ok tt) by (vm_compute; reflexivity).
  split; [exact Hr|].
  split; [vm_compute; reflexivity|].
  split; [vm_compute; reflexivity|].
  destruct (fit self w) as [[r self'] w'] eqn:Hfit. simpl in Hr. subst r.
  destruct (fit_collects_statistics self w self' w' toy_attached Hfit)
    as (outs & _ & Hlen & Hfa & _).
  exists outs. split; [exact Hlen|exact Hfa].
Defined.

Lemma constructor_and_fit_leave_caller_objects_witness :
  exists self w1,
    toy_construct 1 = (Ok (Some self), w1) /\
    init_kwargs self = 2%positive /\
    heap (fit_n 2 self w1).2 !! 2%positive = heap toy_world !! 2%positive.
Proof.
  destruct (constructor_and_fit_leave_caller_objects
              toy_agent 1%positive 5 None (Some 10)
              (Some 2%positive) (Some 3%positive) (Some 4%positive) None
              3 1 "stats_data" 0 toy_world 2)
    as (self & w1 & Hinit & _ & Hik & _ & _ & _ & _ & _ & _ & Hfit).
  - reflexivity.
  - intros l [= ].
  - intros l [= <-]. exact toy_world_live2.
  - intros l [= <-]. exact toy_world_live3.
  - intros l [= <-]. exact toy_world_live4.
  - exists self, w1. split; [exact Hinit|]. split; [exact (Hik _ eq_refl)|].
    exact (Hfit _ toy_world_live2).
Defined.

(** C9 as stated fails.  The constructor stores the caller's [train_env]
    and [init_kwargs] themselves, not copies, and [optimize_hyperparams]
    updates [init_kwargs] in place: the dictionary the caller handed in
    with [lr = 1] holds [lr = 30] afterwards. *)
Lemma optimize_hyperparams_mutates_caller_init_kwargs :
  let self := toy_stats 1 in
  let w2 := (toy_optimize 1).2 in
  train_env self = Some 1%positive /\
  init_kwargs self = 2%positive /\
  entry_at toy_world 2%positive "lr" = Some 1 /\
  entry_at (toy_world1 1) 2%positive "lr" = Some 1 /\
  is_ok (toy_optimize 1).1.1 = true /\
  entry_at w2 2%positive "lr" = Some 30 /\
  heap w2 !! 2%positive <> heap toy_world !! 2%positive.
Proof.
  intros self w2.
  assert (H2 : entry_at w2 2%positive "lr" = Some 30)
    by (vm_compute; reflexivity).
  assert (H0 : entry_at toy_world 2%positive "lr" = Some 1)
    by (vm_compute; reflexivity).
  split; [vm_compute; reflexivity|]. split; [vm_compute; reflexivity|].
  split; [exact H0|]. split; [vm_compute; reflexivity|].
  split; [vm_compute; reflexivity|]. split; [exact H2|].
  intros Heq.
  apply (f_equal (fun o => match o with
                           | Some (DictObj d) => d !! "lr"
                           | _ => None
                           end)) in Heq.
  change (entry_at w2 2%positive "lr" = entry_at toy_world 2%positive "lr")
    in Heq.
  rewrite H2, H0 in Heq. discriminate Heq.
Qed.

(** *** Without optuna *)

Section Optional.
Context `{Libs}.

Lemma flag_blind_ret {A} (a : A) : flag_blind (ret a).
Proof. done. Qed.

Lemma flag_blind_raise {A} e : flag_blind (@raise _ A e).
Proof. done. Qed.

Lemma flag_blind_lift {A} (r : result A) : flag_blind (lift r).
Proof. done. Qed.

Lemma flag_blind_bind {A B} (m : M A) (k : A -> M B) :
  flag_blind m -> (forall a, flag_blind (k a)) -> flag_blind (bind m k).
Proof.
  intros Hm Hk b w. unfold bind. rewrite Hm.
  destruct (m w) as [[a|e] w1]; simpl; [apply Hk|done].
Qed.

Lemma flag_blind_emit ev : flag_blind (emit ev).
Proof. done. Qed.

Lemma flag_blind_alloc o : flag_blind (alloc o).
Proof. done. Qed.

Lemma flag_blind_deepcopy l : flag_blind (deepcopy l).
Proof. intros b w. unfold deepcopy. simpl. by destruct (heap w !! l). Qed.

Lemma flag_blind_deepcopy_opt x : flag_blind (deepcopy_opt x).
Proof.
  destruct x as [l|]; simpl; [|done].
  apply flag_blind_bind; [apply flag_blind_deepcopy|done].
Qed.

Lemma flag_blind_reseed x : flag_blind (reseed x).
Proof.
  intros b w. unfold reseed. destruct x as [l|]; [|done]. simpl.
  destruct (heap w !! l) as [[e|d]|]; try done.
  by destruct (env_reseed e (seeder w)).
Qed.

Lemma flag_blind_read_dict l : flag_blind (read_dict l).
Proof.
  intros b w. unfold read_dict. simpl.
  by destruct (heap w !! l) as [[e|d]|].
Qed.

Lemma flag_blind_read_env l : flag_blind (read_env l).
Proof.
  intros b w. unfold read_env. simpl.
  by destruct (heap w !! l) as [[e|d]|].
Qed.

Lemma flag_blind_write l o : flag_blind (write l o).
Proof. done. Qed.

Lemma flag_blind_dict_update l other : flag_blind (dict_update l other).
Proof.
  apply flag_blind_bind; [apply flag_blind_read_dict|].
  intros d. apply flag_blind_write.
Qed.

Lemma flag_blind_get_rng : flag_blind seeding_get_rng.
Proof.
  intros b w. unfold seeding_get_rng. simpl.
  by destruct (get_rng (seeder w)).
Qed.

Lemma flag_blind_reseeded_copy src : flag_blind (reseeded_copy src).
Proof.
  apply flag_blind_bind; [apply flag_blind_deepcopy_opt|]. intros c.
  apply flag_blind_bind; [apply flag_blind_reseed|]. intros _.
  by destruct c.
Qed.

Lemma flag_blind_make_train_env_set n src :
  flag_blind (make_train_env_set n src).
Proof.
  induction n as [|n IH]; simpl; [done|].
  apply flag_blind_bind; [apply flag_blind_reseeded_copy|]. intros l.
  apply flag_blind_bind; [exact IH|]. done.
Qed.

Lemma flag_blind_or_new_dict x : flag_blind (or_new_dict x).
Proof. by destruct x. Qed.

Lemma flag_blind_init cls te ev eh ik fk pk name nf nj dir vb :
  flag_blind (__init__ cls te ev eh ik fk pk name nf nj dir vb).
Proof.
  unfold __init__. destruct cls as [cls|]; [|done].
  apply flag_blind_bind; [done|]. intros ts.
  apply flag_blind_bind; [apply flag_blind_reseeded_copy|]. intros l_ev.
  apply flag_blind_bind; [apply flag_blind_deepcopy_opt|]. intros pkc.
  apply flag_blind_bind; [apply flag_blind_or_new_dict|]. intros ik'.
  apply flag_blind_bind; [apply flag_blind_or_new_dict|]. intros fk'.
  apply flag_blind_bind; [apply flag_blind_or_new_dict|]. intros pk'.
  apply flag_blind_bind; [apply flag_blind_make_train_env_set|]. intros envs.
  apply flag_blind_bind; [apply flag_blind_get_rng|]. done.
Qed.

Lemma flag_blind_call_new cls te ik : flag_blind (call_new cls te ik).
Proof.
  apply flag_blind_bind; [apply flag_blind_read_env|]. intros e.
  apply flag_blind_bind; [apply flag_blind_read_dict|]. intros d.
  intros b w. simpl.
  by destruct (AgentClass.new cls e d (seeder w)) as [[[ra e1] ik1] s1].
Qed.

Lemma flag_blind_call_fit cls agent te fk :
  flag_blind (call_fit cls agent te fk).
Proof.
  apply flag_blind_bind; [apply flag_blind_read_env|]. intros e.
  apply flag_blind_bind; [apply flag_blind_read_dict|]. intros d.
  intros b w. simpl.
  by destruct (AgentClass.fit cls agent e d (seeder w))
    as [[[[ri a'] e1] fk1] s1].
Qed.

Lemma flag_blind_fit_worker a : flag_blind (_fit_worker a).
Proof.
  destruct a as [[[cls te] ik] fk]. unfold _fit_worker.
  apply flag_blind_bind; [apply flag_blind_call_new|]. intros agent.
  apply flag_blind_call_fit.
Qed.

Lemma flag_blind_run_in_process tasks : flag_blind (run_in_process tasks).
Proof.
  induction tasks as [|a rest IH]; simpl; [done|].
  apply flag_blind_bind; [apply flag_blind_fit_worker|]. intros o.
  apply flag_blind_bind; [exact IH|]. done.
Qed.

Lemma run_in_subprocesses_flag tasks b w :
  run_in_subprocesses tasks (set_optuna_installed b w)
    = run_in_subprocesses tasks w.
Proof.
  induction tasks as [|a rest IH]; simpl; [done|].
  rewrite flag_blind_fit_worker, IH. done.
Qed.

Lemma flag_blind_Parallel nj vb tasks : flag_blind (Parallel nj vb tasks).
Proof.
  unfold Parallel.
  apply flag_blind_bind; [apply flag_blind_emit|]. intros _.
  apply flag_blind_bind; [apply flag_blind_lift|]. intros [|].
  - apply flag_blind_run_in_process.
  - intros b w. by rewrite run_in_subprocesses_flag.
Qed.

Lemma flag_blind_build_args self envs : flag_blind (build_args self envs).
Proof.
  induction envs as [|env rest IH]; simpl; [done|].
  apply flag_blind_bind; [apply flag_blind_deepcopy|]. intros ik.
  apply flag_blind_bind; [apply flag_blind_deepcopy|]. intros fk.
  apply flag_blind_bind; [exact IH|]. done.
Qed.

Lemma flag_blind_print vb text : flag_blind (print_if_verbose vb text).
Proof. unfold print_if_verbose. by destruct (0 <? vb). Qed.

(** [fit] does the same with and without optuna. *)
Lemma fit_flag self b w :
  fit self (set_optuna_installed b w)
    = ((fit self w).1, set_optuna_installed b (fit self w).2).
Proof.
  unfold fit. rewrite flag_blind_print.
  destruct (print_if_verbose (verbose self) _ w) as [r1 w1]. simpl.
  rewrite flag_blind_build_args.
  destruct (build_args self (train_env_set self) w1) as [[args|e] w2];
    simpl; [|done].
  rewrite flag_blind_Parallel.
  destruct (Parallel (n_jobs self) (verbose self) args w2)
    as [[wo|e] w3]; simpl; [|done].
  rewrite flag_blind_print.
  destruct (print_if_verbose (verbose self) _ w3) as [r4 w4]. simpl.
  by destruct (gather _ _ _).
Qed.

Lemma flag_blind_alloc_all os : flag_blind (alloc_all os).
Proof.
  induction os as [|o rest IH]; simpl; [done|].
  apply flag_blind_bind; [apply flag_blind_alloc|]. intros l.
  apply flag_blind_bind; [exact IH|]. done.
Qed.

Lemma flag_blind_restore d : flag_blind (restore d).
Proof.
  unfold restore.
  apply flag_blind_bind.
  { destruct (train_env d); [|done].
    apply flag_blind_bind; [apply flag_blind_alloc|]. done. }
  intros te.
  apply flag_blind_bind; [apply flag_blind_alloc|]. intros ev.
  apply flag_blind_bind; [apply flag_blind_alloc|]. intros ik.
  apply flag_blind_bind; [apply flag_blind_alloc|]. intros fk.
  apply flag_blind_bind; [apply flag_blind_alloc|]. intros pk.
  apply flag_blind_bind; [apply flag_blind_alloc_all|]. done.
Qed.

Section WithPickle.
Variable pickle_dump : t object -> result unit * Bytes.
Variable pickle_load : Bytes -> result (t object).

Lemma flag_blind_save self filename :
  flag_blind (save pickle_dump self filename).
Proof.
  unfold save. apply flag_blind_bind.
  { destruct filename as [f|]; [done|].
    apply flag_blind_bind; [|done].
    intros b w. unfold ensure_dir. simpl.
    destruct (fs_exists (output_dir self) (fs w)); [done|].
    by destruct (fs_makedirs (output_dir self) (fs w)). }
  intros f. apply flag_blind_bind.
  { intros b w. simpl. by destruct (snapshot (heap w) self). }
  intros d b w. unfold dump_to. simpl.
  destruct (pickle_dump d) as [r data].
  by destruct (fs_write (with_pickle_ext f) data (fs w)).
Qed.

Lemma flag_blind_load filename : flag_blind (load pickle_load filename).
Proof.
  unfold load.
  apply flag_blind_bind; [apply flag_blind_init|]. intros obj.
  apply flag_blind_bind; [done|]. intros b.
  apply flag_blind_bind; [apply flag_blind_lift|]. intros d.
  apply flag_blind_restore.
Qed.

(** C6.  When optuna is not installed, [optimize_hyperparams] returns None
    without raising; the object is returned as it was (so [init_kwargs] and
    [study] are unchanged) and the world differs only by one error record
    in the log, the store included.  [fit], [save] and [load] neither read
    nor write the flag: they do the same as with optuna installed. *)
Theorem optimize_hyperparams_without_optuna
    self n_trials timeout n_sim n_fit n_jobs sampler_method pruner_method
    continue_previous w :
  _OPTUNA_INSTALLED w = false ->
  optimize_hyperparams self n_trials timeout n_sim n_fit n_jobs
      sampler_method pruner_method continue_previous w
    = (Ok None, self, add_trace (LogError "Optuna not installed.") w) /\
  heap (add_trace (LogError "Optuna not installed.") w) = heap w /\
  (forall s b w0,
     fit s (set_optuna_installed b w0)
       = ((fit s w0).1, set_optuna_installed b (fit s w0).2)) /\
  (forall s filename, flag_blind (save pickle_dump s filename)) /\
  (forall filename, flag_blind (load pickle_load filename)).
Proof.
  intros Hflag. unfold optimize_hyperparams. rewrite Hflag. simpl.
  split; [done|]. split; [done|].
  split; [intros s b w0; apply fit_flag|].
  split; [intros s f; apply flag_blind_save|].
  intros f. apply flag_blind_load.
Qed.

End WithPickle.
End Optional.

(** *** save and load *)

Section Strings.

Lemma substring_0_all (s : string) (n : nat) :
  (String.length s <= n)%nat -> String.substring 0 n s = s.
Proof.
  revert n. induction s as [|c s IH]; intros n Hn.
  - by destruct n.
  - destruct n as [|n]; simpl in *; [lia|]. rewrite IH; [done|lia].
Qed.

Lemma substring_app_skip (p x : string) (n : nat) :
  String.substring (String.length p) n (p +:+ x) = String.substring 0 n x.
Proof. induction p as [|c p IH]; simpl; [done|exact IH]. Qed.

Lemma length_app_string (p x : string) :
  String.length (p +:+ x) = (String.length p + String.length x)%nat.
Proof. induction p as [|c p IH]; simpl; [done|by rewrite IH]. Qed.

Lemma substring_suffix (s x : string) (k : nat) :
  String.substring k (String.length x) s = x ->
  String.length s = (k + String.length x)%nat ->
  exists p, s = p +:+ x.
Proof.
  revert k. induction s as [|c s IH]; intros k Hsub Hlen.
  - simpl in Hlen. assert (String.length x = 0%nat) as Hx by lia.
    destruct x; [|discriminate Hx]. by exists "".
  - destruct k as [|k].
    + exists "". simpl. rewrite <- Hsub. symmetry.
      apply substring_0_all. lia.
    + simpl in Hsub, Hlen. destruct (IH k Hsub) as [p ->]; [lia|].
      by exists (String c p).
Qed.

(** [filename[-7:] == '.pickle'] says that [filename] ends in
    ['.pickle']. *)
Lemma last_chars_pickle (s : string) :
  last_chars 7 s = ".pickle" <-> ends_with ".pickle" s.
Proof.
  unfold last_chars, ends_with. split.
  - intros Hs.
    destruct (decide (String.length s < 7)%nat) as [Hlt|Hge].
    + replace (String.length s - 7)%nat with 0%nat in Hs by lia.
      rewrite substring_0_all in Hs by lia. subst s. simpl in Hlt. lia.
    + apply (substring_suffix s ".pickle" (String.length s - 7)); [done|].
      simpl. lia.
  - intros [p ->]. rewrite length_app_string. simpl.
    replace (String.length p + 7 - 7)%nat with (String.length p) by lia.
    rewrite substring_app_skip. done.
Qed.

Lemma with_pickle_ext_spec (filename : string) :
  (ends_with ".pickle" filename -> with_pickle_ext filename = filename) /\
  (~ ends_with ".pickle" filename ->
   with_pickle_ext filename = filename +:+ ".pickle").
Proof.
  unfold with_pickle_ext. split; intros Hs.
  - apply last_chars_pickle in Hs. by rewrite bool_decide_eq_true_2.
  - rewrite bool_decide_eq_false_2; [done|].
    intros Hl. by apply Hs, last_chars_pickle.
Qed.

End Strings.

Section Persistence.
Context `{Libs}.

Lemma alloc_all_spec os w :
  exists ls w',
    alloc_all os w = (Ok ls, w') /\
    modifies ∅ w w' /\
    mapM (fun l => heap w' !! l) ls = Some os /\
    fs w' = fs w.
Proof.
  revert w. induction os as [|o rest IH]; intros w; simpl.
  { exists [], w. split; [done|]. split; [apply modifies_refl|done]. }
  unfold bind at 1. rewrite alloc_eq.
  set (l := fresh (dom (heap w))).
  set (w1 := set_heap (<[l := o]> (heap w)) w).
  assert (Hm1 : modifies ∅ w w1)
    by (apply modifies_set_heap_fresh, fresh_not_in).
  assert (Hl : heap w1 !! l = Some o) by apply lookup_insert_eq.
  assert (Hfs : fs w1 = fs w) by done.
  clearbody w1 l.
  destruct (IH w1) as (ls & w' & Hrun & Hm & Hall & Hfs').
  unfold bind. rewrite Hrun. unfold ret.
  exists (l :: ls), w'. split; [done|].
  split; [eapply modifies_trans; eauto|]. split; [|congruence].
  simpl. rewrite (modifies_heap _ _ _ _ Hm); [|by apply elem_of_dom|set_solver].
  rewrite Hl. simpl. rewrite Hall. done.
Qed.

(** Unpickling creates new objects that hold what was pickled: the
    attribute dictionary read back from them is the pickled one. *)
Lemma restore_spec d w :
  exists self' w',
    restore d w = (Ok self', w') /\
    snapshot (heap w') self' = Some d /\
    fs w' = fs w /\
    modifies ∅ w w'.
Proof.
  unfold restore.
  (* train_env *)
  assert (Hte : exists te w0,
            (match train_env d with
             | None => ret None
             | Some o => bind (alloc o) (fun l => ret (Some l))
             end) w = (Ok te, w0) /\
            modifies ∅ w w0 /\ fs w0 = fs w /\
            match te, train_env d with
            | Some l, Some o => heap w0 !! l = Some o
            | None, None => True
            | _, _ => False
            end).
  { destruct (train_env d) as [o|].
    - unfold bind. rewrite alloc_eq. unfold ret.
      eexists (Some _), _. split; [done|].
      split; [apply modifies_set_heap_fresh, fresh_not_in|].
      split; [done|]. apply lookup_insert_eq.
    - exists None, w. split; [done|]. split; [apply modifies_refl|done]. }
  destruct Hte as (te & w0 & Hrun0 & Hm0 & Hfs0 & Hte).
  unfold bind at 1. rewrite Hrun0.
  (* the four single objects *)
  unfold bind at 1. rewrite alloc_eq.
  set (l1 := fresh (dom (heap w0))).
  set (w1 := set_heap (<[l1 := eval_env d]> (heap w0)) w0).
  assert (Hm1 : modifies ∅ w0 w1)
    by (apply modifies_set_heap_fresh, fresh_not_in).
  assert (Hl1 : heap w1 !! l1 = Some (eval_env d)) by apply lookup_insert_eq.
  assert (Hfs1 : fs w1 = fs w0) by done.
  clearbody w1 l1.
  unfold bind at 1. rewrite alloc_eq.
  set (l2 := fresh (dom (heap w1))).
  set (w2 := set_heap (<[l2 := init_kwargs d]> (heap w1)) w1).
  assert (Hm2 : modifies ∅ w1 w2)
    by (apply modifies_set_heap_fresh, fresh_not_in).
  assert (Hl2 : heap w2 !! l2 = Some (init_kwargs d))
    by apply lookup_insert_eq.
  assert (Hfs2 : fs w2 = fs w1) by done.
  clearbody w2 l2.
  unfold bind at 1. rewrite alloc_eq.
  set (l3 := fresh (dom (heap w2))).
  set (w3 := set_heap (<[l3 := fit_kwargs d]> (heap w2)) w2).
  assert (Hm3 : modifies ∅ w2 w3)
    by (apply modifies_set_heap_fresh, fresh_not_in).
  assert (Hl3 : heap w3 !! l3 = Some (fit_kwargs d))
    by apply lookup_insert_eq.
  assert (Hfs3 : fs w3 = fs w2) by done.
  clearbody w3 l3.
  unfold bind at 1. rewrite alloc_eq.
  set (l4 := fresh (dom (heap w3))).
  set (w4 := set_heap (<[l4 := policy_kwargs d]> (heap w3)) w3).
  assert (Hm4 : modifies ∅ w3 w4)
    by (apply modifies_set_heap_fresh, fresh_not_in).
  assert (Hl4 : heap w4 !! l4 = Some (policy_kwargs d))
    by apply lookup_insert_eq.
  assert (Hfs4 : fs w4 = fs w3) by done.
  clearbody w4 l4.
  (* the training environments *)
  destruct (alloc_all_spec (train_env_set d) w4)
    as (ls & w5 & Hrun5 & Hm5 & Hall & Hfs5).
  unfold bind at 1. rewrite Hrun5. unfold ret.
  eexists _, w5. split; [done|].
  assert (Hkeep : forall (wa : world) l o,
            heap wa !! l = Some o -> modifies ∅ wa w5 ->
            heap w5 !! l = Some o).
  { intros wa l o Hl Hm. rewrite <- Hl.
    apply (modifies_heap _ _ _ _ Hm); [by apply elem_of_dom|set_solver]. }
  assert (Hm45 := Hm5).
  assert (Hm35 : modifies ∅ w3 w5) by (eapply modifies_trans; eauto).
  assert (Hm25 : modifies ∅ w2 w5) by (eapply modifies_trans; eauto).
  assert (Hm15 : modifies ∅ w1 w5) by (eapply modifies_trans; eauto).
  assert (Hm05 : modifies ∅ w0 w5) by (eapply modifies_trans; eauto).
  split; [|split; [congruence|eapply modifies_trans; eauto]].
  unfold snapshot. simpl.
  rewrite (Hkeep _ _ _ Hl1 Hm15), (Hkeep _ _ _ Hl2 Hm25),
    (Hkeep _ _ _ Hl3 Hm35), (Hkeep _ _ _ Hl4 Hm45), Hall. simpl.
  destruct d as [? ? ? ? ted ? ? ? ? ? ? ? ? ? ? ? ? ? ? ?]. simpl in *.
  destruct te as [l|], ted as [o|]; try done.
  simpl. by rewrite (Hkeep _ _ _ Hte Hm05).
Qed.

Variable pickle_dump : t object -> result unit * Bytes.
Variable pickle_load : Bytes -> result (t object).

(** C1.  On a file system where a file reads back as written, for an
    object whose attribute dictionary [d] survives pickling, if the system
    accepts the write then [save(filename)] returns and
    [AgentStats.load(filename)] returns an object whose attribute
    dictionary is [d] again.  Both use the same file: [filename] itself if
    it ends in ['.pickle'], and [filename + '.pickle'] if not. *)
Theorem save_load_roundtrip self filename w d data f' :
  (forall path b f f2, fs_write path b f = Ok f2 -> fs_read path f2 = Ok b) ->
  snapshot (heap w) self = Some d ->
  pickle_dump d = (Ok tt, data) ->
  pickle_load data = Ok d ->
  fs_write (with_pickle_ext filename) data (fs w) = Ok f' ->
  exists w1 self' w2,
    save pickle_dump self (Some filename) w = (Ok tt, w1) /\
    fs w1 = f' /\
    load pickle_load filename w1 = (Ok self', w2) /\
    snapshot (heap w2) self' = Some d /\
    (ends_with ".pickle" filename -> with_pickle_ext filename = filename) /\
    (~ ends_with ".pickle" filename ->
     with_pickle_ext filename = filename +:+ ".pickle").
Proof.
  intros Hfs Hsnap Hdump Hload Hwrite.
  exists (set_fs f' w).
  destruct (restore_spec d (set_fs f' w)) as (self' & w2 & Hres & Hsnap' & _).
  exists self', w2.
  split.
  { unfold save, bind, ret, dump_to. rewrite Hsnap, Hdump, Hwrite. done. }
  split; [done|].
  split.
  { unfold load, bind, __init__, ret, lift. simpl.
    rewrite (Hfs _ _ _ _ Hwrite), Hload. exact Hres. }
  split; [done|]. apply with_pickle_ext_spec.
Qed.

End Persistence.

(** *** optimize_hyperparams *)

Section Optimize.
Context `{Libs}.

(** A constructor call that returned an object, on live dictionaries and
    without [eval_env]: it was handed an environment, and built the
    object. *)
Lemma init_ok_built cls te eh ik fk pk name nf nj dir vb w self w' :
  __init__ (Some cls) te None eh ik fk pk name nf nj dir vb w
    = (Ok (Some self), w') ->
  (forall l, ik = Some l -> l ∈ dom (heap w)) ->
  (forall l, fk = Some l -> l ∈ dom (heap w)) ->
  (forall l, pk = Some l -> l ∈ dom (heap w)) ->
  exists l0, te = Some l0 /\
    built cls l0 None eh ik fk pk name nf nj dir vb w self w'.
Proof.
  intros Hinit Hik Hfk Hpk.
  assert (Hte : exists l0 e0, te = Some l0 /\ heap w !! l0 = Some (EnvObj e0)).
  { unfold __init__ in Hinit.
    apply bind_inv in Hinit as [(ts & w0 & Hts & Hk)|(e & _ & [= ])].
    inversion Hts; subst ts w0.
    apply bind_inv in Hk as [(l_ev & w1 & H1 & Hk)|(e & _ & [= ])].
    by apply reseeded_copy_ok in H1. }
  destruct Hte as (l0 & e0 & -> & He0). exists l0. split; [done|].
  destruct (init_spec cls l0 e0 None eh ik fk pk name nf nj dir vb w)
    as (self0 & w0 & Hinit0 & Hb); try done.
  rewrite Hinit0 in Hinit. by inversion Hinit; subst.
Qed.

Lemma deepcopy_ok l w c w' :
  deepcopy l w = (Ok c, w') ->
  (c ∉ dom (heap w)) /\ c ∈ dom (heap w') /\
  heap w' !! c = heap w !! l /\ l ∈ dom (heap w) /\
  modifies ∅ w w' /\ seeder w' = seeder w.
Proof.
  intros Hc. pose proof (deepcopy_modifies _ _ _ _ Hc) as Hm.
  apply deepcopy_inv in Hc as [(o & Ho & [= ->] & ->)|(_ & [= ] & _)].
  split; [apply fresh_not_in|]. simpl.
  split; [rewrite dom_insert_L; set_solver|].
  split; [by rewrite lookup_insert_eq|].
  split; [apply elem_of_dom; eauto|done].
Qed.

Lemma dict_update_inv l other w r w' :
  dict_update l other w = (r, w') ->
  modifies {[l]} w w' /\
  (r = Ok tt ->
   exists d, heap w !! l = Some (DictObj d) /\
     heap w' !! l = Some (DictObj (other ∪ d))).
Proof.
  unfold dict_update.
  intros [(d & w1 & Hd & Hk)|(e & Hd & ->)]%bind_inv.
  - apply read_dict_inv in Hd as [-> Hd]. specialize (Hd d eq_refl).
    unfold write in Hk. inversion Hk; subst r w'.
    split; [apply modifies_set_heap|]. intros _. exists d.
    split; [done|]. simpl. apply lookup_insert_eq.
  - apply read_dict_inv in Hd as [-> _]. split; [apply modifies_refl|done].
Qed.

Lemma init_some cls te ev eh ik fk pk name nf nj dir vb w created w' :
  __init__ (Some cls) te ev eh ik fk pk name nf nj dir vb w
    = (Ok created, w') ->
  exists self, created = Some self.
Proof.
  unfold __init__.
  intros [(? & ? & _ & Hk)|(? & _ & [= ])]%bind_inv.
  apply bind_inv in Hk as [(? & ? & _ & Hk)|(? & _ & [= ])].
  apply bind_inv in Hk as [(? & ? & _ & Hk)|(? & _ & [= ])].
  apply bind_inv in Hk as [(? & ? & _ & Hk)|(? & _ & [= ])].
  apply bind_inv in Hk as [(? & ? & _ & Hk)|(? & _ & [= ])].
  apply bind_inv in Hk as [(? & ? & _ & Hk)|(? & _ & [= ])].
  apply bind_inv in Hk as [(? & ? & _ & Hk)|(? & _ & [= ])].
  apply bind_inv in Hk as [(? & ? & _ & Hk)|(? & _ & [= ])].
  inversion Hk. eauto.
Qed.

Lemma call_compare_policies_inv ps ev eh n_sim w r w' :
  call_compare_policies ps ev eh n_sim w = (r, w') ->
  modifies {[ev]} w w' /\
  forall result, r = Ok result ->
    exists e pkd e' s',
      heap w !! ev = Some (EnvObj e) /\
      heap w !! policy_kwargs ps = Some (DictObj pkd) /\
      compare_policies [(agent_name ps, fitted_agents ps, pkd)]
        e eh true n_sim false (seeder w) = (Ok result, e', s').
Proof.
  unfold call_compare_policies.
  intros [(e & w1 & He & Hk)|(ex & He & ->)]%bind_inv.
  2:{ apply read_env_inv in He as [-> _]. split; [apply modifies_refl|done]. }
  apply read_env_inv in He as [-> He]. specialize (He e eq_refl).
  apply bind_inv in Hk as [(pkd & w1 & Hd & Hk)|(ex & Hd & ->)].
  2:{ apply read_dict_inv in Hd as [-> _]. split; [apply modifies_refl|done]. }
  apply read_dict_inv in Hd as [-> Hd]. specialize (Hd pkd eq_refl).
  destruct (compare_policies _ e eh true n_sim false (seeder w))
    as [[rc e'] s'] eqn:Hc.
  inversion Hk; subst r w'.
  split; [apply modifies_set_seeder, modifies_set_heap|].
  intros result ->. exists e, pkd, e', s'. done.
Qed.

(** One evaluation of the objective: whatever it returns, no object that
    existed before is changed; and when it returns a reward, it ran as
    [objective_run] tells. *)
Lemma objective_spec self n_sim nf nj trial w r w' :
  attached self w ->
  objective self n_sim nf nj trial w = (r, w') ->
  modifies ∅ w w' /\
  forall reward, r = Ok reward ->
    objective_run self n_sim nf nj trial w reward.
Proof.
  intros Hatt Hrun.
  destruct Hatt as (_ & _ & _ & Hikl & Hfkl & _ & _ & _ & Htel & Hevl & Hpkl).
  unfold objective in Hrun.
  (* the copy of init_kwargs *)
  apply bind_inv in Hrun as [(kw & wa & H1 & Hrun)|(e & H1 & ->)];
    [|split; [eapply deepcopy_modifies; eauto|done]].
  apply deepcopy_ok in H1 as (Hkw & Hkwa & Hkwc & _ & Hma & Hsa).
  (* the sampled parameters *)
  apply bind_inv in Hrun as [(sampled & w0 & H2 & Hrun)|(e & H2 & ->)];
    [|unfold lift in H2; inversion H2; subst; by split].
  unfold lift in H2. inversion H2 as [[Hsample Hw0]]. subst w0. clear H2.
  (* the update of the copy *)
  apply bind_inv in Hrun as [([] & wb & H3 & Hrun)|(e & H3 & ->)].
  2:{ apply dict_update_inv in H3 as [Hm _]. split; [|done].
      eapply modifies_trans_fresh; [exact Hma|exact Hm|]. set_solver. }
  apply dict_update_inv in H3 as [Hmb Hupd].
  destruct (Hupd eq_refl) as (ikd & Hikd & Hkwb). clear Hupd.
  assert (Hm0b : modifies ∅ w wb).
  { eapply modifies_trans_fresh; [exact Hma|exact Hmb|]. set_solver. }
  assert (Hik0 : heap w !! init_kwargs self = Some (DictObj ikd))
    by congruence.
  (* the copies of train_env, fit_kwargs and policy_kwargs *)
  apply bind_inv in Hrun as [(tec & wc & H4 & Hrun)|(e & H4 & ->)].
  2:{ split; [|done]. eapply modifies_trans; [exact Hm0b|].
      eapply deepcopy_opt_modifies; eauto. }
  pose proof (deepcopy_opt_modifies _ _ _ _ H4) as Hmc.
  assert (Hm0c : modifies ∅ w wc) by (eapply modifies_trans; eauto).
  apply bind_inv in Hrun as [(fk' & wd & H5 & Hrun)|(e & H5 & ->)].
  2:{ split; [|done]. eapply modifies_trans; [exact Hm0c|].
      eapply deepcopy_modifies; eauto. }
  apply deepcopy_ok in H5 as (Hfk & Hfkd & Hfkc & _ & Hmd & Hsd).
  assert (Hm0d : modifies ∅ w wd) by (eapply modifies_trans; eauto).
  apply bind_inv in Hrun as [(pk' & we & H6 & Hrun)|(e & H6 & ->)].
  2:{ split; [|done]. eapply modifies_trans; [exact Hm0d|].
      eapply deepcopy_modifies; eauto. }
  apply deepcopy_ok in H6 as (Hpk & Hpke & Hpkc & _ & Hme & Hse).
  assert (Hm0e : modifies ∅ w we) by (eapply modifies_trans; eauto).
  assert (Hmbe : modifies ∅ wb we).
  { eapply modifies_trans; [exact Hmc|]. eapply modifies_trans; eauto. }
  (* the new AgentStats *)
  apply bind_inv in Hrun as [(created & wf & H7 & Hrun)|(e & H7 & ->)].
  2:{ split; [|done]. eapply modifies_trans; [exact Hm0e|].
      eapply init_modifies; eauto. }
  destruct (init_some _ _ _ _ _ _ _ _ _ _ _ _ _ _ _ H7) as [ps ->].
  assert (Hkwe : kw ∈ dom (heap we)).
  { eapply modifies_dom; [exact Hmbe|].
    eapply modifies_dom; [exact Hmb|done]. }
  assert (Hfke : fk' ∈ dom (heap we))
    by (eapply modifies_dom; [exact Hme|done]).
  destruct (init_ok_built _ _ _ _ _ _ _ _ _ _ _ _ _ _ H7)
    as (te' & -> & Hb);
    [by intros ? [= <-]|by intros ? [= <-]|by intros ? [= <-]|].
  pose proof (built_attached _ _ _ _ _ _ _ _ _ _ _ _ _ _ _ Hb) as Hattps.
  apply deepcopy_opt_fresh in H4 as (Hte' & l0 & Hl0 & Htec & Hte'c).
  assert (Hl0w : l0 ∈ dom (heap w)) by (by apply Htel).
  assert (Hmef : modifies ∅ we wf) by (by destruct Hb).
  assert (Hm0f : modifies ∅ w wf) by (eapply modifies_trans; eauto).
  (* fit *)
  apply bind_inv in Hrun as [(ps' & wg & H8 & Hrun)|(e & H8 & ->)].
  2:{ split; [|done]. unfold fit_then in H8.
      destruct (fit ps wf) as [[rf psf] wf'] eqn:Hfit.
      inversion H8; subst wf'.
      destruct Hattps as (_ & _ & _ & Hik' & Hfk' & _).
      destruct (fit_effect _ _ _ _ _ Hik' Hfk' Hfit) as (_ & Hm & _).
      eapply modifies_trans_fresh; [exact Hm0f|exact Hm|].
      intros l Hl%elem_of_list_to_set Hlw.
      destruct Hb. apply b_envs_fresh0 in Hl as [Hl _].
      exfalso. apply Hl. eapply modifies_dom; [exact Hm0e|done]. }
  unfold fit_then in H8.
  destruct (fit ps wf) as [[rf psf] wf'] eqn:Hfit.
  destruct rf as [[]|ex]; inversion H8; subst psf wf'. clear H8.
  pose proof (fit_attached _ _ _ _ _ Hattps Hfit) as Hattps'.
  assert (Hmfg : modifies (list_to_set (train_env_set ps)) wf wg /\
                 same_config ps ps').
  { destruct Hattps as (_ & _ & _ & Hik' & Hfk' & _).
    destruct (fit_effect _ _ _ _ _ Hik' Hfk' Hfit) as (Hcfg & Hm & _).
    done. }
  destruct Hmfg as [Hmfg Hcfg].
  assert (Hm0g : modifies ∅ w wg).
  { eapply modifies_trans_fresh; [exact Hm0f|exact Hmfg|].
    intros l Hl%elem_of_list_to_set Hlw.
    destruct Hb. apply b_envs_fresh0 in Hl as [Hl _].
    exfalso. apply Hl. eapply modifies_dom; [exact Hm0e|done]. }
  (* the reseeded copy of eval_env *)
  apply bind_inv in Hrun as [(ev' & wh & H9 & Hrun)|(e & H9 & ->)].
  2:{ split; [|done]. eapply modifies_trans; [exact Hm0g|].
      eapply deepcopy_modifies; eauto. }
  apply deepcopy_ok in H9 as (Hev & Hevh & Hevc & _ & Hmh & Hsh).
  assert (Hm0h : modifies ∅ w wh) by (eapply modifies_trans; eauto).
  assert (Hev0 : ev' ∉ dom (heap w)).
  { intros Hin. apply Hev. eapply modifies_dom; [exact Hm0g|done]. }
  apply bind_inv in Hrun as [([] & wi & H10 & Hrun)|(e & H10 & ->)].
  2:{ split; [|done]. apply reseed_modifies in H10.
      eapply modifies_trans_fresh; [exact Hm0h|exact H10|]. set_solver. }
  pose proof (reseed_modifies _ _ _ _ H10) as Hmi.
  assert (Hm0i : modifies ∅ w wi).
  { eapply modifies_trans_fresh; [exact Hm0h|exact Hmi|]. set_solver. }
  (* compare_policies *)
  apply bind_inv in Hrun as [(result & wj & H11 & Hrun)|(e & H11 & ->)].
  2:{ split; [|done]. apply call_compare_policies_inv in H11 as [Hm _].
      eapply modifies_trans_fresh; [exact Hm0i|exact Hm|]. set_solver. }
  apply call_compare_policies_inv in H11 as [Hmj Hcmp].
  destruct (Hcmp result eq_refl) as (e1 & pkd & e' & s' & He1 & Hpkd & Hcall).
  clear Hcmp.
  assert (Hm0j : modifies ∅ w wj).
  { eapply modifies_trans_fresh; [exact Hm0i|exact Hmj|]. set_solver. }
  assert (Hw' : w' = wj).
  { destruct (result !! "optim"); inversion Hrun; done. }
  subst w'. split; [done|].
  intros reward ->.
  destruct (result !! "optim") as [column|] eqn:Hcol; [|done].
  inversion Hrun as [Hreward]. clear Hrun.
  (* what the reseeded environment holds *)
  simpl in H10.
  destruct (heap wh !! ev') as [[e_ev|?]|] eqn:Hevh'; try discriminate H10.
  destruct (env_reseed e_ev (seeder wh)) as [e_new s_new] eqn:Hreseed.
  inversion H10; subst wi. clear H10. simpl in He1, Hpkd, Hcall.
  rewrite lookup_insert_eq in He1. inversion He1; subst e1. clear He1.
  assert (Hpkne : policy_kwargs ps' <> ev').
  { intros Heq. apply Hev. rewrite <- Heq.
    by destruct Hattps' as (_ & _ & _ & _ & _ & _ & _ & _ & _ & _ & ?). }
  rewrite lookup_insert_ne in Hpkd by done.
  rewrite (modifies_heap _ _ _ _ Hmh) in Hpkd;
    [|by destruct Hattps' as (_ & _ & _ & _ & _ & _ & _ & _ & _ & _ & ?)
     |set_solver].
  rewrite Hsh in Hreseed.
  destruct Hb.
  exists sampled, ikd, l0, kw, te', fk', pk', we, ps, wf, ps', wg,
    e_ev, pkd, result, column, e', s'.
  rewrite Hreseed. simpl.
  split; [done|]. split; [done|]. split; [done|]. split; [done|].
  split; [done|].
  split.
  { intros Hin. apply Hte'. eapply modifies_dom; [exact Hm0b|done]. }
  split.
  { intros Hin. apply Hfk. eapply modifies_dom; [exact Hm0c|done]. }
  split.
  { intros Hin. apply Hpk. eapply modifies_dom; [exact Hm0d|done]. }
  split.
  { rewrite (modifies_heap _ _ _ _ Hmbe); [done| |set_solver].
    apply elem_of_dom. eauto. }
  split.
  { rewrite (modifies_heap _ _ _ _ Hme);
      [|eapply modifies_dom; [exact Hmd|done]|set_solver].
    rewrite (modifies_heap _ _ _ _ Hmd); [|done|set_solver].
    rewrite Htec.
    apply (modifies_heap _ _ _ _ Hm0b); [done|set_solver]. }
  split.
  { rewrite (modifies_heap _ _ _ _ Hme); [|done|set_solver].
    rewrite Hfkc.
    apply (modifies_heap _ _ _ _ Hm0c); [done|set_solver]. }
  split.
  { rewrite Hpkc.
    apply (modifies_heap _ _ _ _ Hm0d); [done|set_solver]. }
  split; [done|]. split; [done|]. split; [done|]. split; [done|].
  split; [done|]. split; [by apply b_init_kwargs_given0|].
  split; [by apply b_fit_kwargs_given0|]. split; [done|].
  split.
  { rewrite <- (modifies_heap _ _ _ _ Hm0g); [|done|set_solver].
    rewrite <- Hevc. done. }
  done.
Qed.

Lemma attached_mono W self w w' :
  attached self w -> modifies W w w' -> attached self w'.
Proof.
  intros (Hlen & Hnd & Hlive & Hik & Hfk & Hikn & Hfkn & Hinfo &
          Hte & Hev & Hpk) Hm.
  assert (Hd : forall l, l ∈ dom (heap w) -> l ∈ dom (heap w'))
    by (intros l; apply (modifies_dom _ _ _ _ Hm)).
  unfold attached. repeat (split; [by auto|]). by auto.
Qed.

Lemma attached_config s s' w :
  same_config s s' -> attached s w -> attached s' w.
Proof.
  intros (_ & _ & Hfi & Hcls & Hte & Hev & _ & Hik & Hfk & Hpk & Hnf & _ &
          _ & _ & Henvs & _).
  unfold attached. by rewrite Hfi, Hcls, Hte, Hev, Hik, Hfk, Hpk, Hnf, Henvs.
Qed.

(** The objective reads only the configuration of the object. *)
Lemma objective_config s s' n_sim nf nj trial w :
  same_config s s' ->
  objective s' n_sim nf nj trial w = objective s n_sim nf nj trial w.
Proof.
  intros (_ & _ & _ & Hcls & Hte & Hev & Heh & Hik & Hfk & Hpk & _).
  unfold objective. by rewrite Hcls, Hte, Hev, Heh, Hik, Hfk, Hpk.
Qed.

(** The trials of a study change no object that existed before. *)
Lemma study_optimize_modifies self n_sim nf nj n timeout st w r st' w' :
  attached self w ->
  study_optimize (objective self n_sim nf nj) n timeout st w = (r, st', w') ->
  modifies ∅ w w'.
Proof.
  revert st w. induction n as [|n IH]; intros st w Hatt; simpl.
  { intros [= _ _ <-]. apply modifies_refl. }
  destruct (study_in_time timeout st); simpl;
    [|intros [= _ _ <-]; apply modifies_refl].
  destruct (study_ask st) as [trial st1].
  destruct (objective self n_sim nf nj trial w) as [ro w1] eqn:Hobj.
  apply (objective_spec _ _ _ _ _ _ _ _ Hatt) in Hobj as [Hm _].
  destruct ro as [value|ex].
  - intros Hrest. eapply modifies_trans; [exact Hm|].
    eapply IH; [|exact Hrest]. eapply attached_mono; eauto.
  - destruct ex; by intros [= _ _ <-].
Qed.

Lemma finish_study_inv self st w r w' :
  finish_study self st w = (r, w') ->
  modifies {[init_kwargs self]} w w' /\
  forall out, r = Ok out ->
    best_trial st = Ok out.1 /\ out.2 = trials_dataframe st /\
    exists d, heap w !! init_kwargs self = Some (DictObj d) /\
      heap w' !! init_kwargs self = Some (DictObj (params out.1 ∪ d)).
Proof.
  unfold finish_study.
  intros [(best & w0 & Hb & Hk)|(e & Hb & ->)]%bind_inv;
    [|unfold lift in Hb; inversion Hb; subst;
      split; [apply modifies_refl|done]].
  unfold lift in Hb. inversion Hb as [[Hbest Hw0]]. subst w0. clear Hb.
  apply bind_inv in Hk as [([] & w1 & Hp & Hk)|(e & Hp & ->)].
  2:{ destruct (0 <? verbose self); inversion Hp. }
  assert (Hw1 : heap w1 = heap w /\ dom (heap w1) = dom (heap w)).
  { destruct (0 <? verbose self); inversion Hp; done. }
  destruct Hw1 as [Hh1 Hd1].
  apply bind_inv in Hk as [([] & w2 & Hu & Hk)|(e & Hu & ->)].
  - apply dict_update_inv in Hu as [Hm Hupd].
    destruct (Hupd eq_refl) as (d & Hd & Hd'). inversion Hk; subst r w'.
    split; [destruct Hm as [Hdm Hf]; split; rewrite <- ?Hd1, <- ?Hh1; done|].
    intros out [= <-]. simpl. split; [done|]. split; [done|].
    exists d. by rewrite <- Hh1.
  - apply dict_update_inv in Hu as [Hm _].
    split; [destruct Hm as [Hdm Hf]; split; rewrite <- ?Hd1, <- ?Hh1; done|].
    done.
Qed.

Lemma get_study_config self sm pm cp r self1 :
  get_study self sm pm cp = (r, self1) -> same_config self self1.
Proof.
  unfold get_study. destruct cp.
  - destruct (study self); intros [= _ <-]; apply same_config_refl.
  - unfold get_sampler.
    destruct (bool_decide (sm = "random")).
    + destruct (rng_integers (rng self) (2 ^ 16)) as [seed g].
      destruct (get_pruner pm); intros [= _ <-]; by repeat split.
    + destruct (bool_decide (sm = "optuna_default")).
      * destruct (get_pruner pm); intros [= _ <-]; by repeat split.
      * intros [= _ <-]. apply same_config_refl.
Qed.

(** After the study: [init_kwargs] is the same object, updated in place
    with the parameters of the best trial, and no other object that existed
    before has changed. *)
Lemma optimize_hyperparams_update self n_trials timeout n_sim nf nj sm pm cp
    w best df self' w' d0 :
  attached self w ->
  heap w !! init_kwargs self = Some (DictObj d0) ->
  optimize_hyperparams self n_trials timeout n_sim nf nj sm pm cp w
    = (Ok (Some (best, df)), self', w') ->
  same_config self self' /\
  heap w' !! init_kwargs self = Some (DictObj (params best ∪ d0)) /\
  (exists st, study self' = Some st /\ best_trial st = Ok best /\
     df = trials_dataframe st) /\
  (forall l, l ∈ dom (heap w) -> l <> init_kwargs self ->
     heap w' !! l = heap w !! l).
Proof.
  intros Hatt Hd0. unfold optimize_hyperparams.
  destruct (_OPTUNA_INSTALLED w); simpl; [|done].
  destruct (eval_horizon self) as [eh|]; [|done].
  destruct (get_study self sm pm cp) as [[st|ex] self1] eqn:Hst; [|done].
  pose proof (get_study_config _ _ _ _ _ _ Hst) as Hcfg1.
  destruct (study_optimize _ _ _ _ _) as [[ro st'] w1] eqn:Hopt.
  assert (Hatt1 : attached self1 w) by (eapply attached_config; eauto).
  pose proof (study_optimize_modifies _ _ _ _ _ _ _ _ _ _ _ Hatt1 Hopt) as Hm1.
  assert (Hcfg2 : same_config self (set_study (Some st') self1)).
  { eapply same_config_trans; [exact Hcfg1|]. by repeat split. }
  assert (Hik2 : init_kwargs (set_study (Some st') self1) = init_kwargs self).
  { by destruct Hcfg2 as (_ & _ & _ & _ & _ & _ & _ & ? & _). }
  assert (Hfinish : forall wx,
            modifies ∅ w wx ->
            match finish_study (set_study (Some st') self1) st' wx with
            | (Ok out, w3) => (Ok (Some out), set_study (Some st') self1, w3)
            | (Raise e, w3) => (Raise e, set_study (Some st') self1, w3)
            end = (Ok (Some (best, df)), self', w') ->
            same_config self self' /\
            heap w' !! init_kwargs self = Some (DictObj (params best ∪ d0)) /\
            (exists st, study self' = Some st /\ best_trial st = Ok best /\
               df = trials_dataframe st) /\
            (forall l, l ∈ dom (heap w) -> l <> init_kwargs self ->
               heap w' !! l = heap w !! l)).
  { intros wx Hmx.
    destruct (finish_study _ st' wx) as [[out|ex] w3] eqn:Hfin; [|done].
    intros [= -> <- <-].
    apply finish_study_inv in Hfin as [Hm3 Hout].
    destruct (Hout _ eq_refl) as (Hbest & Hdf & d & Hd & Hd'). simpl in *.
    rewrite Hik2 in *.
    assert (Hikw : init_kwargs self ∈ dom (heap w))
      by (apply elem_of_dom; eauto).
    rewrite (modifies_heap _ _ _ _ Hmx) in Hd; [|done|set_solver].
    assert (d = d0) by congruence. subst d.
    split; [done|]. split; [done|]. split; [eauto|].
    intros l Hl Hne.
    rewrite (modifies_heap _ _ _ _ Hm3);
      [|eapply modifies_dom; [exact Hmx|done]|set_solver].
    apply (modifies_heap _ _ _ _ Hmx); [done|set_solver]. }
  destruct ro as [[]|ex].
  - apply Hfinish. exact Hm1.
  - destruct ex; try done. apply Hfinish.
    apply modifies_add_trace. exact Hm1.
Qed.

(** C4.  The objective re-enters the pipeline: in any world where the
    object's attributes are live, one evaluation on a trial changes no
    object that existed before, and when it returns a reward it has built a
    new AgentStats named ['optim'] (with [n_fit] and [n_jobs] as given and
    verbose 0) over new copies of [train_env], [fit_kwargs] and
    [policy_kwargs] and over a copy of [init_kwargs] overridden by the
    trial's sampled parameters, fitted it, evaluated its agents by
    [compare_policies] on a reseeded copy of [eval_env], and returned the
    mean of the ['optim'] column.  And when [optimize_hyperparams] returns
    the best trial, [self.init_kwargs] is the same object as before, now
    holding its old entries overridden by the best trial's parameters,
    while no other object that existed before has changed. *)
Theorem objective_reenters_and_best_params_update
    self n_trials timeout n_sim nf nj sm pm cp w best df self' w' d0
    trial wt r wt' :
  attached self w ->
  heap w !! init_kwargs self = Some (DictObj d0) ->
  optimize_hyperparams self n_trials timeout n_sim nf nj sm pm cp w
    = (Ok (Some (best, df)), self', w') ->
  attached self wt ->
  objective self n_sim nf nj trial wt = (r, wt') ->
  (modifies ∅ wt wt' /\
   forall reward, r = Ok reward ->
     objective_run self n_sim nf nj trial wt reward) /\
  init_kwargs self' = init_kwargs self /\
  heap w' !! init_kwargs self = Some (DictObj (params best ∪ d0)) /\
  (exists st, study self' = Some st /\ best_trial st = Ok best /\
     df = trials_dataframe st) /\
  (forall l, l ∈ dom (heap w) -> l <> init_kwargs self ->
     heap w' !! l = heap w !! l).
Proof.
  intros Hatt Hd0 Hopt Hattt Hobj.
  split; [by eapply objective_spec|].
  destruct (optimize_hyperparams_update _ _ _ _ _ _ _ _ _ _ _ _ _ _ _
              Hatt Hd0 Hopt) as (Hcfg & Hik & Hst & Hframe).
  split; [by destruct Hcfg as (_ & _ & _ & _ & _ & _ & _ & ? & _)|].
  done.
Qed.

End Optimize.

(** *** The theorems at work on the toy libraries *)

Lemma toy_init_kwargs :
  heap (toy_world1 1) !! init_kwargs (toy_stats 1)
    = Some (DictObj {[ "lr" := 1 ]}).
Proof.
  pose proof toy_built as Hb.
  rewrite (b_init_kwargs_given _ _ _ _ _ _ _ _ _ _ _ _ _ _ _ Hb
             2%positive eq_refl).
  rewrite (modifies_heap _ _ _ _
             (b_modifies _ _ _ _ _ _ _ _ _ _ _ _ _ _ _ Hb)).
  - reflexivity.
  - exact toy_world_live2.
  - apply not_elem_of_empty.
Qed.

Lemma objective_reenters_and_best_params_update_witness :
  let self := toy_stats 1 in
  let w := toy_world1 1 in
  (toy_optimize 1).1.1
    = Ok (Some ((2, 31), [(0, Some 11); (1, Some 21); (2, Some 31)])) /\
  heap (toy_optimize 1).2 !! init_kwargs self
    = Some (DictObj (params ((2, 31) : FrozenTrial) ∪ {[ "lr" := 1 ]})) /\
  (objective self 5 2 1 0 w).1 = Ok 11 /\
  objective_run self 5 2 1 0 w 11.
Proof.
  intros self w.
  assert (Hr : (toy_optimize 1).1.1
               = Ok (Some ((2, 31), [(0, Some 11); (1, Some 21); (2, Some 31)])))
    by (vm_compute; reflexivity).
  assert (Ho : (objective self 5 2 1 0 w).1 = Ok 11)
    by (vm_compute; reflexivity).
  split; [exact Hr|].
  destruct (toy_optimize 1) as [[r self'] w'] eqn:Hopt. simpl in Hr. subst r.
  destruct (objective self 5 2 1 0 w) as [ro wt'] eqn:Hobj.
  simpl in Ho. subst ro.
  destruct (objective_reenters_and_best_params_update
              self 3 None 5 2 1 "random" "none" false w
              (2, 31) [(0, Some 11); (1, Some 21); (2, Some 31)] self' w'
              {[ "lr" := 1 ]} 0 w (Ok 11) wt'
              toy_attached toy_init_kwargs Hopt toy_attached Hobj)
    as ((_ & Hrun) & _ & Hupd & _).
  split; [exact Hupd|]. split; [reflexivity|]. apply Hrun. reflexivity.
Defined.

Lemma toy_fs_law (path : string) (b : nat) (f f2 : gmap string nat) :
  fs_write path b f = Ok f2 -> fs_read path f2 = Ok b.
Proof.
  simpl. intros [= <-]. by rewrite lookup_insert_eq.
Qed.

Lemma save_load_roundtrip_witness :
  let self := toy_stats 1 in
  let w := toy_world1 1 in
  exists d w1 self' w2,
    snapshot (heap w) self = Some d /\
    save toy_dump self (Some "run1") w = (Ok tt, w1) /\
    fs w1 = <[ "run1.pickle" := 0%nat ]> (fs w) /\
    load (toy_load d) "run1" w1 = (Ok self', w2) /\
    snapshot (heap w2) self' = Some d.
Proof.
  intros self w.
  assert (Hs : match snapshot (heap w) self with
               | Some _ => true
               | None => false
               end = true) by (vm_compute; reflexivity).
  destruct (snapshot (heap w) self) as [d|] eqn:Hsnap; [|discriminate Hs].
  destruct (save_load_roundtrip toy_dump (toy_load d) self "run1" w d 0%nat
              (<[ "run1.pickle" := 0%nat ]> (fs w)))
    as (w1 & self' & w2 & Hsave & Hfs & Hload & Hsnap' & _).
  - exact toy_fs_law.
  - exact Hsnap.
  - reflexivity.
  - reflexivity.
  - reflexivity.
  - exists d, w1, self', w2.
    split; [reflexivity|]. split; [exact Hsave|]. split; [exact Hfs|].
    split; [exact Hload|exact Hsnap'].
Defined.

Lemma optimize_hyperparams_without_optuna_witness :
  let w := set_optuna_installed false (toy_world1 1) in
  let out := optimize_hyperparams (toy_stats 1) 3 None 5 2 1
               "random" "none" false w in
  _OPTUNA_INSTALLED w = false /\
  out = (Ok None, toy_stats 1,
         add_trace (LogError "Optuna not installed.") w) /\
  heap out.2 = heap w.
Proof.
  intros w out.
  destruct (optimize_hyperparams_without_optuna toy_dump no_load
              (toy_stats 1) 3 None 5 2 1 "random" "none" false w)
    as (Hout & Hheap & _).
  - reflexivity.
  - split; [reflexivity|]. split; [exact Hout|].
    unfold out. rewrite Hout. exact Hheap.
Defined.

End AgentStatsFacts.

(** ** Edge cases of the bandit environments *)

Module BanditEdgeFacts.
Import BanditBase.

(** A negative index in range reads the same element as the index counted
    from the front. *)
Lemma getitem_negative {A} (l : list A) (i : Z) :
  - Z.of_nat (length l) <= i < 0 ->
  getitem l i = getitem l (i + Z.of_nat (length l)).
Proof.
  intros [Hlo Hhi]. unfold getitem.
  destruct (Z.ltb_spec i 0) as [_|?]; [|lia].
  destruct (Z.ltb_spec (i + Z.of_nat (length l)) 0) as [?|_]; [lia|].
  reflexivity.
Qed.

Lemma getitem_below {A} (l : list A) (i : Z) :
  i < - Z.of_nat (length l) -> getitem l i = Raise IndexError.
Proof.
  intros Hi. unfold getitem.
  destruct (Z.ltb_spec i 0) as [_|?]; [|lia].
  destruct (Z.leb_spec 0 (i + Z.of_nat (length l))) as [?|_]; [lia|].
  reflexivity.
Qed.

Section BanditSection.
Context {R Rng Law : Type}.
Variable rvs : Law -> nat -> Rng -> list R * Rng.

Lemma step_presamples (b : Bandit.t R Rng Law) a :
  Bandit.rewards (Bandit.step rvs b a).2 = Bandit.rewards b /\
  Bandit.n_rewards (Bandit.step rvs b a).2 = Bandit.n_rewards b.
Proof.
  unfold Bandit.step.
  destruct (negb _); [done|].
  destruct (getitem (Bandit.laws b) a) as [law|]; [|done].
  destruct (rvs law 1 (Bandit.rng b)) as [xs g'].
  destruct (getitem xs 0); done.
Qed.

Lemma run_presamples cmds (b : Bandit.t R Rng Law) :
  Bandit.rewards (Bandit.run rvs cmds b).2 = Bandit.rewards b /\
  Bandit.n_rewards (Bandit.run rvs cmds b).2 = Bandit.n_rewards b.
Proof.
  revert b. induction cmds as [|c cs IH]; intros b; simpl; [done|].
  destruct c as [a|]; simpl.
  - pose proof (step_presamples b a) as [Hr Hn].
    destruct (Bandit.step rvs b a) as [o b1]. simpl in *.
    specialize (IH b1). destruct (Bandit.run rvs cs b1) as [os b2].
    simpl in *. destruct IH as [IHr IHn]. split; congruence.
  - specialize (IH b). destruct (Bandit.run rvs cs b) as [os b2]. done.
Qed.

Lemma presample_shape (ls : list Law) g :
  (forall law n g', length (rvs law n g').1 = n) ->
  length (Bandit.presample rvs ls g).1 = length ls /\
  Forall (fun q => length q = 10%nat) (Bandit.presample rvs ls g).1.
Proof.
  intros Hrvs. revert g. induction ls as [|law ls IH]; intros g; simpl.
  { split; [done|constructor]. }
  pose proof (Hrvs law 10%nat g) as Hlen.
  destruct (rvs law 10 g) as [xs g1]. simpl in Hlen.
  specialize (IH g1). destruct (Bandit.presample rvs ls g1) as [rest g2].
  simpl in *. destruct IH as [IHl IHf].
  split; [lia|]. constructor; done.
Qed.

End BanditSection.

(** X1.  [Bandit.step] only asserts [action < n_arms], so a negative
    action down to [-n_arms] passes and indexes the arms from the end:
    [step(action)] does what [step(action + n_arms)] does. *)
Theorem bandit_step_negative_action {R Rng Law : Type}
    (rvs : Law -> nat -> Rng -> list R * Rng)
    (b : Bandit.t R Rng Law) (a : Z) :
  Bandit.arms_ok b ->
  - Bandit.n_arms b <= a < 0 ->
  Bandit.step rvs b a = Bandit.step rvs b (a + Bandit.n_arms b).
Proof.
  intros Hok [Hlo Hhi]. unfold Bandit.arms_ok in Hok. unfold Bandit.step.
  destruct (Z.ltb_spec a (Bandit.n_arms b)) as [_|?]; [|lia].
  destruct (Z.ltb_spec (a + Bandit.n_arms b) (Bandit.n_arms b)) as [_|?];
    [|lia].
  simpl. rewrite getitem_negative by lia. rewrite Hok. reflexivity.
Qed.

Lemma bandit_step_negative_action_witness :
  Bandit.step Demo.toy_rvs Demo.toy_bandit (-1)
    = Bandit.step Demo.toy_rvs Demo.toy_bandit 1 /\
  (Bandit.step Demo.toy_rvs Demo.toy_bandit (-1)).1
    = Ok (0, 20, true, false, ∅).
Proof.
  split; [|reflexivity].
  apply (bandit_step_negative_action Demo.toy_rvs Demo.toy_bandit (-1)).
  - reflexivity.
  - simpl. lia.
Defined.

(** X2.  The actions [Bandit.step] refuses: at [n_arms] and above the
    assertion fails, below [-n_arms] indexing the arms raises IndexError;
    either way the bandit is left as it was, its generator included. *)
Theorem bandit_step_out_of_range {R Rng Law : Type}
    (rvs : Law -> nat -> Rng -> list R * Rng)
    (b : Bandit.t R Rng Law) (a : Z) :
  Bandit.arms_ok b ->
  (Bandit.n_arms b <= a -> Bandit.step rvs b a = (Raise AssertionError, b)) /\
  (a < - Bandit.n_arms b -> Bandit.step rvs b a = (Raise IndexError, b)).
Proof.
  intros Hok. unfold Bandit.arms_ok in Hok. split.
  - intros Ha. unfold Bandit.step.
    destruct (Z.ltb_spec a (Bandit.n_arms b)) as [?|_]; [lia|]. reflexivity.
  - intros Ha. unfold Bandit.step.
    destruct (Z.ltb_spec a (Bandit.n_arms b)) as [_|?]; [|lia]. simpl.
    rewrite getitem_below by lia. reflexivity.
Qed.

Lemma bandit_step_out_of_range_witness :
  Bandit.step Demo.toy_rvs Demo.toy_bandit 2
    = (Raise AssertionError, Demo.toy_bandit) /\
  Bandit.step Demo.toy_rvs Demo.toy_bandit (-3)
    = (Raise IndexError, Demo.toy_bandit).
Proof.
  destruct (bandit_step_out_of_range Demo.toy_rvs Demo.toy_bandit 2)
    as (Hhigh & _); [reflexivity|].
  destruct (bandit_step_out_of_range Demo.toy_rvs Demo.toy_bandit (-3))
    as (_ & Hlow); [reflexivity|].
  split; [apply Hhigh; simpl; lia|apply Hlow; simpl; lia].
Defined.

(** X3.  The ten rewards per arm that [Bandit.__init__] pre-samples, and
    the counters [n_rewards], are never read nor updated afterwards: after
    any sequence of steps and resets there are still [n_arms] queues of ten
    samples, the ones drawn by the constructor, and every counter is 10. *)
Theorem bandit_presamples_never_consumed {R Rng Law : Type}
    (rvs : Law -> nat -> Rng -> list R * Rng)
    (ls : list Law) (g : Rng) (cmds : list cmd) :
  (forall law n g', length (rvs law n g').1 = n) ->
  let b := (Bandit.run rvs cmds (Bandit.init rvs ls g)).2 in
  Bandit.rewards b = Bandit.rewards (Bandit.init rvs ls g) /\
  length (Bandit.rewards b) = length ls /\
  Forall (fun q => length q = 10%nat) (Bandit.rewards b) /\
  Bandit.n_rewards b = replicate (length ls) 10.
Proof.
  intros Hrvs b.
  destruct (run_presamples rvs cmds (Bandit.init rvs ls g)) as [Hr Hn].
  fold b in Hr, Hn.
  destruct (presample_shape rvs ls g Hrvs) as [Hlen Hten].
  assert (Hinit : Bandit.rewards (Bandit.init rvs ls g)
                  = (Bandit.presample rvs ls g).1 /\
                  Bandit.n_rewards (Bandit.init rvs ls g)
                  = replicate (length ls) 10).
  { unfold Bandit.init. destruct (Bandit.presample rvs ls g). done. }
  destruct Hinit as [Hr0 Hn0].
  split; [exact Hr|]. rewrite Hr, Hr0, Hn, Hn0. done.
Qed.

Lemma bandit_presamples_never_consumed_witness :
  let b := (Bandit.run Demo.toy_rvs [Step 1; Step 0; Reset; Step 1]
              Demo.toy_bandit).2 in
  Bandit.rng b <> Bandit.rng Demo.toy_bandit /\
  length (Bandit.rewards b) = 2%nat /\
  Bandit.n_rewards b = [10; 10].
Proof.
  intros b. split; [vm_compute; discriminate|].
  destruct (bandit_presamples_never_consumed Demo.toy_rvs [10; 20] 1
              [Step 1; Step 0; Reset; Step 1] BanditFacts.toy_rvs_length)
    as (_ & Hlen & _ & Hn).
  split; [exact Hlen|exact Hn].
Defined.

Section AdversarialSection.
Context {R : Type}.

Lemma adversarial_step_state (e : AdversarialBandit.t R) a :
  AdversarialBandit.n_arms (AdversarialBandit.step e a).2
    = AdversarialBandit.n_arms e /\
  AdversarialBandit.rewards (AdversarialBandit.step e a).2
    = if a <? AdversarialBandit.n_arms e
      then drop 1 (AdversarialBandit.rewards e)
      else AdversarialBandit.rewards e.
Proof.
  unfold AdversarialBandit.step.
  destruct (a <? AdversarialBandit.n_arms e); simpl; [|done].
  destruct (AdversarialBandit.rewards e) as [|row rest] eqn:He; simpl.
  { by rewrite He. }
  destruct (getitem row a); simpl; by rewrite drop_0.
Qed.

End AdversarialSection.

(** X4.  How many rows an AdversarialBandit has left: every step whose
    action passes the assertion [action < n_arms] takes one row off the
    queue, also when indexing the row then fails; refused steps and resets
    take none. *)
Theorem adversarial_queue_after_run {R : Type}
    (cmds : list cmd) (e : AdversarialBandit.t R) :
  AdversarialBandit.n_arms (AdversarialBandit.run cmds e).2
    = AdversarialBandit.n_arms e /\
  AdversarialBandit.rewards (AdversarialBandit.run cmds e).2
    = drop (length (filter (fun a => a < AdversarialBandit.n_arms e)
                           (actions_of cmds)))
           (AdversarialBandit.rewards e).
Proof.
  revert e. induction cmds as [|c cs IH]; intros e; simpl.
  { split; [done|]. by rewrite drop_0. }
  destruct c as [a|]; simpl.
  - pose proof (adversarial_step_state e a) as [Hn Hq].
    destruct (AdversarialBandit.step e a) as [o e1]. simpl in *.
    specialize (IH e1). destruct (AdversarialBandit.run cs e1) as [os e2].
    simpl in *. destruct IH as [IHn IHq]. split; [congruence|].
    rewrite IHq, Hn, Hq. rewrite filter_cons.
    destruct (Z.ltb_spec a (AdversarialBandit.n_arms e)) as [Ha|Ha].
    + rewrite decide_True by done. simpl. by rewrite drop_drop.
    + rewrite decide_False by lia. done.
  - specialize (IH e). destruct (AdversarialBandit.run cs e) as [os e2].
    simpl in *. done.
Qed.

(** X5.  Negative actions on an AdversarialBandit with rows left: down to
    [-n_arms] they index the popped row from its end; below, indexing
    raises IndexError after the row was popped, so the row is lost; an action
    at [n_arms] or above fails the assertion before anything is popped. *)
Theorem adversarial_step_negative_action {R : Type}
    (e : AdversarialBandit.t R) (row : list R) (rest : list (list R)) (a : Z) :
  AdversarialBandit.rewards e = row :: rest ->
  Z.of_nat (length row) = AdversarialBandit.n_arms e ->
  (- AdversarialBandit.n_arms e <= a < 0 ->
   AdversarialBandit.step e a
     = AdversarialBandit.step e (a + AdversarialBandit.n_arms e)) /\
  (a < - AdversarialBandit.n_arms e ->
   AdversarialBandit.step e a
     = (Raise IndexError,
        {| AdversarialBandit.n_arms := AdversarialBandit.n_arms e;
           AdversarialBandit.rewards := rest |})) /\
  (AdversarialBandit.n_arms e <= a ->
   AdversarialBandit.step e a = (Raise AssertionError, e)).
Proof.
  intros He Hrow. unfold AdversarialBandit.step. rewrite He.
  split; [|split].
  - intros [Hlo Hhi].
    destruct (Z.ltb_spec a (AdversarialBandit.n_arms e)) as [_|?]; [|lia].
    destruct (Z.ltb_spec (a + AdversarialBandit.n_arms e)
                (AdversarialBandit.n_arms e)) as [_|?]; [|lia].
    simpl. rewrite getitem_negative by lia. rewrite Hrow. reflexivity.
  - intros Ha.
    destruct (Z.ltb_spec a (AdversarialBandit.n_arms e)) as [_|?]; [|lia].
    simpl. rewrite getitem_below by lia. reflexivity.
  - intros Ha.
    destruct (Z.ltb_spec a (AdversarialBandit.n_arms e)) as [?|_]; [lia|].
    reflexivity.
Qed.

Lemma adversarial_step_negative_action_witness :
  let e := AdversarialBandit.init Demo.toy_rewards in
  (AdversarialBandit.step e (-1)).1 = Ok (0, 2, true, false, ∅) /\
  AdversarialBandit.step e (-1) = AdversarialBandit.step e 1 /\
  AdversarialBandit.step e (-3)
    = (Raise IndexError,
       {| AdversarialBandit.n_arms := 2;
          AdversarialBandit.rewards := [[3; 4]] |}) /\
  AdversarialBandit.step e 2 = (Raise AssertionError, e).
Proof.
  intros e. split; [reflexivity|].
  destruct (adversarial_step_negative_action e [1; 2] [[3; 4]] (-1))
    as (Hneg & _ & _); [reflexivity|reflexivity|].
  destruct (adversarial_step_negative_action e [1; 2] [[3; 4]] (-3))
    as (_ & Hlow & _); [reflexivity|reflexivity|].
  destruct (adversarial_step_negative_action e [1; 2] [[3; 4]] 2)
    as (_ & _ & Hhigh); [reflexivity|reflexivity|].
  split; [apply Hneg; simpl; lia|].
  split; [apply Hlow; simpl; lia|apply Hhigh; simpl; lia].
Defined.

(** *** test_adversarial *)

Section TestAdversarial.
Context {R : Type}.

Lemma sample_app (k1 k2 : nat) (a : Z) (e : AdversarialBandit.t R) :
  TestBandits.sample (k1 + k2) a e
  = match TestBandits.sample k1 a e with
    | (Ok rs1, e1) =>
        match TestBandits.sample k2 a e1 with
        | (Ok rs2, e2) => (Ok (rs1 ++ rs2), e2)
        | (Raise ex, e2) => (Raise ex, e2)
        end
    | (Raise ex, e1) => (Raise ex, e1)
    end.
Proof.
  revert e. induction k1 as [|k1 IH]; intros e; simpl.
  { destruct (TestBandits.sample k2 a e) as [[rs|ex] e2]; done. }
  destruct (AdversarialBandit.step e a) as [[[[[[o r] tm] tr] i]|ex] e1];
    [|done].
  rewrite IH.
  destruct (TestBandits.sample k1 a e1) as [[rs1|ex] e2]; [|done].
  destruct (TestBandits.sample k2 a e2) as [[rs2|ex] e3]; done.
Qed.

Lemma sample_column (k : nat) (row : list R) (x : R) (n : Z) (tail : list (list R)) :
  getitem row 1 = Ok x ->
  1 < n ->
  TestBandits.sample k 1
    {| AdversarialBandit.n_arms := n;
       AdversarialBandit.rewards := replicate k row ++ tail |}
  = (Ok (replicate k x),
     {| AdversarialBandit.n_arms := n; AdversarialBandit.rewards := tail |}).
Proof.
  intros Hrow Hn. induction k as [|k IH]; simpl; [done|].
  unfold AdversarialBandit.step. simpl.
  destruct (Z.ltb_spec 1 n) as [_|?]; [|lia]. simpl.
  rewrite Hrow. rewrite IH. done.
Qed.

End TestAdversarial.

(** X6.  The scenario of [test_adversarial], with blocks of [n] rows in
    place of 500: on the array made of [n] rows [[2, 1]] followed by [n]
    rows [[1, 2]], pulling arm 1 [2 n] times returns [n] times 1 and then
    [n] times 2 (mean 1.5) and empties the queue, so that one more pull
    raises IndexError. *)
Theorem test_adversarial_samples {R : Type} (n : nat) (one two : R) :
  let env := AdversarialBandit.init (TestBandits.adversarial_rewards n one two) in
  AdversarialBandit.wf_array (TestBandits.adversarial_rewards n one two) /\
  TestBandits.sample (n + n) 1 env
    = (Ok (replicate n one ++ replicate n two),
       {| AdversarialBandit.n_arms := 2; AdversarialBandit.rewards := [] |}) /\
  TestBandits.sample (S (n + n)) 1 env
    = (Raise IndexError,
       {| AdversarialBandit.n_arms := 2; AdversarialBandit.rewards := [] |}).
Proof.
  intros env.
  assert (H1 : TestBandits.sample n 1 env
               = (Ok (replicate n one),
                  {| AdversarialBandit.n_arms := 2;
                     AdversarialBandit.rewards :=
                       TestBandits.two_columns n one two |})).
  { apply (sample_column n [two; one] one 2); [reflexivity|lia]. }
  assert (H2 : TestBandits.sample n 1
                 {| AdversarialBandit.n_arms := 2;
                    AdversarialBandit.rewards :=
                      TestBandits.two_columns n one two |}
               = (Ok (replicate n two),
                  {| AdversarialBandit.n_arms := 2;
                     AdversarialBandit.rewards := [] |})).
  { pose proof (sample_column n [one; two] two 2 []) as Hc.
    rewrite app_nil_r in Hc. apply Hc; [reflexivity|lia]. }
  split; [|split].
  - split; simpl.
    + unfold TestBandits.two_columns.
      rewrite length_app, !length_replicate. done.
    + apply Forall_app. split; apply Forall_replicate; done.
  - rewrite sample_app, H1, H2. done.
  - replace (S (n + n)) with (n + n + 1)%nat by lia.
    rewrite sample_app, sample_app, H1, H2. reflexivity.
Qed.

End BanditEdgeFacts.

(** ** Further properties of AgentStats *)

Module AgentStatsEdgeFacts.
Import AgentStats.
Import AgentStatsFacts.

(** *** save and load *)

Section Files.
Context `{Libs}.

Lemma ends_with_pickle_ext (filename : string) :
  ends_with ".pickle" (with_pickle_ext filename).
Proof.
  unfold with_pickle_ext.
  destruct (bool_decide (last_chars 7 filename = ".pickle")) eqn:E.
  - apply bool_decide_eq_true_1 in E. by apply last_chars_pickle.
  - by exists filename.
Qed.

Lemma with_pickle_ext_idemp (filename : string) :
  with_pickle_ext (with_pickle_ext filename) = with_pickle_ext filename.
Proof. apply with_pickle_ext_spec, ends_with_pickle_ext. Qed.

(** Allocation changes the store only, and at a new location. *)
Lemma alloc_all_fresh os w ls w' :
  alloc_all os w = (Ok ls, w') ->
  (forall l, l ∈ ls -> l ∉ dom (heap w)) /\
  modifies ∅ w w' /\
  seeder w' = seeder w /\ trace w' = trace w /\ fs w' = fs w.
Proof.
  revert w ls w'. induction os as [|o rest IH]; intros w ls w'; simpl.
  { intros [= <- <-]. split; [intros l Hl; by apply elem_of_nil in Hl|].
    split; [apply modifies_refl|done]. }
  unfold bind at 1. rewrite alloc_eq.
  set (l0 := fresh (dom (heap w))).
  set (w1 := set_heap (<[l0 := o]> (heap w)) w).
  assert (Hfresh : l0 ∉ dom (heap w)) by apply fresh_not_in.
  assert (Hm1 : modifies ∅ w w1) by (apply modifies_set_heap_fresh, Hfresh).
  assert (Hs1 : seeder w1 = seeder w /\ trace w1 = trace w /\ fs w1 = fs w)
    by done.
  clearbody w1 l0.
  unfold bind. destruct (alloc_all rest w1) as [[ls1|e] w2] eqn:Hrest;
    [|intros [= ]].
  unfold ret. intros [= <- <-].
  destruct (IH _ _ _ Hrest) as (Hf & Hm & Hse & Htr & Hfs).
  destruct Hs1 as (Hse1 & Htr1 & Hfs1).
  split.
  { intros l [->|Hl]%elem_of_cons; [done|].
    intros Hin. apply (Hf l Hl). by apply Hm1. }
  split; [eapply modifies_trans; eauto|].
  split; [congruence|]. split; congruence.
Qed.

Lemma restore_fresh d w self' w' :
  restore d w = (Ok self', w') ->
  (forall l, train_env self' = Some l -> l ∉ dom (heap w)) /\
  (eval_env self' ∉ dom (heap w)) /\
  (init_kwargs self' ∉ dom (heap w)) /\
  (fit_kwargs self' ∉ dom (heap w)) /\
  (policy_kwargs self' ∉ dom (heap w)) /\
  (forall l, l ∈ train_env_set self' -> l ∉ dom (heap w)) /\
  modifies ∅ w w' /\
  seeder w' = seeder w /\ trace w' = trace w /\ fs w' = fs w.
Proof.
  unfold restore.
  assert (Hte : exists te w0,
            (match train_env d with
             | None => ret None
             | Some o => bind (alloc o) (fun l => ret (Some l))
             end) w = (Ok te, w0) /\
            modifies ∅ w w0 /\
            (seeder w0 = seeder w /\ trace w0 = trace w /\ fs w0 = fs w) /\
            (forall l, te = Some l -> l ∉ dom (heap w))).
  { destruct (train_env d) as [o|].
    - unfold bind. rewrite alloc_eq. unfold ret.
      eexists (Some _), _. split; [done|].
      split; [apply modifies_set_heap_fresh, fresh_not_in|].
      split; [done|]. intros l [= <-]. apply fresh_not_in.
    - exists None, w. split; [done|]. split; [apply modifies_refl|].
      split; [done|]. intros l [= ]. }
  destruct Hte as (te & w0 & Hrun0 & Hm0 & Hs0 & Hte).
  unfold bind at 1. rewrite Hrun0.
  unfold bind at 1. rewrite alloc_eq.
  set (l1 := fresh (dom (heap w0))).
  set (w1 := set_heap (<[l1 := eval_env d]> (heap w0)) w0).
  assert (Hf1 : l1 ∉ dom (heap w0)) by apply fresh_not_in.
  assert (Hm1 : modifies ∅ w0 w1) by (apply modifies_set_heap_fresh, Hf1).
  assert (Hs1 : seeder w1 = seeder w0 /\ trace w1 = trace w0 /\ fs w1 = fs w0)
    by done.
  clearbody w1 l1.
  unfold bind at 1. rewrite alloc_eq.
  set (l2 := fresh (dom (heap w1))).
  set (w2 := set_heap (<[l2 := init_kwargs d]> (heap w1)) w1).
  assert (Hf2 : l2 ∉ dom (heap w1)) by apply fresh_not_in.
  assert (Hm2 : modifies ∅ w1 w2) by (apply modifies_set_heap_fresh, Hf2).
  assert (Hs2 : seeder w2 = seeder w1 /\ trace w2 = trace w1 /\ fs w2 = fs w1)
    by done.
  clearbody w2 l2.
  unfold bind at 1. rewrite alloc_eq.
  set (l3 := fresh (dom (heap w2))).
  set (w3 := set_heap (<[l3 := fit_kwargs d]> (heap w2)) w2).
  assert (Hf3 : l3 ∉ dom (heap w2)) by apply fresh_not_in.
  assert (Hm3 : modifies ∅ w2 w3) by (apply modifies_set_heap_fresh, Hf3).
  assert (Hs3 : seeder w3 = seeder w2 /\ trace w3 = trace w2 /\ fs w3 = fs w2)
    by done.
  clearbody w3 l3.
  unfold bind at 1. rewrite alloc_eq.
  set (l4 := fresh (dom (heap w3))).
  set (w4 := set_heap (<[l4 := policy_kwargs d]> (heap w3)) w3).
  assert (Hf4 : l4 ∉ dom (heap w3)) by apply fresh_not_in.
  assert (Hm4 : modifies ∅ w3 w4) by (apply modifies_set_heap_fresh, Hf4).
  assert (Hs4 : seeder w4 = seeder w3 /\ trace w4 = trace w3 /\ fs w4 = fs w3)
    by done.
  clearbody w4 l4.
  unfold bind at 1.
  destruct (alloc_all (train_env_set d) w4) as [[ls|e] w5] eqn:Hrun5;
    [|intros [= ]].
  unfold ret. intros [= <- <-]. simpl.
  destruct (alloc_all_fresh _ _ _ _ Hrun5) as (Hf5 & Hm5 & Hs5).
  assert (Hm01 : modifies ∅ w w1) by (eapply modifies_trans; eauto).
  assert (Hm02 : modifies ∅ w w2) by (eapply modifies_trans; eauto).
  assert (Hm03 : modifies ∅ w w3) by (eapply modifies_trans; eauto).
  assert (Hm04 : modifies ∅ w w4) by (eapply modifies_trans; eauto).
  assert (Hm05 : modifies ∅ w w5) by (eapply modifies_trans; eauto).
  split; [exact Hte|].
  split; [intros Hin; apply Hf1; by apply Hm0|].
  split; [intros Hin; apply Hf2; by apply Hm01|].
  split; [intros Hin; apply Hf3; by apply Hm02|].
  split; [intros Hin; apply Hf4; by apply Hm03|].
  split; [intros l Hl Hin; apply (Hf5 l Hl); by apply Hm04|].
  split; [exact Hm05|].
  destruct Hs0 as (? & ? & ?), Hs1 as (? & ? & ?), Hs2 as (? & ? & ?),
    Hs3 as (? & ? & ?), Hs4 as (? & ? & ?), Hs5 as (? & ? & ?).
  split; [congruence|]. split; congruence.
Qed.

Variable pickle_dump : t object -> result unit * Bytes.
Variable pickle_load : Bytes -> result (t object).

(** X7.  [save] and [load] complete a file name the same way, and
    completing is idempotent: the completed name ends in ['.pickle'], and
    [save(f)] and [load(f)] do what [save] and [load] do on the completed
    name.  So [save('run')], [save('run.pickle')], [load('run')] and
    [load('run.pickle')] all address the file ['run.pickle']. *)
Theorem pickle_extension_is_normalised (self : t loc) (filename : string) :
  ends_with ".pickle" (with_pickle_ext filename) /\
  with_pickle_ext (with_pickle_ext filename) = with_pickle_ext filename /\
  save pickle_dump self (Some (with_pickle_ext filename))
    = save pickle_dump self (Some filename) /\
  load pickle_load (with_pickle_ext filename) = load pickle_load filename.
Proof.
  split; [apply ends_with_pickle_ext|].
  split; [apply with_pickle_ext_idemp|].
  split.
  - unfold save, bind, ret. rewrite with_pickle_ext_idemp. reflexivity.
  - unfold load. rewrite with_pickle_ext_idemp. reflexivity.
Qed.

(** X8.  [AgentStats.load] changes nothing that exists.  When it raises
    (the file cannot be opened, or unpickling fails) the world is exactly
    as before; when it returns, the store has only grown: every object the
    loaded AgentStats refers to is a new one, no existing object was
    modified, and rlberry.seeding, the console and the file system were not
    touched. *)
Theorem load_only_adds_objects (filename : string) (w : world)
    (r : result (t loc)) (w' : world) :
  load pickle_load filename w = (r, w') ->
  modifies ∅ w w' /\
  seeder w' = seeder w /\ trace w' = trace w /\ fs w' = fs w /\
  (forall e, r = Raise e ->
     w' = w /\
     (fs_read (with_pickle_ext filename) (fs w) = Raise e \/
      exists b, fs_read (with_pickle_ext filename) (fs w) = Ok b /\
                pickle_load b = Raise e)) /\
  (forall self', r = Ok self' ->
     (forall l, train_env self' = Some l -> l ∉ dom (heap w)) /\
     (eval_env self' ∉ dom (heap w)) /\
     (init_kwargs self' ∉ dom (heap w)) /\
     (fit_kwargs self' ∉ dom (heap w)) /\
     (policy_kwargs self' ∉ dom (heap w)) /\
     (forall l, l ∈ train_env_set self' -> l ∉ dom (heap w))).
Proof.
  unfold load, bind, __init__, ret, lift. simpl.
  destruct (fs_read (with_pickle_ext filename) (fs w)) as [b|e0] eqn:Hread.
  - destruct (pickle_load b) as [d|e0] eqn:Hload.
    + intros Hres. destruct r as [self'|e].
      * destruct (restore_fresh _ _ _ _ Hres)
          as (Hte & Hev & Hik & Hfk & Hpk & Henvs & Hm & Hse & Htr & Hfs).
        split; [done|]. split; [done|]. split; [done|]. split; [done|].
        split; [intros e [= ]|]. intros s [= <-]. done.
      * destruct (restore_spec d w) as (s & w2 & Hok & _).
        rewrite Hok in Hres. discriminate Hres.
    + intros [= <- <-]. split; [apply modifies_refl|].
      split; [done|]. split; [done|]. split; [done|].
      split; [|intros s [= ]]. intros e [= <-]. split; [done|].
      right. eauto.
  - intros [= <- <-]. split; [apply modifies_refl|].
    split; [done|]. split; [done|]. split; [done|].
    split; [|intros s [= ]]. intros e [= <-]. split; [done|]. by left.
Qed.

(** X9.  What [save(filename)] leaves on disk.  The file is opened for
    writing before anything is pickled: if opening fails nothing changes,
    and otherwise the file holds whatever pickle wrote, also when pickling
    raised half-way, in which case [save] raises and the earlier content of
    the file is gone.  Nothing but the file system changes. *)
Theorem save_replaces_file_even_on_failure (self : t loc) (filename : string)
    (w : world) (d : t object) (r : result unit) (data : Bytes) :
  snapshot (heap w) self = Some d ->
  pickle_dump d = (r, data) ->
  (forall ex, fs_write (with_pickle_ext filename) data (fs w) = Raise ex ->
     save pickle_dump self (Some filename) w = (Raise ex, w)) /\
  (forall f', fs_write (with_pickle_ext filename) data (fs w) = Ok f' ->
     save pickle_dump self (Some filename) w = (r, set_fs f' w)) /\
  heap (save pickle_dump self (Some filename) w).2 = heap w /\
  seeder (save pickle_dump self (Some filename) w).2 = seeder w /\
  trace (save pickle_dump self (Some filename) w).2 = trace w.
Proof.
  intros Hsnap Hdump.
  unfold save, bind, ret, dump_to. rewrite Hsnap, Hdump.
  destruct (fs_write (with_pickle_ext filename) data (fs w)) as [f|ex];
    simpl.
  - split; [intros ex [= ]|]. split; [intros f' [= <-]; done|done].
  - split; [intros ex' [= <-]; done|]. split; [intros f' [= ]|done].
Qed.

End Files.

(** *** Identifiers and default file names *)

Section Names.

Lemma string_app_cons (x : ascii) (a b : string) :
  String x a +:+ b = String x (a +:+ b).
Proof. reflexivity. Qed.

Lemma string_app_assoc (a b c : string) : (a +:+ b) +:+ c = a +:+ (b +:+ c).
Proof.
  induction a as [|x a IH]; [done|].
  by rewrite !string_app_cons, IH.
Qed.

Lemma string_last_inj (s1 s2 : string) (c d : ascii) :
  s1 +:+ String c "" = s2 +:+ String d "" -> c = d.
Proof.
  revert s2. induction s1 as [|a s1 IH]; intros [|b s2];
    rewrite ?string_app_cons.
  - by intros [= ->].
  - intros [= _ Hs]. destruct s2; discriminate Hs.
  - intros [= _ Hs]. destruct s1; discriminate Hs.
  - intros [= _ Hs]. by apply (IH s2).
Qed.

Lemma pretty_N_go_suffix (x : N) (s : string) :
  exists p, pretty_N_go x s = p +:+ s.
Proof.
  revert s. induction (N.lt_wf_0 x) as [x _ IH]; intros s.
  assert (x = 0 \/ 0 < x)%N as [->|Hx] by lia.
  - exists "". by rewrite pretty_N_go_0.
  - rewrite pretty_N_go_step by done.
    destruct (IH (x `div` 10)%N) with
      (s := String (pretty_N_char (x `mod` 10)) s) as [p Hp].
    { by apply N.div_lt. }
    exists (p +:+ String (pretty_N_char (x `mod` 10)) "").
    rewrite Hp, string_app_assoc. done.
Qed.

Lemma pretty_N_char_not_e (x : N) : pretty_N_char x <> "e"%char.
Proof. unfold pretty_N_char. by repeat case_match. Qed.

Lemma pretty_Z_last (z : Z) :
  exists p c, pretty z = p +:+ String c "" /\ c <> "e"%char.
Proof.
  assert (Hpos : forall x : positive,
            exists p c, pretty (N.pos x) = p +:+ String c "" /\ c <> "e"%char).
  { intros x. unfold pretty, pretty_N.
    rewrite decide_False by done.
    rewrite pretty_N_go_step by done.
    destruct (pretty_N_go_suffix (N.pos x `div` 10)%N
                (String (pretty_N_char (N.pos x `mod` 10)) "")) as [p Hp].
    exists p, (pretty_N_char (N.pos x `mod` 10)).
    split; [exact Hp|apply pretty_N_char_not_e]. }
  destruct z as [|x|x].
  - exists "", "0"%char. done.
  - exact (Hpos x).
  - destruct (Hpos x) as (p & c & Hp & Hc).
    exists ("-" +:+ p), c. split; [|done].
    change (pretty (Z.neg x)) with ("-" +:+ pretty (N.pos x)).
    rewrite Hp. done.
Qed.

(** A name that ends in a number does not end in ['.pickle']. *)
Lemma number_is_not_pickle (p : string) (z : Z) :
  ~ ends_with ".pickle" (p +:+ pretty z).
Proof.
  intros [q Hq]. destruct (pretty_Z_last z) as (p' & c & Hz & Hc).
  rewrite Hz in Hq.
  change ".pickle" with (".pickl" +:+ String "e" "") in Hq.
  rewrite <- !string_app_assoc in Hq.
  apply string_last_inj in Hq. done.
Qed.

Lemma path_join_relative (a b : string) :
  starts_with_slash b = false -> exists q, path_join a b = q +:+ b.
Proof.
  intros Hb. unfold path_join. rewrite Hb.
  destruct (bool_decide (a = "") || ends_with_slash a).
  - by exists a.
  - exists (a +:+ "/"). by rewrite string_app_assoc.
Qed.

Lemma path_join_inj (a b1 b2 : string) :
  starts_with_slash b1 = false -> starts_with_slash b2 = false ->
  path_join a b1 = path_join a b2 -> b1 = b2.
Proof.
  intros H1 H2. unfold path_join. rewrite H1, H2.
  destruct (bool_decide (a = "") || ends_with_slash a); intros Hj.
  - by apply (inj (String.app a)) in Hj.
  - apply (inj (String.app a)) in Hj. by apply (inj (String.app "/")) in Hj.
Qed.

End Names.

Section Construction.
Context `{Libs}.

(** The names the constructor gives an object. *)
Lemma init_names cls te ev eh ik fk pk name nf nj dir vb w self w' :
  __init__ (Some cls) te ev eh ik fk pk name nf nj dir vb w
    = (Ok (Some self), w') ->
  agent_name self = default (AgentClass.name cls) name /\
  identifier self
    = "stats_" +:+ default (AgentClass.name cls) name +:+ "_"
      +:+ pretty (now w) /\
  output_dir self = dir /\
  default_filename self = path_join dir (identifier self) /\
  eval_horizon self = eh /\
  study self = None.
Proof.
  unfold __init__.
  intros [(ts & w0 & Hts & Hk)|(e & _ & [= ])]%bind_inv.
  inversion Hts; subst ts w0; clear Hts.
  apply bind_inv in Hk as [(l_ev & w1 & _ & Hk)|(e & _ & [= ])].
  apply bind_inv in Hk as [(pkc & w2 & _ & Hk)|(e & _ & [= ])].
  apply bind_inv in Hk as [(ik' & w3 & _ & Hk)|(e & _ & [= ])].
  apply bind_inv in Hk as [(fk' & w4 & _ & Hk)|(e & _ & [= ])].
  apply bind_inv in Hk as [(pk' & w5 & _ & Hk)|(e & _ & [= ])].
  apply bind_inv in Hk as [(envs & w6 & _ & Hk)|(e & _ & [= ])].
  apply bind_inv in Hk as [(g & w7 & _ & Hk)|(e & _ & [= ])].
  inversion Hk; subst. simpl. done.
Qed.

Lemma identifier_relative (name : string) (z : Z) :
  starts_with_slash ("stats_" +:+ name +:+ "_" +:+ pretty z) = false.
Proof. reflexivity. Qed.

Variable pickle_dump : t object -> result unit * Bytes.

(** X10.  Where [save()] writes when it is given no file name: to
    [os.path.join(output_dir, 'stats_<agent_name>_<seconds>')] with
    ['.pickle'] appended, [<seconds>] being the clock at construction.  The
    directory [output_dir] is created first when it does not exist, and
    [save] fails without writing when that creation fails. *)
Theorem save_without_filename
    cls te ev eh ik fk pk name nf nj dir vb w self w1 (w2 : world) :
  __init__ (Some cls) te ev eh ik fk pk name nf nj dir vb w
    = (Ok (Some self), w1) ->
  let path :=
    path_join dir
      ("stats_" +:+ default (AgentClass.name cls) name +:+ "_"
       +:+ pretty (now w)) +:+ ".pickle" in
  (fs_exists dir (fs w2) = true ->
   save pickle_dump self None w2 = save pickle_dump self (Some path) w2) /\
  (fs_exists dir (fs w2) = false ->
   forall f1, fs_makedirs dir (fs w2) = Ok f1 ->
     save pickle_dump self None w2
       = save pickle_dump self (Some path) (set_fs f1 w2)) /\
  (fs_exists dir (fs w2) = false ->
   forall ex, fs_makedirs dir (fs w2) = Raise ex ->
     save pickle_dump self None w2 = (Raise ex, w2)).
Proof.
  intros Hinit path.
  destruct (init_names _ _ _ _ _ _ _ _ _ _ _ _ _ _ _ Hinit)
    as (_ & Hid & Hdir & Hdf & _).
  assert (Hext : with_pickle_ext (default_filename self) = path).
  { rewrite Hdf, Hid.
    destruct (path_join_relative dir
                ("stats_" +:+ default (AgentClass.name cls) name +:+ "_"
                 +:+ pretty (now w))) as [q Hq];
      [apply identifier_relative|].
    apply with_pickle_ext_spec. rewrite Hq.
    rewrite <- !string_app_assoc. apply number_is_not_pickle. }
  assert (Hpath : with_pickle_ext path = path).
  { apply with_pickle_ext_spec. by exists (path_join dir
      ("stats_" +:+ default (AgentClass.name cls) name +:+ "_"
       +:+ pretty (now w))). }
  split; [|split].
  - intros Hex. unfold save, bind, ret, ensure_dir.
    rewrite Hdir, Hex. cbv beta iota. rewrite Hext, Hpath. reflexivity.
  - intros Hex f1 Hmk. unfold save, bind, ret, ensure_dir.
    rewrite Hdir, Hex, Hmk. cbv beta iota. rewrite Hext, Hpath. reflexivity.
  - intros Hex ex Hmk. unfold save, bind, ret, ensure_dir.
    rewrite Hdir, Hex, Hmk. reflexivity.
Qed.

(** X11.  The default file name of an object is made of its output
    directory, its agent name and the clock in whole seconds, and of
    nothing else: two objects with the same directory and agent name,
    whatever their environments and parameters, get the same default file
    name exactly when they are constructed within the same second (the
    second [save()] then overwrites the first). *)
Theorem default_filename_collides_within_a_second
    cls1 te1 ev1 eh1 ik1 fk1 pk1 name1 nf1 nj1 vb1 w1 self1 w1'
    cls2 te2 ev2 eh2 ik2 fk2 pk2 name2 nf2 nj2 vb2 w2 self2 w2' dir :
  __init__ (Some cls1) te1 ev1 eh1 ik1 fk1 pk1 name1 nf1 nj1 dir vb1 w1
    = (Ok (Some self1), w1') ->
  __init__ (Some cls2) te2 ev2 eh2 ik2 fk2 pk2 name2 nf2 nj2 dir vb2 w2
    = (Ok (Some self2), w2') ->
  default (AgentClass.name cls1) name1 = default (AgentClass.name cls2) name2 ->
  (default_filename self1 = default_filename self2 <-> now w1 = now w2).
Proof.
  intros Hi1 Hi2 Hname.
  destruct (init_names _ _ _ _ _ _ _ _ _ _ _ _ _ _ _ Hi1)
    as (_ & Hid1 & _ & Hdf1 & _).
  destruct (init_names _ _ _ _ _ _ _ _ _ _ _ _ _ _ _ Hi2)
    as (_ & Hid2 & _ & Hdf2 & _).
  rewrite Hdf1, Hdf2, Hid1, Hid2, Hname. split.
  - intros Hj. apply path_join_inj in Hj; try apply identifier_relative.
    apply (inj (String.app "stats_")) in Hj.
    apply (inj (String.app (default (AgentClass.name cls2) name2))) in Hj.
    apply (inj (String.app "_")) in Hj.
    by apply (inj pretty) in Hj.
  - by intros ->.
Qed.

End Construction.

(** *** fit at its edges *)

Section FitEdges.
Context `{Libs}.

Lemma gather_nil entries (fs : gmap string (list Stat)) :
  exists fs',
    gather entries [] fs = (Ok tt, fs') /\
    (forall entry, entry ∈ entries -> fs' !! entry = Some []) /\
    (forall entry, entry ∉ entries -> fs' !! entry = fs !! entry).
Proof.
  revert fs. induction entries as [|entry rest IH]; intros fs; simpl.
  { exists fs. split; [done|]. split; [|done].
    intros entry Hin. by apply elem_of_nil in Hin. }
  destruct (IH (<[entry := []]> fs)) as (fs' & Hg & Hin & Hout).
  exists fs'. split; [exact Hg|]. split.
  - intros k Hk. destruct (decide (k ∈ rest)) as [Hr|Hr]; [by apply Hin|].
    apply elem_of_cons in Hk as [->|Hk]; [|done].
    rewrite (Hout _ Hr). apply lookup_insert_eq.
  - intros k Hk. apply not_elem_of_cons in Hk as [Hne Hr].
    rewrite (Hout _ Hr). by apply lookup_insert_ne.
Qed.

(** The inner loop, when it stops: at the first worker whose statistics
    lack the entry, with the statistics of the workers before it
    appended. *)
Lemma collect_stops entry (stats : list (gmap string Stat)) acc e l :
  collect entry stats acc = (Raise e, l) ->
  exists pre stat post col,
    e = KeyError entry /\
    stats = pre ++ stat :: post /\
    stat !! entry = None /\
    Forall2 (fun (s : gmap string Stat) x => s !! entry = Some x) pre col /\
    l = acc ++ col.
Proof.
  revert acc. induction stats as [|stat rest IH]; intros acc; simpl.
  { intros [= ]. }
  destruct (stat !! entry) as [x|] eqn:Hx.
  - intros Hc.
    destruct (IH _ Hc) as (pre & stat' & post & col & -> & -> & Hnone & Hcol & ->).
    exists (stat :: pre), stat', post, (x :: col).
    split; [done|]. split; [done|]. split; [done|].
    split; [by constructor|]. by rewrite <- app_assoc.
  - intros [= <- <-]. exists [], stat, rest, [].
    split; [done|]. split; [done|]. split; [done|].
    split; [constructor|]. by rewrite app_nil_r.
Qed.

(** The outer loop, when it stops: at the first entry of [fit_info] that
    some worker lacks.  The entries before it hold their complete lists,
    the entry itself holds the statistics of the workers before the first
    one that lacks it, and every other entry holds what it held. *)
Lemma gather_stops entries (stats : list (gmap string Stat))
    (fs : gmap string (list Stat)) e fs' :
  gather entries stats fs = (Raise e, fs') ->
  exists done entry rest pre stat post partial,
    e = KeyError entry /\
    entries = done ++ entry :: rest /\
    stats = pre ++ stat :: post /\
    stat !! entry = None /\
    fs' !! entry = Some partial /\
    Forall2 (fun (s : gmap string Stat) x => s !! entry = Some x)
            pre partial /\
    (forall k, k ∈ done ->
       exists col, fs' !! k = Some col /\
         Forall2 (fun (s : gmap string Stat) x => s !! k = Some x)
                 stats col) /\
    (forall k, k ∉ done -> k <> entry -> fs' !! k = fs !! k).
Proof.
  revert fs. induction entries as [|entry0 rest0 IH]; intros fs; simpl.
  { intros [= ]. }
  destruct (collect entry0 stats []) as [rc l] eqn:Hc.
  destruct rc as [[]|ex].
  - intros Hg.
    destruct (IH _ Hg)
      as (done & entry & rest & pre & stat & post & partial &
          -> & -> & Hstats & Hnone & Hpart & Hpre & Hdone & Hother).
    apply collect_ok in Hc as (col0 & -> & Hcol0). simpl in *.
    assert (Hne : entry0 <> entry).
    { intros ->. subst stats.
      apply Forall2_app_inv_l in Hcol0 as (c1 & c2 & _ & Hc2 & _).
      apply Forall2_cons_inv_l in Hc2 as (x & c3 & Hx & _ & _).
      congruence. }
    exists (entry0 :: done), entry, rest, pre, stat, post, partial.
    split; [done|]. split; [done|]. split; [done|]. split; [done|].
    split; [done|]. split; [done|]. split.
    + intros k Hk.
      destruct (decide (k ∈ done)) as [Hin|Hin]; [by apply Hdone|].
      apply elem_of_cons in Hk as [->|Hk]; [|done].
      exists col0. split; [|done].
      rewrite (Hother _ Hin Hne). apply lookup_insert_eq.
    + intros k Hk Hke. apply not_elem_of_cons in Hk as [Hk0 Hk].
      rewrite (Hother _ Hk Hke). by apply lookup_insert_ne.
  - intros [= <- <-].
    apply collect_stops in Hc
      as (pre & stat & post & col & -> & Hstats & Hnone & Hcol & ->).
    exists [], entry0, rest0, pre, stat, post, col.
    split; [done|]. split; [done|]. split; [done|]. split; [done|].
    split; [apply lookup_insert_eq|]. split; [done|]. split.
    + intros k Hk. by apply elem_of_nil in Hk.
    + intros k _ Hke. by apply lookup_insert_ne.
Qed.

(** [fit] either raises before it stores anything, or gets the workers'
    results from joblib, stores their agents and runs the gathering
    loop. *)
Lemma fit_after_joblib self w r self' w' :
  attached self w ->
  fit self w = (r, self', w') ->
  (self' = self /\ exists e, r = Raise e) \/
  exists outs,
    Forall2 (fitted_on self (heap w)) (train_env_set self) outs /\
    gather (fit_info self) (outs.*2) (fit_statistics self)
      = (r, fit_statistics self') /\
    self' = set_fit_statistics (fit_statistics self')
              (set_fitted_agents (Some (outs.*1)) self).
Proof.
  intros (Hlen & Hnd & Hlive & Hik & Hfk & Hikn & Hfkn & Hinfo & _).
  destruct (fit_unfold self w Hik Hfk)
    as (tasks & w2 & Hm2 & Hj2 & Henvs & Hall & Hndk & Hfr & ->).
  destruct (Parallel (n_jobs self) (verbose self) tasks w2)
    as [[outs|ex] w3] eqn:Hp; [|intros [= <- <- <-]; left; eauto].
  simpl. destruct (gather _ _ _) as [rg fs'] eqn:Hg.
  intros [= <- <- <-]. right. exists outs.
  assert (Hsep : separated (dom (heap w)) tasks).
  { split; [by rewrite Henvs|]. split.
    - intros a Ha. apply Hlive. rewrite <- Henvs.
      apply list_elem_of_fmap. by exists a.
    - split; [done|]. intros l Hl. by apply Hfr. }
  apply (Parallel_trained (dom (heap w))) in Hp; [|done|].
  2:{ intros l [Hl|Hl]%elem_of_task_locs.
      - eapply modifies_dom; [exact Hm2|]. apply Hlive. by rewrite <- Henvs.
      - by apply Hfr. }
  split; [|split; [exact Hg|done]].
  assert (Hlive' : forall a, a ∈ tasks -> task_env a ∈ dom (heap w)).
  { intros a Ha. apply Hlive. rewrite <- Henvs.
    apply list_elem_of_fmap. by exists a. }
  rewrite <- Henvs. clear Hg Hsep Henvs Hndk Hfr.
  induction Hp as [|a out tasks' outs' Ha Hrest IH]; [constructor|].
  apply Forall_cons in Hall as [(Hcls & Hi & Hf) Hall].
  simpl. constructor.
  - destruct Ha as (e & ikd & fkd & s & He & Hikd & Hfkd & Ht).
    exists e, ikd, fkd, s. unfold task_env.
    rewrite <- (modifies_heap ∅ w w2 (a.1.1.2) Hm2);
      [|apply (Hlive' a); left|set_solver].
    rewrite <- Hi, <- Hf, <- Hcls. done.
  - apply IH; [done|]. intros b Hb. apply Hlive'. by right.
Qed.

(** X12.  What a missing statistic leaves behind.  If [fit] raises
    [KeyError(entry)] after it has replaced [fitted_agents], then the
    joblib call had returned, [fitted_agents] holds the agents the workers
    trained, one per training environment, and [entry] is the first entry
    of [fit_info] that the statistics of some worker lack; and
    [fit_statistics] is left half updated: the entries of [fit_info] before
    [entry] hold their complete new lists, [entry] holds the statistics of
    the workers before the first one that lacks it, and every other entry
    holds what it held before the call. *)
Theorem fit_missing_statistic_leaves_partial_statistics
    (self : t loc) (w : world) (entry : string) (self' : t loc) (w' : world) :
  attached self w ->
  fit self w = (Raise (KeyError entry), self', w') ->
  fitted_agents self' <> fitted_agents self ->
  exists (outs pre post : list (Agent * gmap string Stat))
         (out : Agent * gmap string Stat)
         (done rest : list string) (partial : list Stat),
    Forall2 (fitted_on self (heap w)) (train_env_set self) outs /\
    fitted_agents self' = Some (outs.*1) /\
    fit_info self = done ++ entry :: rest /\
    outs = pre ++ out :: post /\
    out.2 !! entry = None /\
    fit_statistics self' !! entry = Some partial /\
    Forall2 (fun (o : Agent * gmap string Stat) x => o.2 !! entry = Some x)
            pre partial /\
    (forall k, k ∈ done ->
       exists col, fit_statistics self' !! k = Some col /\
         Forall2 (fun (o : Agent * gmap string Stat) x => o.2 !! k = Some x)
                 outs col) /\
    (forall k, k ∉ done -> k <> entry ->
       fit_statistics self' !! k = fit_statistics self !! k) /\
    same_config self self'.
Proof.
  intros Hatt Hfit Hne.
  destruct (fit_after_joblib _ _ _ _ _ Hatt Hfit)
    as [[-> _]|(outs & Houts & Hg & Hself)]; [done|].
  apply gather_stops in Hg
    as (done & entry' & rest & pre & stat & post & partial &
        [= <-] & Hinfo & Hstats & Hnone & Hpart & Hpre & Hdone & Hother).
  apply fmap_app_inv in Hstats as (pre' & tl & -> & Htl & ->).
  symmetry in Htl.
  apply fmap_cons_inv in Htl as (out & post' & -> & -> & ->).
  exists (pre' ++ out :: post'), pre', post', out, done, rest, partial.
  split; [done|]. split; [by rewrite Hself|].
  split; [done|]. split; [done|]. split; [done|].
  split; [done|]. split; [by apply Forall2_fmap_l in Hpre|].
  split.
  { intros k Hk. destruct (Hdone k Hk) as (col & Hcol & Hall).
    exists col. split; [done|]. by apply Forall2_fmap_l in Hall. }
  split; [done|]. rewrite Hself. by repeat split.
Qed.

(** X13.  An AgentStats built with [n_fit <= 0] has no training
    environment, and [fit] on it runs no worker: when joblib accepts
    [n_jobs], [fit] returns, the store is as before, joblib was handed an
    empty task list, [fitted_agents] is the empty list and every entry of
    [fit_info] has the empty list of statistics. *)
Theorem fit_with_no_training_environment
    cls l0 e0 ev eh ik fk pk name nf nj dir vb w b :
  heap w !! l0 = Some (EnvObj e0) ->
  (forall l, ev = Some l -> exists e, heap w !! l = Some (EnvObj e)) ->
  (forall l, ik = Some l -> l ∈ dom (heap w)) ->
  (forall l, fk = Some l -> l ∈ dom (heap w)) ->
  (forall l, pk = Some l -> l ∈ dom (heap w)) ->
  nf <= 0 ->
  joblib_backend nj = Ok b ->
  exists self w1 self' w2,
    __init__ (Some cls) (Some l0) ev eh ik fk pk name nf nj dir vb w
      = (Ok (Some self), w1) /\
    train_env_set self = [] /\
    fit self w1 = (Ok tt, self', w2) /\
    heap w2 = heap w1 /\
    joblib_calls (trace w2) = joblib_calls (trace w1) ++ [(nj, vb, [])] /\
    fitted_agents self' = Some [] /\
    (forall entry, entry ∈ AgentClass.fit_info cls ->
       fit_statistics self' !! entry = Some []).
Proof.
  intros Hl0 Hev Hik Hfk Hpk Hnf Hjob.
  destruct (init_spec cls l0 e0 ev eh ik fk pk name nf nj dir vb w
              Hl0 Hev Hik Hfk Hpk) as (self & w1 & Hinit & Hb).
  assert (Henvs : train_env_set self = []).
  { apply nil_length_inv. rewrite (b_envs_length _ _ _ _ _ _ _ _ _ _ _ _ _ _ _ Hb).
    lia. }
  destruct (gather_nil (fit_info self) (fit_statistics self))
    as (fs' & Hg & Hin & _).
  set (text1 := NL +:+ " Training AgentStats for " +:+ agent_name self
                +:+ "... " +:+ NL).
  set (text2 := NL +:+ " ... trained! " +:+ NL).
  set (wa := (print_if_verbose (verbose self) text1 w1).2).
  set (wb := add_trace (JoblibParallel (n_jobs self) (verbose self) []) wa).
  set (wc := (print_if_verbose (verbose self) text2 wb).2).
  destruct (print_if_verbose_inv (verbose self) text1 w1 _ _
              (surjective_pairing _)) as (Hha & Hja & _).
  destruct (print_if_verbose_inv (verbose self) text2 wb _ _
              (surjective_pairing _)) as (Hhc & Hjc & _).
  fold wa in Hha, Hja. fold wc in Hhc, Hjc.
  exists self, w1, (set_fit_statistics fs' (set_fitted_agents (Some []) self)),
    wc.
  split; [exact Hinit|]. split; [exact Henvs|].
  split.
  { unfold fit. rewrite Henvs. fold text1 text2.
    rewrite (surjective_pairing (print_if_verbose (verbose self) text1 w1)).
    fold wa. simpl. unfold ret, Parallel, bind, emit, lift. simpl.
    rewrite (b_n_jobs _ _ _ _ _ _ _ _ _ _ _ _ _ _ _ Hb), Hjob.
    rewrite <- (b_n_jobs _ _ _ _ _ _ _ _ _ _ _ _ _ _ _ Hb).
    destruct b; simpl; unfold ret; fold wb;
      rewrite (surjective_pairing (print_if_verbose (verbose self) text2 wb));
      fold wc; simpl; rewrite Hg; reflexivity. }
  split; [rewrite Hhc; exact Hha|].
  split.
  { rewrite Hjc. unfold wb. simpl. rewrite joblib_calls_app, Hja. simpl.
    rewrite (b_n_jobs _ _ _ _ _ _ _ _ _ _ _ _ _ _ _ Hb),
      (b_verbose _ _ _ _ _ _ _ _ _ _ _ _ _ _ _ Hb). done. }
  split; [done|].
  intros entry Hentry. apply Hin.
  by rewrite (b_fit_info _ _ _ _ _ _ _ _ _ _ _ _ _ _ _ Hb).
Qed.

(** X14.  A second [fit] replaces what the first one stored: after two
    calls in a row [fitted_agents] holds the agents of the second run and
    every entry of [fit_info] has [n_fit] statistics, those of the second
    run, not [2 n_fit]. *)
Theorem refit_replaces_statistics
    (self : t loc) (w : world) (s1 : t loc) (w1 : world)
    (s2 : t loc) (w2 : world) :
  attached self w ->
  fit self w = (Ok tt, s1, w1) ->
  fit s1 w1 = (Ok tt, s2, w2) ->
  exists outs : list (Agent * gmap string Stat),
    Forall2 (fitted_on s1 (heap w1)) (train_env_set self) outs /\
    length outs = Z.to_nat (n_fit self) /\
    fitted_agents s2 = Some (outs.*1) /\
    forall entry, entry ∈ fit_info self ->
      exists col,
        fit_statistics s2 !! entry = Some col /\
        length col = Z.to_nat (n_fit self) /\
        Forall2 (fun (out : Agent * gmap string Stat) x =>
                   out.2 !! entry = Some x) outs col.
Proof.
  intros Hatt Hfit1 Hfit2.
  pose proof (fit_attached _ _ _ _ _ Hatt Hfit1) as Hatt1.
  pose proof Hatt as (Hlen & _ & _ & Hik & Hfk & _).
  destruct (fit_effect _ _ _ _ _ Hik Hfk Hfit1) as (Hcfg & _).
  destruct Hcfg as (_ & _ & Hinfo & _ & _ & _ & _ & _ & _ & _ & _ & _ & _
                    & _ & Henvs & _).
  destruct (fit_ok _ _ _ _ Hatt1 Hfit2) as (outs & Hon & Hag & Hst).
  rewrite Henvs in Hon. rewrite Hinfo in Hst.
  assert (Hlo : length outs = Z.to_nat (n_fit self)).
  { rewrite <- Hlen. symmetry. by eapply Forall2_length. }
  exists outs. split; [exact Hon|]. split; [exact Hlo|].
  split; [exact Hag|].
  intros entry Hentry. destruct (Hst entry Hentry) as (col & Hcol & Hall).
  exists col. split; [exact Hcol|]. split; [|exact Hall].
  rewrite <- Hlo. symmetry. by eapply Forall2_length.
Qed.

Lemma build_args_trace self envs w r w' :
  build_args self envs w = (r, w') -> trace w' = trace w.
Proof.
  revert w r w'. induction envs as [|l rest IH]; intros w r w'; simpl.
  { by intros [= <- <-]. }
  assert (Hcopy : forall l w r w', deepcopy l w = (r, w') ->
                                    trace w' = trace w).
  { clear. intros l w r w' [(o & _ & _ & ->)|(_ & _ & ->)]%deepcopy_inv;
      done. }
  intros [(ikc & w1 & H1 & Hk)|(e & H1 & _)]%bind_inv;
    [|by eapply Hcopy].
  apply Hcopy in H1.
  apply bind_inv in Hk as [(fkc & w2 & H2 & Hk)|(e & H2 & _)];
    [|apply Hcopy in H2; congruence].
  apply Hcopy in H2.
  apply bind_inv in Hk as [(args & w3 & H3 & Hk)|(e & H3 & _)];
    [|apply IH in H3; congruence].
  apply IH in H3. inversion Hk; subst. congruence.
Qed.

(** X15.  What [fit] writes to the console: with [verbose > 0] one
    message before the joblib call and one after it, and with
    [verbose <= 0] nothing at all, whether [fit] returns or raises. *)
Theorem fit_console_output
    (self : t loc) (w : world) (r : result unit) (self' : t loc) (w' : world) :
  fit self w = (r, self', w') ->
  (r = Ok tt ->
   exists tasks,
     trace w' = trace w
       ++ (if 0 <? verbose self
           then [Print (NL +:+ " Training AgentStats for "
                        +:+ agent_name self +:+ "... " +:+ NL)]
           else [])
       ++ [JoblibParallel (n_jobs self) (verbose self) tasks]
       ++ (if 0 <? verbose self
           then [Print (NL +:+ " ... trained! " +:+ NL)]
           else [])) /\
  (verbose self <= 0 ->
   exists evs, trace w' = trace w ++ evs /\
     forall text, Print text ∉ evs).
Proof.
  unfold fit, print_if_verbose.
  destruct (Z.ltb_spec 0 (verbose self)) as [Hv|Hv].
  - unfold emit. simpl.
    destruct (build_args self (train_env_set self) _) as [[args|ex] w2] eqn:Hb;
      [|intros [= <- <- <-]; split; [intros [= ]|lia]].
    destruct (Parallel (n_jobs self) (verbose self) args w2)
      as [[outs|ex] w3] eqn:Hp;
      [|intros [= <- <- <-]; split; [intros [= ]|lia]].
    destruct (gather _ _ _) as [rg fs'].
    intros [= <- <- <-]. split; [|lia]. intros _.
    apply build_args_trace in Hb. apply Parallel_modifies in Hp as [_ Hp].
    exists args. simpl. rewrite Hp, Hb. simpl.
    rewrite <- !app_assoc. done.
  - unfold ret. simpl.
    destruct (build_args self (train_env_set self) w) as [[args|ex] w2] eqn:Hb.
    2:{ intros [= <- <- <-]. split; [intros [= ]|]. intros _.
        apply build_args_trace in Hb. exists []. rewrite app_nil_r.
        split; [done|]. intros text Hin. by apply elem_of_nil in Hin. }
    apply build_args_trace in Hb.
    destruct (Parallel (n_jobs self) (verbose self) args w2)
      as [[outs|ex] w3] eqn:Hp.
    2:{ intros [= <- <- <-]. split; [intros [= ]|]. intros _.
        apply Parallel_modifies in Hp as [_ Hp].
        exists [JoblibParallel (n_jobs self) (verbose self) args].
        split; [congruence|].
        intros text [Hin|Hin]%elem_of_cons; [discriminate Hin|].
        by apply elem_of_nil in Hin. }
    apply Parallel_modifies in Hp as [_ Hp].
    destruct (gather _ _ _) as [rg fs'].
    intros [= <- <- <-]. split.
    + intros _. exists args. simpl. congruence.
    + intros _. exists [JoblibParallel (n_jobs self) (verbose self) args].
      split; [congruence|].
      intros text [Hin|Hin]%elem_of_cons; [discriminate Hin|].
      by apply elem_of_nil in Hin.
Qed.

End FitEdges.

(** *** optimize_hyperparams at its edges *)

Section OptimizeEdges.
Context `{Libs}.

Lemma set_optuna_installed_same (w : world) :
  set_optuna_installed (_OPTUNA_INSTALLED w) w = w.
Proof. by destruct w. Qed.

(** A computation that does not look at [_OPTUNA_INSTALLED] leaves it as
    it is. *)
Lemma flag_blind_keeps {A} (m : M A) (w : world) :
  flag_blind m -> _OPTUNA_INSTALLED (m w).2 = _OPTUNA_INSTALLED w.
Proof.
  intros Hm. specialize (Hm (_OPTUNA_INSTALLED w) w).
  rewrite set_optuna_installed_same in Hm.
  apply (f_equal snd) in Hm. simpl in Hm. rewrite Hm at 1. done.
Qed.

(** X16.  [eval_horizon] defaults to None, and an AgentStats built without
    it cannot be optimised: with optuna installed, every call of
    [optimize_hyperparams] on it fails the assertion, whatever its
    arguments, before a study is created or anything else happens. *)
Theorem optimize_requires_eval_horizon
    cls l0 e0 ev ik fk pk name nf nj dir vb w
    n_trials timeout n_sim nf' nj' sm pm cp :
  heap w !! l0 = Some (EnvObj e0) ->
  (forall l, ev = Some l -> exists e, heap w !! l = Some (EnvObj e)) ->
  (forall l, ik = Some l -> l ∈ dom (heap w)) ->
  (forall l, fk = Some l -> l ∈ dom (heap w)) ->
  (forall l, pk = Some l -> l ∈ dom (heap w)) ->
  _OPTUNA_INSTALLED w = true ->
  exists self w1,
    __init__ (Some cls) (Some l0) ev None ik fk pk name nf nj dir vb w
      = (Ok (Some self), w1) /\
    optimize_hyperparams self n_trials timeout n_sim nf' nj' sm pm cp w1
      = (Raise AssertionError, self, w1).
Proof.
  intros Hl0 Hev Hik Hfk Hpk Hflag.
  destruct (init_spec cls l0 e0 ev None ik fk pk name nf nj dir vb w
              Hl0 Hev Hik Hfk Hpk) as (self & w1 & Hinit & Hb).
  exists self, w1. split; [exact Hinit|].
  pose proof (flag_blind_keeps _ w
                (flag_blind_init (Some cls) (Some l0) ev None ik fk pk name
                   nf nj dir vb)) as Hkeep.
  rewrite Hinit in Hkeep. simpl in Hkeep.
  unfold optimize_hyperparams. rewrite Hkeep, Hflag. simpl.
  by rewrite (b_eval_horizon _ _ _ _ _ _ _ _ _ _ _ _ _ _ _ Hb).
Qed.

(** X17.  With [continue_previous=True] the arguments [sampler_method] and
    [pruner_method] are not looked at, even names that are otherwise
    refused, and [self.rng] is not drawn from; and on an object that has no
    study yet (with optuna installed and [eval_horizon] given) the call fails
    the assertion and changes nothing. *)
Theorem continue_previous_ignores_methods
    (self : t loc) n_trials timeout n_sim nf nj sm pm sm' pm' (w : world) :
  optimize_hyperparams self n_trials timeout n_sim nf nj sm pm true w
    = optimize_hyperparams self n_trials timeout n_sim nf nj sm' pm' true w /\
  rng (optimize_hyperparams self n_trials timeout n_sim nf nj sm pm true w).1.2
    = rng self /\
  (_OPTUNA_INSTALLED w = true -> eval_horizon self <> None ->
   study self = None ->
   optimize_hyperparams self n_trials timeout n_sim nf nj sm pm true w
     = (Raise AssertionError, self, w)).
Proof.
  split; [reflexivity|]. split.
  - unfold optimize_hyperparams.
    destruct (_OPTUNA_INSTALLED w); simpl; [|done].
    destruct (eval_horizon self); [|done].
    destruct (study self) as [st|]; [|done].
    destruct (study_optimize _ _ _ _ _) as [[ro st'] w1].
    destruct ro as [[]|ex].
    + by destruct (finish_study _ _ _) as [[out|ex] w3].
    + destruct ex; try done.
      by destruct (finish_study _ _ _) as [[out|ex] w3].
  - intros Hflag Heh Hst. unfold optimize_hyperparams.
    rewrite Hflag. simpl. destruct (eval_horizon self); [|done].
    by rewrite Hst.
Qed.

(** X18.  Unknown method names, for a new study (with optuna installed and
    [eval_horizon] given): a sampler method other than ['random'] and
    ['optuna_default'] raises NotImplementedError and changes nothing; a
    pruner method other than ['halving'] and ['none'] raises it too, but
    after the sampler was chosen, so with the ['random'] sampler [self.rng]
    has already given out one integer.  No study is stored either way. *)
Theorem optimize_rejects_unknown_methods
    (self : t loc) n_trials timeout n_sim nf nj (sm pm : string) (w : world) :
  _OPTUNA_INSTALLED w = true ->
  eval_horizon self <> None ->
  (sm <> "random" -> sm <> "optuna_default" ->
   optimize_hyperparams self n_trials timeout n_sim nf nj sm pm false w
     = (Raise (NotImplementedError
                 ("Sampler method " +:+ sm +:+ " is not implemented.")),
        self, w)) /\
  (pm <> "halving" -> pm <> "none" ->
   optimize_hyperparams self n_trials timeout n_sim nf nj
       "optuna_default" pm false w
     = (Raise (NotImplementedError
                 ("Pruner method " +:+ pm +:+ " is not implemented.")),
        self, w) /\
   optimize_hyperparams self n_trials timeout n_sim nf nj "random" pm false w
     = (Raise (NotImplementedError
                 ("Pruner method " +:+ pm +:+ " is not implemented.")),
        set_rng (rng_integers (rng self) (2 ^ 16)).2 self, w) /\
   study (set_rng (rng_integers (rng self) (2 ^ 16)).2 self) = study self).
Proof.
  intros Hflag Heh. unfold optimize_hyperparams. rewrite Hflag. simpl.
  destruct (eval_horizon self) as [eh|]; [|done].
  unfold get_study, get_sampler, get_pruner.
  split.
  - intros Hs1 Hs2.
    rewrite (bool_decide_eq_false_2 _ Hs1), (bool_decide_eq_false_2 _ Hs2).
    done.
  - intros Hp1 Hp2.
    rewrite (bool_decide_eq_false_2 _ Hp1), (bool_decide_eq_false_2 _ Hp2).
    simpl. destruct (rng_integers (rng self) (2 ^ 16)) as [seed g]. done.
Qed.

(** X19.  Failures before the update.  With optuna installed and
    [eval_horizon] given, once the study is chosen: if a trial raises an
    exception other than KeyboardInterrupt, [optimize_hyperparams] raises
    it; and if the trials complete but the study has no best trial, it
    raises what [study.best_trial] raises.  Either way no object that
    existed before the call has changed, [init_kwargs] included (the trials
    work on copies, and the in-place update comes after
    [study.best_trial]), and the object keeps its configuration and holds
    the study. *)
Theorem trial_failure_changes_no_object
    (self : t loc) n_trials timeout n_sim nf nj sm pm cp (w : world)
    (st : Study) (self1 : t loc) (ro : result unit) (st' : Study)
    (w1 : world) (e : exn) :
  attached self w ->
  _OPTUNA_INSTALLED w = true ->
  eval_horizon self <> None ->
  get_study self sm pm cp = (Ok st, self1) ->
  study_optimize (objective self1 n_sim nf nj) (Z.to_nat n_trials) timeout
    st w = (ro, st', w1) ->
  (ro = Raise e /\ e <> KeyboardInterrupt) \/
  (ro = Ok tt /\ best_trial st' = Raise e) ->
  exists self' w',
    optimize_hyperparams self n_trials timeout n_sim nf nj sm pm cp w
      = (Raise e, self', w') /\
    modifies ∅ w w' /\
    (forall l, l ∈ dom (heap w) -> heap w' !! l = heap w !! l) /\
    same_config self self' /\
    study self' = Some st'.
Proof.
  intros Hatt Hflag Heh Hst Hrun Hcase.
  pose proof (get_study_config _ _ _ _ _ _ Hst) as Hcfg1.
  assert (Hatt1 : attached self1 w) by (eapply attached_config; eauto).
  pose proof (study_optimize_modifies _ _ _ _ _ _ _ _ _ _ _ Hatt1 Hrun) as Hm1.
  assert (Hcfg2 : same_config self (set_study (Some st') self1)).
  { eapply same_config_trans; [exact Hcfg1|]. by repeat split. }
  exists (set_study (Some st') self1), w1.
  split.
  - unfold optimize_hyperparams. rewrite Hflag. simpl.
    destruct (eval_horizon self) as [eh|]; [|done].
    rewrite Hst, Hrun.
    destruct Hcase as [[-> Hne]|[-> Hbest]].
    + by destruct e.
    + unfold finish_study, bind, lift. by rewrite Hbest.
  - split; [exact Hm1|]. split; [|split; [exact Hcfg2|done]].
    intros l Hl. apply (modifies_heap _ _ _ _ Hm1); [done|set_solver].
Qed.

End OptimizeEdges.

(** *** The order in which the constructor draws from rlberry.seeding *)

Section Seeding.
Context `{Libs}.

Lemma deepcopy_opt_seeder x w r w' :
  deepcopy_opt x w = (r, w') -> seeder w' = seeder w.
Proof.
  destruct x as [l|]; simpl; [|by intros [= <- <-]].
  unfold bind, deepcopy. destruct (heap w !! l); by intros [= <- <-].
Qed.

Lemma or_new_dict_seeder x w r w' :
  or_new_dict x w = (r, w') -> seeder w' = seeder w.
Proof. destruct x as [l|]; simpl; by intros [= <- <-]. Qed.

(** X20.  The constructor draws from rlberry.seeding in a fixed order:
    first the seed of the evaluation environment, then those of the [n_fit]
    training environments, one after the other, and last the generator
    [self.rng]; nothing else is drawn. *)
Theorem constructor_seeding_order
    cls l0 e0 ev eh ik fk pk name nf nj dir vb w e_src :
  heap w !! l0 = Some (EnvObj e0) ->
  heap w !! default l0 ev = Some (EnvObj e_src) ->
  (forall l, ik = Some l -> l ∈ dom (heap w)) ->
  (forall l, fk = Some l -> l ∈ dom (heap w)) ->
  (forall l, pk = Some l -> l ∈ dom (heap w)) ->
  exists self w1,
    __init__ (Some cls) (Some l0) ev eh ik fk pk name nf nj dir vb w
      = (Ok (Some self), w1) /\
    let s1 := (env_reseed e_src (seeder w)).2 in
    let s2 := (reseeds (Z.to_nat nf) e0 s1).2 in
    heap w1 !! eval_env self
      = Some (EnvObj (env_reseed e_src (seeder w)).1) /\
    (fun l => heap w1 !! l) <$> train_env_set self
      = (fun e' => Some (EnvObj e')) <$> (reseeds (Z.to_nat nf) e0 s1).1 /\
    rng self = (get_rng s2).1 /\
    seeder w1 = (get_rng s2).2.
Proof.
  intros Hl0 Hsrc Hik Hfk Hpk.
  assert (Hev : forall l, ev = Some l -> exists e, heap w !! l = Some (EnvObj e)).
  { intros l ->. simpl in Hsrc. eauto. }
  destruct (init_spec cls l0 e0 ev eh ik fk pk name nf nj dir vb w
              Hl0 Hev Hik Hfk Hpk) as (self & w1 & Hinit & _).
  exists self, w1. split; [exact Hinit|].
  revert Hinit. unfold __init__.
  intros [(ts & wa & Hts & Hk)|(e & _ & [= ])]%bind_inv.
  inversion Hts; subst ts wa; clear Hts.
  assert (Hsrc' : match ev with Some e => Some e | None => Some l0 end
                  = Some (default l0 ev)) by (by destruct ev).
  rewrite Hsrc' in Hk.
  apply bind_inv in Hk as [(l_ev & w2 & H2 & Hk)|(e & _ & [= ])].
  rewrite (reseeded_copy_eq _ _ _ Hsrc) in H2.
  inversion H2 as [[Hlev Hw2]]. clear H2.
  assert (Hm2 : modifies ∅ w w2).
  { rewrite <- Hw2. apply modifies_set_seeder, modifies_set_heap_fresh,
      fresh_not_in. }
  assert (Hs2 : seeder w2 = (env_reseed e_src (seeder w)).2)
    by (by rewrite <- Hw2).
  assert (Hev2 : heap w2 !! l_ev
                 = Some (EnvObj (env_reseed e_src (seeder w)).1)).
  { rewrite <- Hw2, <- Hlev. simpl. apply lookup_insert_eq. }
  clear Hw2 Hlev.
  apply bind_inv in Hk as [(pkc & w3 & H3 & Hk)|(e & _ & [= ])].
  pose proof (deepcopy_opt_modifies _ _ _ _ H3) as Hm3.
  apply deepcopy_opt_seeder in H3.
  apply bind_inv in Hk as [(ik' & w4 & H4 & Hk)|(e & _ & [= ])].
  pose proof (or_new_dict_modifies _ _ _ _ H4) as Hm4.
  apply or_new_dict_seeder in H4.
  apply bind_inv in Hk as [(fk' & w5 & H5 & Hk)|(e & _ & [= ])].
  pose proof (or_new_dict_modifies _ _ _ _ H5) as Hm5.
  apply or_new_dict_seeder in H5.
  apply bind_inv in Hk as [(pk' & w6 & H6 & Hk)|(e & _ & [= ])].
  pose proof (or_new_dict_modifies _ _ _ _ H6) as Hm6.
  apply or_new_dict_seeder in H6.
  assert (Hm26 : modifies ∅ w2 w6).
  { eapply modifies_trans; [exact Hm3|].
    eapply modifies_trans; [exact Hm4|].
    eapply modifies_trans; [exact Hm5|exact Hm6]. }
  assert (Hm06 : modifies ∅ w w6) by (eapply modifies_trans; eauto).
  assert (Hs6 : seeder w6 = (env_reseed e_src (seeder w)).2) by congruence.
  assert (Hl06 : heap w6 !! l0 = Some (EnvObj e0)).
  { rewrite <- Hl0. apply (modifies_heap _ _ _ _ Hm06);
      [by apply elem_of_dom|set_solver]. }
  assert (Hev6 : heap w6 !! l_ev
                 = Some (EnvObj (env_reseed e_src (seeder w)).1)).
  { rewrite <- Hev2. apply (modifies_heap _ _ _ _ Hm26);
      [by apply elem_of_dom|set_solver]. }
  apply bind_inv in Hk as [(envs & w7 & H7 & Hk)|(e & _ & [= ])].
  destruct (make_train_env_set_eq (Z.to_nat nf) l0 e0 w6 Hl06)
    as (envs' & w7' & Hrun & _ & _ & _ & Hm7 & Hcopies & Hs7 & _).
  rewrite Hrun in H7. inversion H7; subst envs' w7'. clear H7.
  apply bind_inv in Hk as [(g & w8 & H8 & Hk)|(e & _ & [= ])].
  unfold seeding_get_rng in H8.
  destruct (get_rng (seeder w7)) as [g' s'] eqn:Hg.
  inversion H8; subst g w8. clear H8.
  inversion Hk; subst self w1. clear Hk. simpl.
  rewrite Hs6 in Hs7, Hcopies. rewrite Hs7 in Hg.
  split.
  { rewrite <- Hev6. apply (modifies_heap _ _ _ _ Hm7);
      [apply elem_of_dom; eauto|set_solver]. }
  split; [exact Hcopies|]. by rewrite Hg.
Qed.

End Seeding.

(** *** The agent of the stable-baselines demo under AgentStats *)

Section A2C.
Context `{Libs}.

Variable learn :
  Agent -> Env -> gmap string Value -> SeedSeq ->
  result unit * Agent * Env * gmap string Value * SeedSeq.

Lemma a2c_train_reports_nothing fit_info new sp e ikd fkd s out :
  train (StableBaselinesDemo.A2CAgent learn fit_info new sp) e ikd fkd s
    = Ok out ->
  out.2 = ∅.
Proof.
  unfold train. simpl.
  destruct (new e ikd s) as [[[r e1] ik1] s1].
  destruct r as [agent|ex]; [|intros [= ]].
  unfold StableBaselinesDemo.A2CAgent_fit.
  destruct (learn agent e1 fkd s1) as [[[[r2 agent'] e2] fk2] s2].
  destruct r2 as [[]|ex]; [|intros [= ]].
  by intros [= <-].
Qed.

(** X21.  [A2CAgent.fit] of the demo returns the empty dictionary, so
    under AgentStats it reports no statistic: if the class declares an entry
    in [fit_info] and there is a training environment, [AgentStats.fit]
    cannot return normally (when all workers succeed it raises the KeyError
    of an entry); and if [fit_info] is empty, a [fit] that returns leaves
    [fit_statistics] as it was. *)
Theorem a2c_fit_reports_no_statistics
    (entries : list string)
    (new : Env -> gmap string Value -> SeedSeq ->
           result Agent * Env * gmap string Value * SeedSeq)
    (sp : Trial -> result (gmap string Value))
    (self : t loc) (w : world) (r : result unit) (self' : t loc) (w' : world) :
  agent_class self = StableBaselinesDemo.A2CAgent learn entries new sp ->
  attached self w ->
  fit self w = (r, self', w') ->
  (entries <> [] -> train_env_set self <> [] ->
   exists e, r = Raise e /\
     (self' = self \/ exists entry, entry ∈ entries /\ e = KeyError entry)) /\
  (entries = [] -> r = Ok tt -> fit_statistics self' = fit_statistics self).
Proof.
  intros Hcls Hatt Hfit.
  pose proof Hatt as (_ & _ & _ & Hik & Hfk & _ & _ & Hinfo & _).
  rewrite Hcls in Hinfo. simpl in Hinfo.
  split.
  - intros Hne Henvs. destruct r as [[]|e].
    + exfalso.
      destruct (fit_ok _ _ _ _ Hatt Hfit) as (outs & Hon & _ & Hst).
      destruct entries as [|entry rest]; [done|].
      destruct (Hst entry) as (col & _ & Hcol); [rewrite Hinfo; by left|].
      destruct (train_env_set self) as [|l ls]; [done|].
      inversion Hon as [|? out ? outs' Hout Hrest]; subst.
      inversion Hcol as [|? x ? col' Hx Hrest']; subst.
      destruct Hout as (e & ikd & fkd & s & _ & _ & _ & Htrain).
      rewrite Hcls in Htrain.
      apply a2c_train_reports_nothing in Htrain.
      rewrite Htrain in Hx. by rewrite lookup_empty in Hx.
    + exists e. split; [done|].
      unfold fit in Hfit.
      destruct (print_if_verbose (verbose self) _ w) as [r1 w1].
      destruct (build_args self (train_env_set self) w1) as [[args|ex] w2];
        [|inversion Hfit; by left].
      destruct (Parallel (n_jobs self) (verbose self) args w2)
        as [[outs|ex] w3]; [|inversion Hfit; by left].
      destruct (print_if_verbose (verbose self) _ w3) as [r4 w4].
      destruct (gather _ _ _) as [rg fs'] eqn:Hg.
      inversion Hfit; subst rg. right.
      revert Hg. simpl. rewrite Hinfo. clear.
      generalize (fit_statistics self).
      induction entries as [|entry rest IH]; intros fs; simpl.
      { intros [= ]. }
      destruct (collect entry (outs.*2) []) as [rc l] eqn:Hc.
      destruct rc as [[]|ex].
      * intros Hg. destruct (IH _ Hg) as (k & Hk & ->).
        exists k. split; [by right|done].
      * intros [= <- _]. exists entry. split; [by left|].
        clear -Hc. revert Hc. generalize (@nil Stat).
        induction (outs.*2) as [|stat stats IHs]; intros acc; simpl.
        { intros [= ]. }
        destruct (stat !! entry); [apply IHs|by intros [= <- _]].
  - intros Hnil ->. unfold fit in Hfit.
    destruct (print_if_verbose (verbose self) _ w) as [r1 w1].
    destruct (build_args self (train_env_set self) w1) as [[args|ex] w2];
      [|inversion Hfit].
    destruct (Parallel (n_jobs self) (verbose self) args w2)
      as [[outs|ex] w3]; [|inversion Hfit].
    destruct (print_if_verbose (verbose self) _ w3) as [r4 w4].
    simpl in Hfit. rewrite Hinfo, Hnil in Hfit. simpl in Hfit.
    by inversion Hfit.
Qed.

End A2C.

End AgentStatsEdgeFacts.

(** ** The REINFORCE agent *)

Module ReinforceFacts.
Import Reinforce.

Section Facts.
Context `{Deps}.

(** *** Discounted returns *)

Lemma discount_fold_head (gamma : R) (l : list (R * bool)) (d : R) (acc : list R) :
  d = hd int0 acc ->
  (foldl (discount_step gamma) (d, acc) l).1
    = hd int0 (foldl (discount_step gamma) (d, acc) l).2.
Proof.
  revert d acc. induction l as [|[r t] l IH]; intros d acc Hd; simpl; [done|].
  by apply IH.
Qed.

Lemma discount_fold_length (gamma : R) (l : list (R * bool)) (st : R * list R) :
  length (foldl (discount_step gamma) st l).2 = (length l + length st.2)%nat.
Proof.
  revert st. induction l as [|[r t] l IH]; intros [d acc]; simpl; [done|].
  rewrite IH. simpl. lia.
Qed.

Lemma discounted_rewards_length (gamma : R) (rs : list R) (ts : list bool) :
  length rs = length ts ->
  length (discounted_rewards gamma rs ts) = length rs.
Proof.
  intros Hlen. unfold discounted_rewards.
  rewrite discount_fold_length. simpl.
  rewrite length_zip_with, !length_reverse. lia.
Qed.

Lemma discounted_rewards_cons (gamma r : R) (t : bool) (rs : list R) (ts : list bool) :
  length rs = length ts ->
  discounted_rewards gamma (r :: rs) (t :: ts)
    = add r (mul gamma (if t then int0
                        else hd int0 (discounted_rewards gamma rs ts)))
      :: discounted_rewards gamma rs ts.
Proof.
  intros Hlen. unfold discounted_rewards.
  rewrite !reverse_cons.
  rewrite zip_with_app by (by rewrite !length_reverse).
  rewrite foldl_app. simpl.
  pose proof (discount_fold_head gamma
                (zip (reverse rs) (reverse ts)) int0 [] eq_refl) as Hhd.
  destruct (foldl (discount_step gamma) (int0, [])
              (zip (reverse rs) (reverse ts))) as [d acc].
  simpl in *. subst d. by destruct t.
Qed.

(** *** The memory along an episode *)

Lemma remember_all_app (trs1 trs2 : list (Obs * Action * R * bool)) m :
  remember_all (trs1 ++ trs2) m = remember_all trs2 (remember_all trs1 m).
Proof. unfold remember_all. by rewrite foldl_app. Qed.

Lemma remember_all_cons (x : Obs * Action * R * bool) trs m :
  remember_all (x :: trs) m
    = remember_all trs (remember x.1.1.1 x.1.1.2 x.1.2 x.2 m).
Proof. done. Qed.

Lemma remember_all_lists (trs : list (Obs * Action * R * bool)) m :
  states (remember_all trs m) = states m ++ trs.*1.*1.*1 /\
  actions (remember_all trs m) = actions m ++ (snd <$> trs.*1.*1) /\
  rewards (remember_all trs m) = rewards m ++ (snd <$> trs.*1) /\
  is_terminals (remember_all trs m) = is_terminals m ++ trs.*2.
Proof.
  revert m. induction trs as [|x trs IH]; intros m.
  { simpl. by rewrite !app_nil_r. }
  rewrite remember_all_cons.
  destruct (IH (remember x.1.1.1 x.1.1.2 x.1.2 x.2 m)) as (-> & -> & -> & ->).
  simpl. by rewrite <- !app_assoc.
Qed.

Lemma remember_all_aligned (trs : list (Obs * Action * R * bool)) m :
  aligned m -> aligned (remember_all trs m).
Proof.
  intros (Ha & Hr & Ht). unfold aligned.
  destruct (remember_all_lists trs m) as (-> & -> & -> & ->).
  rewrite !length_app, !length_fmap. lia.
Qed.

(** What an agent is configured with, as opposed to what it learns. *)
Lemma interact_spec (n : nat) (observation : Obs) (er : R) (a : t) :
  exists trs,
    memory (interact n observation er a).2 = remember_all trs (memory a) /\
    (length trs <= n)%nat /\
    (forall i x, trs !! i = Some x -> (S i < length trs)%nat -> x.2 = false) /\
    batch_size (interact n observation er a).2 = batch_size a /\
    horizon (interact n observation er a).2 = horizon a /\
    policy_net (interact n observation er a).2 = policy_net a /\
    episode (interact n observation er a).2 = episode a /\
    writer (interact n observation er a).2 = writer a /\
    (forall net, policy_net a = Some net ->
       (exists er', (interact n observation er a).1 = Returns er') /\
       ((length trs < n)%nat -> exists x, last trs = Some x /\ x.2 = true) /\
       ((forall e act, step_done e act = false) ->
        length trs = n /\ Forall (fun x => x.2 = false) trs)).
Proof.
  revert observation er a. induction n as [|n IH]; intros observation er a.
  { exists []. simpl. split; [done|]. split; [lia|].
    split; [intros i x Hi; by rewrite lookup_nil in Hi|].
    do 5 (split; [done|]).
    intros net _. split; [eauto|]. split; [lia|]. intros _. by split. }
  simpl. unfold policy.
  destruct (policy_net a) as [net|] eqn:Hnet.
  2:{ exists []. simpl. split; [done|]. split; [lia|].
      split; [intros i x Hi; by rewrite lookup_nil in Hi|].
      do 5 (split; [done|]). intros net [= ]. }
  destruct (sample_action net observation (torch a)) as [action g].
  simpl.
  destruct (env_step (env a) action)
    as [[[[[next_observation reward] terminated] truncated] info] e'] eqn:Hstep.
  simpl.
  set (x := (observation, action,
             add reward (bonus_of (use_bonus_if_available a) info),
             terminated || truncated)).
  set (a2 := set_memory _ _).
  assert (Hmem2 : memory a2 = remember_all [x] (memory a)) by done.
  destruct (terminated || truncated) eqn:Hdone.
  - exists [x]. simpl. split; [done|]. split; [lia|].
    split.
    { intros [|i] y Hi Hlt; simpl in *; [lia|]. by rewrite lookup_nil in Hi. }
    do 5 (split; [done|]).
    intros net' _. split; [eauto|]. split.
    + intros _. by exists x.
    + intros Hnever. specialize (Hnever (env a) action).
      unfold step_done in Hnever. rewrite Hstep in Hnever. congruence.
  - destruct (IH next_observation (add er reward) a2)
      as (trs & Hmem & Hlen & Hflags & Hbs & Hh & Hpn & Hep & Hwr & Hok).
    exists (x :: trs).
    split. { rewrite Hmem, Hmem2. done. }
    split; [simpl; lia|].
    split.
    { intros [|i] y Hi Hlt; simpl in *.
      - by inversion Hi; subst y.
      - apply (Hflags i y Hi). lia. }
    split; [by rewrite Hbs|]. split; [by rewrite Hh|].
    split; [by rewrite Hpn|]. split; [by rewrite Hep|].
    split; [by rewrite Hwr|].
    intros net' _. destruct (Hok net) as (Hret & Hlast & Hfull); [done|].
    split; [exact Hret|]. split.
    + intros Hlt. destruct Hlast as (y & Hy & Hflag); [simpl in Hlt; lia|].
      exists y. split; [|done].
      destruct trs; [done|]. by rewrite last_cons, Hy.
    + intros Hnever. destruct (Hfull Hnever) as [Hn Hall].
      split; [simpl; by rewrite Hn|]. by constructor.
Qed.

Lemma update_spec (a : t) :
  memory (_update a).2 = memory a /\
  batch_size (_update a).2 = batch_size a /\
  horizon (_update a).2 = horizon a /\
  episode (_update a).2 = episode a /\
  writer (_update a).2 = writer a /\
  (forall net, policy_net a = Some net ->
     (_update a).1 = Returns tt /\ policy_net (_update a).2 <> None).
Proof.
  unfold _update. destruct (policy_net a) as [net|] eqn:Hnet.
  - destruct (gradient_step _ _ _ _ _ _) as [net' opt']. simpl.
    repeat split; try done.
  - simpl. repeat split; try done.
Qed.

(** One episode, laid out. *)
Lemma run_episode_spec (a : t) :
  exists trs,
    (length trs <= Z.to_nat (horizon a))%nat /\
    (forall i x, trs !! i = Some x -> (S i < length trs)%nat -> x.2 = false) /\
    (memory (_run_episode a).2 = remember_all trs (memory a) \/
     memory (_run_episode a).2
       = clear_memory (remember_all trs (memory a))) /\
    batch_size (_run_episode a).2 = batch_size a /\
    horizon (_run_episode a).2 = horizon a /\
    (forall net, policy_net a = Some net ->
       policy_net (_run_episode a).2 <> None /\
       episode (_run_episode a).2 = episode a + 1 /\
       ((length trs < Z.to_nat (horizon a))%nat ->
        exists x, last trs = Some x /\ x.2 = true) /\
       ((forall e act, step_done e act = false) ->
        length trs = Z.to_nat (horizon a) /\
        Forall (fun x => x.2 = false) trs) /\
       (batch_size a = 0 -> (_run_episode a).1 = Raises ZeroDivisionError /\
          memory (_run_episode a).2 = remember_all trs (memory a)) /\
       (batch_size a <> 0 ->
        (exists er, (_run_episode a).1 = Returns er) /\
        memory (_run_episode a).2
          = if (episode a + 1) mod batch_size a =? 0
            then clear_memory (remember_all trs (memory a))
            else remember_all trs (memory a))).
Proof.
  unfold _run_episode.
  destruct (env_reset (env a)) as [[observation info0] e0].
  destruct (interact_spec (Z.to_nat (horizon a)) observation int0 (set_env e0 a))
    as (trs & Hmem & Hlen & Hflags & Hbs & Hh & Hpn & Hep & Hwr & Hok).
  simpl in Hmem, Hbs, Hh, Hpn, Hep, Hwr, Hok.
  exists trs. split; [exact Hlen|]. split; [exact Hflags|].
  destruct (interact (Z.to_nat (horizon a)) observation int0 (set_env e0 a))
    as [[er|ex] a1] eqn:Hint; simpl in Hmem, Hbs, Hh, Hpn, Hep, Hwr, Hok.
  2:{ simpl. split; [by left|]. split; [done|]. split; [done|].
      intros net Hnet. destruct (Hok net Hnet) as ([er' Her] & _).
      discriminate Her. }
  cbv beta iota zeta.
  set (a2 := set_episode (episode a1 + 1) a1).
  set (a3 := match writer a2 with
             | Some wr =>
                 set_writer
                   (Some (add_scalar wr "episode_rewards" er (episode a2))) a2
             | None => a2
             end).
  assert (H3 : memory a3 = memory a1 /\ batch_size a3 = batch_size a1 /\
               horizon a3 = horizon a1 /\ policy_net a3 = policy_net a1 /\
               episode a3 = episode a1 + 1).
  { unfold a3. destruct (writer a2); done. }
  destruct H3 as (Hm3 & Hb3 & Hh3 & Hp3 & He3).
  clearbody a3. clear a2.
  assert (Hb : batch_size a3 = batch_size a) by congruence.
  assert (He : episode a3 = episode a + 1) by congruence.
  assert (Hm : memory a3 = remember_all trs (memory a)) by congruence.
  assert (Hhz : horizon a3 = horizon a) by congruence.
  assert (Hp : policy_net a3 = policy_net a) by congruence.
  clear Hm3 Hb3 Hh3 Hp3 He3 Hmem Hbs Hh Hpn Hep Hwr Hint.
  rewrite Hb, He.
  destruct (Z.eqb_spec (batch_size a) 0) as [Hz|Hnz].
  { simpl. split; [by left|]. split; [done|]. split; [done|].
    intros net Hnet. destruct (Hok net Hnet) as (_ & Hlast & Hfull).
    split; [congruence|]. split; [done|].
    split; [exact Hlast|]. split; [exact Hfull|].
    split; [done|]. intros Hne. done. }
  destruct (Z.eqb_spec ((episode a + 1) mod batch_size a) 0) as [Hup|Hno].
  - destruct (update_spec a3) as (Hmu & Hbu & Hhu & Heu & Hwu & Hoku).
    destruct (_update a3) as [[[]|ex] a4] eqn:Hupd;
      simpl in Hmu, Hbu, Hhu, Heu, Hwu, Hoku; simpl.
    + split; [right; congruence|]. split; [congruence|].
      split; [congruence|].
      intros net Hnet. destruct (Hok net Hnet) as (_ & Hlast & Hfull).
      destruct (Hoku net) as [_ Hpu]; [congruence|].
      split; [exact Hpu|]. split; [congruence|].
      split; [exact Hlast|]. split; [exact Hfull|].
      split; [done|].
      intros _. split; [eauto|]. congruence.
    + split; [left; congruence|]. split; [congruence|].
      split; [congruence|].
      intros net Hnet. destruct (Hoku net) as [Hret _]; [congruence|].
      discriminate Hret.
  - simpl. split; [by left|]. split; [done|]. split; [done|].
    intros net Hnet. destruct (Hok net Hnet) as (_ & Hlast & Hfull).
    split; [congruence|]. split; [done|].
    split; [exact Hlast|]. split; [exact Hfull|].
    split; [done|].
    intros _. split; [eauto|done].
Qed.

End Facts.

Section Episodes.
Context `{Deps}.

Lemma run_episode_aligned (a : t) :
  (forall m, aligned (clear_memory m)) ->
  aligned (memory a) -> aligned (memory (_run_episode a).2).
Proof.
  intros Hclear Ha.
  destruct (run_episode_spec a) as (trs & _ & _ & [-> | ->] & _).
  - by apply remember_all_aligned.
  - apply Hclear.
Qed.

Lemma run_episodes_aligned (n : nat) (a : t) :
  (forall m, aligned (clear_memory m)) ->
  aligned (memory a) -> aligned (memory (run_episodes n a).2).
Proof.
  intros Hclear. revert a. induction n as [|n IH]; intros a Ha; simpl; [done|].
  pose proof (run_episode_aligned a Hclear Ha) as H1.
  destruct (_run_episode a) as [[er|ex] a1]; simpl in *; [|done].
  by apply IH.
Qed.

Lemma run_episodes_ok (n : nat) (a : t) (net : Net) :
  policy_net a = Some net -> batch_size a <> 0 ->
  exists a',
    run_episodes n a = (Returns tt, a') /\
    episode a' = episode a + Z.of_nat n /\
    batch_size a' = batch_size a /\
    horizon a' = horizon a /\
    policy_net a' <> None.
Proof.
  revert a net. induction n as [|n IH]; intros a net Hnet Hbs; simpl.
  { exists a. split; [done|]. split; [lia|]. split; [done|]. split; [done|].
    by rewrite Hnet. }
  destruct (run_episode_spec a) as (trs & _ & _ & _ & Hb & Hh & Hok).
  destruct (Hok net Hnet) as (Hp & He & _ & _ & _ & Hret).
  destruct (Hret Hbs) as ([er Her] & _).
  destruct (_run_episode a) as [r1 a1]. simpl in *. subst r1.
  destruct (policy_net a1) as [net1|] eqn:Hnet1; [|done].
  destruct (IH a1 net1 Hnet1) as (a' & Hrun & He' & Hb' & Hh' & Hp');
    [congruence|].
  exists a'. split; [exact Hrun|]. split; [lia|].
  split; [congruence|]. split; [congruence|done].
Qed.

End Episodes.

(** X22.  The loop of [_update] that walks the stored rewards backwards
    computes the discounted returns by the usual forward recurrence: the
    return of a transition is its reward plus [gamma] times the return of
    the next transition, or plus [gamma] times 0 when the transition is
    terminal or is the last one stored; and there is one return per stored
    transition. *)
Theorem discounted_rewards_recurrence `{Deps}
    (gamma r : R) (t : bool) (rs : list R) (ts : list bool) :
  length rs = length ts ->
  discounted_rewards gamma [] [] = [] /\
  length (discounted_rewards gamma rs ts) = length rs /\
  discounted_rewards gamma (r :: rs) (t :: ts)
    = add r (mul gamma (if t then int0
                        else hd int0 (discounted_rewards gamma rs ts)))
      :: discounted_rewards gamma rs ts.
Proof.
  intros Hlen. split; [done|].
  split; [by apply discounted_rewards_length|].
  by apply discounted_rewards_cons.
Qed.

(** X23.  Returns do not cross a terminal transition: when the memory
    holds a block of transitions that ends with a terminal one, followed by
    further transitions, the returns of the block are what they would be
    without what follows, and the returns of what follows are what they
    would be alone. *)
Theorem discounted_rewards_split_at_terminal `{Deps}
    (gamma : R) (rs1 rs2 : list R) (ts1 ts2 : list bool) :
  length rs1 = length ts1 ->
  length rs2 = length ts2 ->
  last ts1 = Some true ->
  discounted_rewards gamma (rs1 ++ rs2) (ts1 ++ ts2)
    = discounted_rewards gamma rs1 ts1 ++ discounted_rewards gamma rs2 ts2.
Proof.
  revert ts1. induction rs1 as [|r rs1 IH]; intros [|t ts1] Hl1 Hl2 Hlast;
    try done.
  simpl in Hl1. injection Hl1 as Hl1. simpl.
  rewrite discounted_rewards_cons by (rewrite !length_app; lia).
  rewrite (discounted_rewards_cons gamma r t rs1 ts1 Hl1). simpl.
  destruct ts1 as [|t' ts1].
  - destruct rs1; [|done]. simpl in Hlast. injection Hlast as ->. done.
  - rewrite last_cons_cons in Hlast.
    rewrite (IH (t' :: ts1) Hl1 Hl2 Hlast).
    f_equal. destruct t; [done|].
    pose proof (discounted_rewards_length gamma rs1 (t' :: ts1) Hl1) as Hlen.
    destruct (discounted_rewards gamma rs1 (t' :: ts1)); [|done].
    destruct rs1; simpl in *; lia.
Qed.

(** X24.  The four lists of the memory stay aligned: if they have one
    entry per transition before an episode, or before [fit], they have
    afterwards, whether the call returns or raises (given that
    [clear_memory] leaves them aligned, as emptying them does).  So
    [_update] always pairs each reward with its own terminal flag. *)
Theorem fit_keeps_memory_aligned `{Deps} (budget : Z) (a : t) :
  (forall m, aligned (clear_memory m)) ->
  aligned (memory a) ->
  aligned (memory (_run_episode a).2) /\
  aligned (memory (fit budget a).2).
Proof.
  intros Hclear Ha. split.
  - by apply run_episode_aligned.
  - by apply run_episodes_aligned.
Qed.

(** X25.  [fit(budget)] on an agent that has a policy network and a
    non-zero [batch_size] returns after exactly [max(0, budget)] episodes:
    the episode counter has advanced by that much, and the agent still has
    its network, batch size and horizon.  Started from [reset()], the
    counter ends at [max(0, budget)]. *)
Theorem fit_runs_budget_episodes `{Deps} (budget : Z) (a : t) (net : Net) :
  policy_net a = Some net ->
  batch_size a <> 0 ->
  (exists a',
     fit budget a = (Returns tt, a') /\
     episode a' = episode a + Z.max 0 budget /\
     batch_size a' = batch_size a /\
     horizon a' = horizon a /\
     policy_net a' <> None) /\
  (exists a',
     fit budget (reset a) = (Returns tt, a') /\
     episode a' = Z.max 0 budget).
Proof.
  intros Hnet Hbs. split.
  - destruct (run_episodes_ok (Z.to_nat budget) a net Hnet Hbs)
      as (a' & Hrun & He & Hrest).
    exists a'. split; [exact Hrun|]. split; [lia|exact Hrest].
  - destruct (run_episodes_ok (Z.to_nat budget) (reset a)
                (policy_net_fn (env a)) eq_refl Hbs)
      as (a' & Hrun & He & _).
    exists a'. split; [exact Hrun|]. simpl in He. lia.
Qed.


(** X27.  What one call of [_run_episode] stores: the transitions of one
    episode, at most [horizon] of them, appended to the memory in order (and
    the memory cleared after the update when the new episode count is a
    multiple of [batch_size]).  Only the last transition of the episode can
    be flagged terminal, and it is whenever the episode stopped short of the
    horizon.  The episode counter goes up by one. *)
Theorem run_episode_stores_one_episode `{Deps} (a : t) (net : Net) :
  policy_net a = Some net ->
  batch_size a <> 0 ->
  exists er a' trs,
    _run_episode a = (Returns er, a') /\
    (length trs <= Z.to_nat (horizon a))%nat /\
    (forall i x, trs !! i = Some x -> (S i < length trs)%nat -> x.2 = false) /\
    ((length trs < Z.to_nat (horizon a))%nat ->
     exists x, last trs = Some x /\ x.2 = true) /\
    memory a'
      = (if (episode a + 1) mod batch_size a =? 0
         then clear_memory (remember_all trs (memory a))
         else remember_all trs (memory a)) /\
    episode a' = episode a + 1.
Proof.
  intros Hnet Hbs.
  destruct (run_episode_spec a) as (trs & Hlen & Hflags & _ & _ & _ & Hok).
  destruct (Hok net Hnet) as (_ & He & Hlast & _ & _ & Hret).
  destruct (Hret Hbs) as ([er Her] & Hm).
  destruct (_run_episode a) as [r1 a1]. simpl in *. subst r1.
  exists er, a1, trs. done.
Qed.

(** X28.  An episode that is cut by the horizon is not marked as ended:
    if the environment never reports [terminated] or [truncated], an episode
    stores exactly [horizon] transitions and every one of them, the last
    included, has its terminal flag False; the returns computed by [_update]
    therefore run on into the transitions stored after it. *)
Theorem horizon_cut_is_not_terminal `{Deps} (a : t) (net : Net) :
  policy_net a = Some net ->
  batch_size a <> 0 ->
  (episode a + 1) mod batch_size a <> 0 ->
  (forall e act, step_done e act = false) ->
  exists er a',
    _run_episode a = (Returns er, a') /\
    is_terminals (memory a')
      = is_terminals (memory a) ++ replicate (Z.to_nat (horizon a)) false /\
    length (rewards (memory a'))
      = (length (rewards (memory a)) + Z.to_nat (horizon a))%nat.
Proof.
  intros Hnet Hbs Hmod Hnever.
  destruct (run_episode_spec a) as (trs & _ & _ & _ & _ & _ & Hok).
  destruct (Hok net Hnet) as (_ & _ & _ & Hfull & _ & Hret).
  destruct (Hfull Hnever) as [Hlen Hall].
  destruct (Hret Hbs) as ([er Her] & Hm).
  destruct (_run_episode a) as [r1 a1]. simpl in *. subst r1.
  exists er, a1. split; [done|].
  destruct (Z.eqb_spec ((episode a + 1) mod batch_size a) 0) as [?|_];
    [done|].
  rewrite Hm.
  destruct (remember_all_lists trs (memory a)) as (_ & _ & -> & ->).
  split; [|rewrite length_app, !length_fmap; lia].
  f_equal. rewrite <- Hlen. clear -Hall.
  induction Hall as [|x trs Hx Hall IH]; [done|].
  rewrite fmap_cons. simpl. by f_equal.
Qed.

End ReinforceFacts.

(** ** The further properties at work on the toy instances *)

Module AgentStatsEdgeExamples.
Import AgentStats.
Import AgentStatsFacts.
Import AgentStatsEdgeFacts.
Import Demo.

Lemma toy_later_live (l : loc) :
  l ∈ dom (heap toy_world) -> l ∈ dom (heap toy_world_later).
Proof. done. Qed.

Lemma toy_init_of cls eh nf nj vb :
  exists self w1,
    toy_construct_of cls eh nf nj vb toy_world = (Ok (Some self), w1) /\
    built cls 1%positive None eh
      (Some 2%positive) (Some 3%positive) (Some 4%positive) None
      nf nj "stats_data" vb toy_world self w1.
Proof.
  apply (init_spec cls 1%positive 5 None eh
           (Some 2%positive) (Some 3%positive) (Some 4%positive) None
           nf nj "stats_data" vb toy_world).
  - reflexivity.
  - intros l [= ].
  - intros l [= <-]. exact toy_world_live2.
  - intros l [= <-]. exact toy_world_live3.
  - intros l [= <-]. exact toy_world_live4.
Qed.

Lemma toy_construct_eq cls eh nf nj vb :
  toy_construct_of cls eh nf nj vb toy_world
    = (Ok (Some (toy_stats_of cls eh nf nj vb)), toy_world_of cls eh nf nj vb).
Proof.
  destruct (toy_init_of cls eh nf nj vb) as (self & w1 & Hinit & _).
  unfold toy_stats_of, toy_world_of. by rewrite Hinit.
Qed.

Lemma toy_built_of cls eh nf nj vb :
  built cls 1%positive None eh
    (Some 2%positive) (Some 3%positive) (Some 4%positive) None
    nf nj "stats_data" vb toy_world
    (toy_stats_of cls eh nf nj vb) (toy_world_of cls eh nf nj vb).
Proof.
  destruct (toy_init_of cls eh nf nj vb) as (self & w1 & Hinit & Hb).
  unfold toy_stats_of, toy_world_of. rewrite Hinit. exact Hb.
Qed.

Lemma toy_attached_of cls eh nf nj vb :
  attached (toy_stats_of cls eh nf nj vb) (toy_world_of cls eh nf nj vb).
Proof. eapply built_attached. apply toy_built_of. Qed.

Lemma load_only_adds_objects_witness :
  let w := set_fs {[ "run.pickle" := 0%nat ]} (toy_world1 1) in
  exists d self' w',
    snapshot (heap w) (toy_stats 1) = Some d /\
    load (toy_load d) "run" w = (Ok self', w') /\
    (init_kwargs self' ∉ dom (heap w)) /\
    seeder w' = seeder w /\
    load no_load "missing" w = (Raise (FileNotFoundError "missing.pickle"), w).
Proof.
  intros w.
  assert (Hs : match snapshot (heap w) (toy_stats 1) with
               | Some _ => true
               | None => false
               end = true) by (vm_compute; reflexivity).
  destruct (snapshot (heap w) (toy_stats 1)) as [d|] eqn:Hsnap;
    [|discriminate Hs].
  destruct (restore_spec d w) as (self' & w' & Hres & _).
  assert (Hload : load (toy_load d) "run" w = (Ok self', w')).
  { rewrite <- Hres. reflexivity. }
  destruct (load_only_adds_objects (H := toy_libs) (toy_load d) "run" w (Ok self') w' Hload)
    as (_ & Hse & _ & _ & _ & Hfresh).
  destruct (Hfresh self' eq_refl) as (_ & _ & Hik & _).
  assert (Hmiss : load no_load "missing" w
                  = (Raise (FileNotFoundError "missing.pickle"), w))
    by reflexivity.
  exists d, self', w'.
  split; [reflexivity|]. split; [exact Hload|]. split; [exact Hik|].
  split; [exact Hse|exact Hmiss].
Defined.

Lemma save_replaces_file_even_on_failure_witness :
  let w := set_fs {[ "run1.pickle" := 0%nat ]} (toy_world1 1) in
  save toy_dump_fails (toy_stats 1) (Some "run1") w
    = (Raise TypeError, set_fs {[ "run1.pickle" := 3%nat ]} w).
Proof.
  intros w.
  assert (Hs : match snapshot (heap w) (toy_stats 1) with
               | Some _ => true
               | None => false
               end = true) by (vm_compute; reflexivity).
  destruct (snapshot (heap w) (toy_stats 1)) as [d|] eqn:Hsnap;
    [|discriminate Hs].
  destruct (save_replaces_file_even_on_failure (H := toy_libs) toy_dump_fails (toy_stats 1)
              "run1" w d (Raise TypeError) 3%nat Hsnap eq_refl)
    as (_ & Hwrite & _).
  rewrite (Hwrite (<[ "run1.pickle" := 3%nat ]> (fs w))); [|reflexivity].
  reflexivity.
Defined.

Lemma save_without_filename_witness :
  let self := toy_stats_of toy_agent (Some 10) 3 1 0 in
  let w := toy_world_of toy_agent (Some 10) 3 1 0 in
  save toy_dump self None w
    = save toy_dump self (Some "stats_data/stats_toy_1600000000.pickle")
        (set_fs (fs w) w).
Proof.
  intros self w.
  destruct (save_without_filename (H := toy_libs) toy_dump toy_agent (Some 1%positive) None
              (Some 10) (Some 2%positive) (Some 3%positive) (Some 4%positive)
              None 3 1 "stats_data" 0 toy_world self w w
              (toy_construct_eq toy_agent (Some 10) 3 1 0))
    as (_ & Hmk & _).
  apply (Hmk ltac:(vm_compute; reflexivity) (fs w)). reflexivity.
Defined.

Lemma default_filename_collides_within_a_second_witness :
  exists s1 s2 s3 w1 w2 w3,
    toy_construct_of toy_agent (Some 10) 3 1 0 toy_world = (Ok (Some s1), w1) /\
    toy_construct_of toy_agent None 1 2 5 toy_world = (Ok (Some s2), w2) /\
    toy_construct_of toy_agent (Some 10) 3 1 0 toy_world_later
      = (Ok (Some s3), w3) /\
    default_filename s1 = default_filename s2 /\
    default_filename s1 <> default_filename s3.
Proof.
  destruct (toy_init_of toy_agent (Some 10) 3 1 0) as (s1 & w1 & Hi1 & _).
  destruct (toy_init_of toy_agent None 1 2 5) as (s2 & w2 & Hi2 & _).
  destruct (init_spec toy_agent 1%positive 5 None (Some 10)
              (Some 2%positive) (Some 3%positive) (Some 4%positive) None
              3 1 "stats_data" 0 toy_world_later)
    as (s3 & w3 & Hi3 & _).
  { reflexivity. }
  { intros l [= ]. }
  { intros l [= <-]. apply toy_later_live, toy_world_live2. }
  { intros l [= <-]. apply toy_later_live, toy_world_live3. }
  { intros l [= <-]. apply toy_later_live, toy_world_live4. }
  exists s1, s2, s3, w1, w2, w3.
  split; [exact Hi1|]. split; [exact Hi2|]. split; [exact Hi3|].
  split.
  - apply (default_filename_collides_within_a_second
             toy_agent (Some 1%positive) None (Some 10)
             (Some 2%positive) (Some 3%positive) (Some 4%positive) None 3 1 0
             toy_world s1 w1
             toy_agent (Some 1%positive) None None
             (Some 2%positive) (Some 3%positive) (Some 4%positive) None 1 2 5
             toy_world s2 w2 "stats_data" Hi1 Hi2 eq_refl).
    reflexivity.
  - intros Heq.
    apply (default_filename_collides_within_a_second
             toy_agent (Some 1%positive) None (Some 10)
             (Some 2%positive) (Some 3%positive) (Some 4%positive) None 3 1 0
             toy_world s1 w1
             toy_agent (Some 1%positive) None (Some 10)
             (Some 2%positive) (Some 3%positive) (Some 4%positive) None 3 1 0
             toy_world_later s3 w3 "stats_data" Hi1 Hi3 eq_refl) in Heq.
    simpl in Heq. lia.
Defined.

Lemma fit_missing_statistic_leaves_partial_statistics_witness :
  let self := toy_stats_of toy_forgetful (Some 10) 2 1 0 in
  let w := toy_world_of toy_forgetful (Some 10) 2 1 0 in
  (fit self w).1.1 = Raise (KeyError "n_steps") /\
  fitted_agents self = None /\
  fitted_agents (fit self w).1.2 = Some [4; 5] /\
  fit_statistics (fit self w).1.2 !! "episode_rewards" = Some [104; 105] /\
  fit_statistics (fit self w).1.2 !! "n_steps" = Some [] /\
  exists (outs : list (Z * gmap string Z)) (done rest : list string),
    Forall2 (fitted_on self (heap w)) (train_env_set self) outs /\
    fitted_agents (fit self w).1.2 = Some (outs.*1) /\
    fit_info self = done ++ "n_steps" :: rest.
Proof.
  intros self w.
  assert (Hr : (fit self w).1.1 = Raise (KeyError "n_steps"))
    by (vm_compute; reflexivity).
  assert (Hnone : fitted_agents self = None).
  { apply (b_fitted_agents _ _ _ _ _ _ _ _ _ _ _ _ _ _ _
             (toy_built_of toy_forgetful (Some 10) 2 1 0)). }
  assert (Hsome : fitted_agents (fit self w).1.2 = Some [4; 5])
    by (vm_compute; reflexivity).
  split; [exact Hr|]. split; [exact Hnone|]. split; [exact Hsome|].
  split; [vm_compute; reflexivity|]. split; [vm_compute; reflexivity|].
  destruct (fit self w) as [[r self'] w'] eqn:Hfit.
  simpl in Hr, Hsome. subst r.
  destruct (fit_missing_statistic_leaves_partial_statistics
              self w "n_steps" self' w'
              (toy_attached_of toy_forgetful (Some 10) 2 1 0) Hfit)
    as (outs & pre & post & out & done & rest & partial &
        Houts & Hfa & Hinfo & _).
  { rewrite Hsome, Hnone. discriminate. }
  exists outs, done, rest.
  split; [exact Houts|]. split; [exact Hfa|exact Hinfo].
Defined.

Lemma fit_with_no_training_environment_witness :
  exists self w1 self' w2,
    toy_construct_of toy_agent (Some 10) 0 1 0 toy_world
      = (Ok (Some self), w1) /\
    train_env_set self = [] /\
    fit self w1 = (Ok tt, self', w2) /\
    fitted_agents self' = Some [] /\
    fit_statistics self' !! "episode_rewards" = Some [].
Proof.
  destruct (fit_with_no_training_environment
              toy_agent 1%positive 5 None (Some 10)
              (Some 2%positive) (Some 3%positive) (Some 4%positive) None
              0 1 "stats_data" 0 toy_world InProcess)
    as (self & w1 & self' & w2 & Hinit & Henvs & Hfit & _ & _ & Hag & Hst).
  - reflexivity.
  - intros l [= ].
  - intros l [= <-]. exact toy_world_live2.
  - intros l [= <-]. exact toy_world_live3.
  - intros l [= <-]. exact toy_world_live4.
  - lia.
  - reflexivity.
  - exists self, w1, self', w2.
    split; [exact Hinit|]. split; [exact Henvs|]. split; [exact Hfit|].
    split; [exact Hag|]. apply Hst. simpl. by left.
Defined.

Lemma refit_replaces_statistics_witness :
  let self := toy_stats 1 in
  let w := toy_world1 1 in
  let once := fit self w in
  let twice := fit once.1.2 once.2 in
  fit_statistics once.1.2 !! "episode_rewards" = Some [104; 105; 106] /\
  fit_statistics twice.1.2 !! "episode_rewards" = Some [106; 107; 101] /\
  exists outs : list (Z * gmap string Z),
    length outs = 3%nat /\ fitted_agents twice.1.2 = Some (outs.*1).
Proof.
  intros self w once twice.
  assert (Hr1 : once.1.1 = Ok tt) by (vm_compute; reflexivity).
  assert (Hr2 : twice.1.1 = Ok tt) by (vm_compute; reflexivity).
  split; [vm_compute; reflexivity|].
  split; [vm_compute; reflexivity|].
  unfold twice in *. clear twice.
  unfold once in *. clear once.
  destruct (fit self w) as [[r1 s1] w1] eqn:Hfit1. simpl in *. subst r1.
  destruct (fit s1 w1) as [[r2 s2] w2] eqn:Hfit2. simpl in *. subst r2.
  destruct (refit_replaces_statistics self w s1 w1 s2 w2
              toy_attached Hfit1 Hfit2)
    as (outs & _ & Hlen & Hag & _).
  exists outs. split; [|exact Hag].
  etrans; [exact Hlen|]. unfold self.
  rewrite (b_n_fit _ _ _ _ _ _ _ _ _ _ _ _ _ _ _ toy_built). reflexivity.
Defined.

Lemma fit_console_output_witness :
  let self := toy_stats_of toy_agent (Some 10) 3 1 1 in
  let w := toy_world_of toy_agent (Some 10) 3 1 1 in
  (fit self w).1.1 = Ok tt /\
  exists tasks,
    trace (fit self w).2
      = trace w
        ++ [Print (NL +:+ " Training AgentStats for toy... " +:+ NL)]
        ++ [JoblibParallel 1 1 tasks]
        ++ [Print (NL +:+ " ... trained! " +:+ NL)].
Proof.
  intros self w.
  assert (Hr : (fit self w).1.1 = Ok tt) by (vm_compute; reflexivity).
  split; [exact Hr|].
  destruct (fit self w) as [[r self'] w'] eqn:Hfit. simpl in Hr. subst r.
  destruct (fit_console_output self w (Ok tt) self' w' Hfit) as [Hok _].
  destruct (Hok eq_refl) as (tasks & Htr).
  pose proof (toy_built_of toy_agent (Some 10) 3 1 1) as Hb.
  fold self in Hb. fold w in Hb.
  rewrite (b_verbose _ _ _ _ _ _ _ _ _ _ _ _ _ _ _ Hb),
    (b_n_jobs _ _ _ _ _ _ _ _ _ _ _ _ _ _ _ Hb),
    (b_agent_name _ _ _ _ _ _ _ _ _ _ _ _ _ _ _ Hb) in Htr.
  exists tasks. exact Htr.
Defined.

Lemma optimize_requires_eval_horizon_witness :
  exists self w1,
    toy_construct_of toy_agent None 3 1 0 toy_world = (Ok (Some self), w1) /\
    optimize_hyperparams self 3 None 5 2 1 "random" "none" false w1
      = (Raise AssertionError, self, w1).
Proof.
  apply (optimize_requires_eval_horizon
           toy_agent 1%positive 5 None
           (Some 2%positive) (Some 3%positive) (Some 4%positive) None
           3 1 "stats_data" 0 toy_world 3 None 5 2 1 "random" "none" false).
  - reflexivity.
  - intros l [= ].
  - intros l [= <-]. exact toy_world_live2.
  - intros l [= <-]. exact toy_world_live3.
  - intros l [= <-]. exact toy_world_live4.
  - reflexivity.
Defined.

Lemma toy_optuna_installed : _OPTUNA_INSTALLED (toy_world1 1) = true.
Proof. vm_compute. reflexivity. Qed.

Lemma toy_eval_horizon : eval_horizon (toy_stats 1) <> None.
Proof. by rewrite (b_eval_horizon _ _ _ _ _ _ _ _ _ _ _ _ _ _ _ toy_built). Qed.

Lemma optimize_rejects_unknown_methods_witness :
  let self := toy_stats 1 in
  let w := toy_world1 1 in
  optimize_hyperparams self 3 None 5 2 1 "grid" "none" false w
    = (Raise (NotImplementedError "Sampler method grid is not implemented."),
       self, w) /\
  optimize_hyperparams self 3 None 5 2 1 "random" "median" false w
    = (Raise (NotImplementedError "Pruner method median is not implemented."),
       set_rng (rng_integers (rng self) (2 ^ 16)).2 self, w).
Proof.
  intros self w.
  destruct (optimize_rejects_unknown_methods self 3 None 5 2 1
              "grid" "median" w toy_optuna_installed toy_eval_horizon)
    as [Hs Hp].
  split.
  - destruct (optimize_rejects_unknown_methods self 3 None 5 2 1
                "grid" "none" w toy_optuna_installed toy_eval_horizon)
      as [Hs' _].
    apply Hs'; discriminate.
  - destruct Hp as (_ & Hrandom & _); [discriminate|discriminate|].
    exact Hrandom.
Defined.

Lemma trial_failure_changes_no_object_witness :
  (let self := toy_stats_of toy_forgetful (Some 10) 2 1 0 in
   let w := toy_world_of toy_forgetful (Some 10) 2 1 0 in
   exists self' w',
     optimize_hyperparams self 3 None 5 2 1 "optuna_default" "none" false w
       = (Raise (KeyError "n_steps"), self', w') /\
     heap w' !! 2%positive = heap w !! 2%positive) /\
  (let self := toy_stats 1 in
   let w := toy_world1 1 in
   exists self' w',
     optimize_hyperparams self 0 None 5 2 1 "optuna_default" "none" false w
       = (Raise (ValueError "No trials are completed yet."), self', w') /\
     heap w' !! 2%positive = heap w !! 2%positive).
Proof.
  split.
  - intros self w.
    pose proof (toy_built_of
                  toy_forgetful (Some 10) 2 1 0) as Hb.
    fold self in Hb. fold w in Hb.
    assert (Hflag : _OPTUNA_INSTALLED w = true) by (vm_compute; reflexivity).
    assert (Heh : eval_horizon self <> None).
    { by rewrite (b_eval_horizon _ _ _ _ _ _ _ _ _ _ _ _ _ _ _ Hb). }
    assert (Hst : get_study self "optuna_default" "none" false
                  = (Ok [], set_study (Some []) self)) by reflexivity.
    assert (Hro : (study_optimize
                     (objective (set_study (Some []) self) 5 2 1)
                     (Z.to_nat 3) None [] w).1.1
                  = Raise (KeyError "n_steps")) by (vm_compute; reflexivity).
    match type of Hro with
    | (?run).1.1 = _ => destruct run as [[ro st'] w1] eqn:Hrun
    end.
    simpl in Hro. subst ro.
    destruct (trial_failure_changes_no_object (H := toy_libs)
                self 3 None 5 2 1 "optuna_default" "none" false w
                _ _ _ st' w1 (KeyError "n_steps")
                (toy_attached_of
                   toy_forgetful (Some 10) 2 1 0)
                Hflag Heh Hst Hrun)
      as (self' & w' & Hopt & _ & Hkeep & _).
    { left. split; [reflexivity|discriminate]. }
    exists self', w'. split; [exact Hopt|].
    apply Hkeep.
    rewrite <- (b_init_kwargs_given _ _ _ _ _ _ _ _ _ _ _ _ _ _ _ Hb
                  2%positive eq_refl).
    apply (b_init_kwargs_live _ _ _ _ _ _ _ _ _ _ _ _ _ _ _ Hb).
  - intros self w.
    pose proof toy_built as Hb. fold self in Hb. fold w in Hb.
    assert (Hflag : _OPTUNA_INSTALLED w = true) by (vm_compute; reflexivity).
    assert (Heh : eval_horizon self <> None).
    { by rewrite (b_eval_horizon _ _ _ _ _ _ _ _ _ _ _ _ _ _ _ Hb). }
    assert (Hst : get_study self "optuna_default" "none" false
                  = (Ok [], set_study (Some []) self)) by reflexivity.
    assert (Hrun : study_optimize
                     (objective (set_study (Some []) self) 5 2 1)
                     (Z.to_nat 0) None [] w
                   = (Ok tt, [], w)) by reflexivity.
    destruct (trial_failure_changes_no_object (H := toy_libs)
                self 0 None 5 2 1 "optuna_default" "none" false w
                _ _ _ _ _
                (ValueError "No trials are completed yet.")
                toy_attached Hflag Heh Hst Hrun)
      as (self' & w' & Hopt & _ & Hkeep & _).
    { right. split; reflexivity. }
    exists self', w'. split; [exact Hopt|].
    apply Hkeep.
    rewrite <- (b_init_kwargs_given _ _ _ _ _ _ _ _ _ _ _ _ _ _ _ Hb
                  2%positive eq_refl).
    apply (b_init_kwargs_live _ _ _ _ _ _ _ _ _ _ _ _ _ _ _ Hb).
Defined.

Lemma constructor_seeding_order_witness :
  exists self w1,
    toy_construct_of toy_agent (Some 10) 3 1 0 toy_world
      = (Ok (Some self), w1) /\
    heap w1 !! eval_env self = Some (EnvObj 5042) /\
    (fun l => heap w1 !! l) <$> train_env_set self
      = [Some (EnvObj 5043); Some (EnvObj 5044); Some (EnvObj 5045)] /\
    rng self = (7 * 46 + 1) mod 101 /\
    seeder w1 = 47.
Proof.
  destruct (constructor_seeding_order
              toy_agent 1%positive 5 None (Some 10)
              (Some 2%positive) (Some 3%positive) (Some 4%positive) None
              3 1 "stats_data" 0 toy_world 5)
    as (self & w1 & Hinit & Hev & Henvs & Hrng & Hs).
  - reflexivity.
  - reflexivity.
  - intros l [= <-]. exact toy_world_live2.
  - intros l [= <-]. exact toy_world_live3.
  - intros l [= <-]. exact toy_world_live4.
  - exists self, w1. split; [exact Hinit|].
    split; [exact Hev|]. split; [exact Henvs|]. split; [exact Hrng|exact Hs].
Defined.

Lemma a2c_fit_reports_no_statistics_witness :
  let self := toy_stats_of toy_a2c (Some 10) 2 1 0 in
  let w := toy_world_of toy_a2c (Some 10) 2 1 0 in
  (fit self w).1.1 = Raise (KeyError "episode_rewards") /\
  exists e, (fit self w).1.1 = Raise e /\
    ((fit self w).1.2 = self \/
     exists entry, entry ∈ ["episode_rewards"] /\ e = KeyError entry).
Proof.
  intros self w.
  split; [vm_compute; reflexivity|].
  pose proof (toy_built_of toy_a2c (Some 10) 2 1 0) as Hb.
  fold self in Hb. fold w in Hb.
  destruct (fit self w) as [[r self'] w'] eqn:Hfit.
  destruct (a2c_fit_reports_no_statistics (H := toy_libs) toy_learn ["episode_rewards"]
              (AgentClass.new toy_agent)
              (AgentClass.sample_parameters toy_agent)
              self w r self' w')
    as [Hraise _].
  - exact (b_agent_class _ _ _ _ _ _ _ _ _ _ _ _ _ _ _ Hb).
  - apply toy_attached_of.
  - exact Hfit.
  - apply Hraise; [discriminate|].
    intros Hnil. apply (f_equal length) in Hnil.
    rewrite (b_envs_length _ _ _ _ _ _ _ _ _ _ _ _ _ _ _ Hb) in Hnil.
    discriminate Hnil.
Defined.

End AgentStatsEdgeExamples.

Module ReinforceExamples.
Import Reinforce.
Import ReinforceFacts.
Import Demo.

Lemma discounted_rewards_recurrence_witness :
  @discounted_rewards (toy_deps false) 2 [1; 2; 3] [false; true; false]
    = [5; 2; 3].
Proof.
  destruct (@discounted_rewards_recurrence (toy_deps false) 2 1 false
              [2; 3] [true; false] eq_refl) as (_ & _ & Hcons).
  etrans; [exact Hcons|reflexivity].
Defined.

Lemma discounted_rewards_split_at_terminal_witness :
  @discounted_rewards (toy_deps false) 2 ([1; 2] ++ [3; 4])
    ([false; true] ++ [false; false])
  = [5; 2] ++ [11; 4].
Proof.
  etrans.
  - exact (@discounted_rewards_split_at_terminal (toy_deps false) 2
             [1; 2] [3; 4] [false; true] [false; false]
             eq_refl eq_refl eq_refl).
  - reflexivity.
Defined.

Lemma toy_clear_aligned (b : bool) (m : Memory Z Z Z) :
  aligned (@clear_memory (toy_deps b) m).
Proof. by repeat split. Qed.

Lemma fit_keeps_memory_aligned_witness :
  let a := toy_reinforce false 2 in
  aligned (memory (@fit (toy_deps false) 5 a).2) /\
  length (states (memory (@fit (toy_deps false) 5 a).2)) = 2%nat.
Proof.
  intros a. split; [|vm_compute; reflexivity].
  apply (@fit_keeps_memory_aligned (toy_deps false) 5 a).
  - apply toy_clear_aligned.
  - by repeat split.
Defined.

Lemma fit_runs_budget_episodes_witness :
  let a := toy_reinforce false 2 in
  exists a',
    @fit (toy_deps false) 5 a = (Returns tt, a') /\ episode a' = 5.
Proof.
  intros a.
  destruct (@fit_runs_budget_episodes (toy_deps false) 5 a 0)
    as [(a' & Hfit & He & _) _].
  - reflexivity.
  - simpl. lia.
  - exists a'. split; [exact Hfit|]. etrans; [exact He|reflexivity].
Defined.


Lemma run_episode_stores_one_episode_witness :
  let a := toy_reinforce false 2 in
  is_terminals (memory (@_run_episode (toy_deps false) a).2) = [false; true] /\
  rewards (memory (@_run_episode (toy_deps false) a).2) = [6; 6] /\
  (@_run_episode (toy_deps false) a).1 = Returns 2 /\
  exists er a' (trs : list (Z * Z * Z * bool)),
    @_run_episode (toy_deps false) a = (Returns er, a') /\
    (length trs <= 3)%nat /\
    episode a' = 1.
Proof.
  intros a.
  split; [vm_compute; reflexivity|].
  split; [vm_compute; reflexivity|].
  split; [vm_compute; reflexivity|].
  destruct (@run_episode_stores_one_episode (toy_deps false) a 0)
    as (er & a' & trs & Hrun & Hlen & _ & _ & _ & He).
  - reflexivity.
  - simpl. lia.
  - exists er, a', trs. split; [exact Hrun|]. split; [exact Hlen|].
    etrans; [exact He|reflexivity].
Defined.

Lemma horizon_cut_is_not_terminal_witness :
  let a := toy_reinforce true 2 in
  exists er a',
    @_run_episode (toy_deps true) a = (Returns er, a') /\
    is_terminals (memory a') = [false; false; false].
Proof.
  intros a.
  destruct (@horizon_cut_is_not_terminal (toy_deps true) a 0)
    as (er & a' & Hrun & Hflags & _).
  - reflexivity.
  - simpl. lia.
  - vm_compute. discriminate.
  - intros e act. reflexivity.
  - exists er, a'. split; [exact Hrun|]. etrans; [exact Hflags|reflexivity].
Defined.

End ReinforceExamples.
